(** * PDF to JSON converter: the document-structuring pipeline of [app.py]

    A shallow embedding of the heading classifier, the table resolver, the
    word-cluster table builder, the chart detector and the page assembler,
    followed by the properties of the design document that were checked
    against them.

    Conventions of the embedding.
    - Python floats (font sizes, coordinates) are the rationals [Q]: every
      finite float is a rational and the comparisons of the code are exact on
      them.  The one division ([top / y_tolerance]) and the one subtraction
      ([x - last_x]) are the exact results rounded to the nearest binary64
      value, a tie to the even mantissa ([round_float]), as the machine
      computes them from finite floats; the [int] that divides a float is
      converted to the nearest float first ([int_to_float]).  A value too
      large for a float is left as the large rational it rounds to: where the
      machine would give an infinity or Python an [OverflowError], the
      embedding does not follow it.
    - A Python [str] is a [string] whose characters are read as the code
      points below 256; [is_space] is [str.isspace] on that range.
    - A raised exception is the [Raise] case of [result]; [try]/[except
      Exception] is [try_except].
    - The external extractors (Camelot, pdfplumber) are fields of a record:
      [Resolver.Sources], where a table can raise when it is read, and
      [Extractors], where every table reads.  Each call is logged, so that
      the order of the calls and the calls that never happen can be
      stated. *)

From Stdlib Require Import List String Ascii ZArith QArith Qround Bool Lia Lqa.
From Stdlib Require Import Qabs Qpower.
From Stdlib Require Import Permutation Sorted.
Import ListNotations.

Local Open Scope string_scope.
Local Open Scope list_scope.

(** ** Exceptions *)

Inductive exn : Type :=
| KeyError (key : string)
| TypeError
| ZeroDivisionError
| ExternalError.

Inductive result (A : Type) : Type :=
| Ok (a : A)
| Raise (e : exn).

Arguments Ok {A} a.
Arguments Raise {A} e.

Definition bind {A B : Type} (m : result A) (k : A -> result B) : result B :=
  match m with
  | Ok a => k a
  | Raise e => Raise e
  end.

Notation "x <- m ;; k" := (bind m (fun x => k))
  (at level 61, m at next level, right associativity).

(** [for x in l: acc = step(acc, x)] where the body may raise. *)
Fixpoint for_each {A S : Type} (step : S -> A -> result S) (l : list A) (acc : S)
  : result S :=
  match l with
  | [] => Ok acc
  | x :: l' => acc' <- step acc x ;; for_each step l' acc'
  end.

(** [d[key]] on a field that may be missing. *)
Definition subscript {A : Type} (key : string) (field : option A) : result A :=
  match field with
  | Some a => Ok a
  | None => Raise (KeyError key)
  end.

(** [d.get(key, default)]. *)
Definition get_default {A : Type} (field : option A) (default : A) : A :=
  match field with
  | Some a => a
  | None => default
  end.

(** ** Python string operations *)

Module PyStr.

Definition is_space (c : ascii) : bool :=
  let n := nat_of_ascii c in
  ((9 <=? n) && (n <=? 13) || (28 <=? n) && (n <=? 32)
   || (n =? 133) || (n =? 160))%nat.

Fixpoint lstrip (s : string) : string :=
  match s with
  | EmptyString => EmptyString
  | String c s' => if is_space c then lstrip s' else s
  end.

Fixpoint rstrip (s : string) : string :=
  match s with
  | EmptyString => EmptyString
  | String c s' =>
      match rstrip s' with
      | EmptyString => if is_space c then EmptyString else String c EmptyString
      | r => String c r
      end
  end.

(** [s.strip()] *)
Definition strip (s : string) : string := rstrip (lstrip s).

(** [sep.join(parts)] *)
Definition join (sep : string) (parts : list string) : string :=
  String.concat sep parts.

(** [s.split()]: the maximal runs of non-whitespace characters.  [cur] is
    the run being read, if any. *)
Fixpoint split_from (cur : option string) (s : string) : list string :=
  match s with
  | EmptyString =>
      match cur with Some w => [w] | None => [] end
  | String c s' =>
      if is_space c
      then match cur with
           | Some w => w :: split_from None s'
           | None => split_from None s'
           end
      else split_from (Some (String.append (get_default cur "") (String c ""))) s'
  end.

Definition split (s : string) : list string := split_from None s.

(** [not s] *)
Definition is_empty (s : string) : bool :=
  match s with EmptyString => true | _ => false end.

Fixpoint last_char (c : ascii) (s : string) : ascii :=
  match s with
  | EmptyString => c
  | String c' s' => last_char c' s'
  end.

(** No whitespace at either end. *)
Definition is_trimmed (s : string) : bool :=
  match s with
  | EmptyString => true
  | String c s' => negb (is_space c) && negb (is_space (last_char c s'))
  end.

End PyStr.

(** ** Sorting: [sorted] and [list.sort] are stable *)

Section StableSort.
Context {A : Type} (lt : A -> A -> bool).

Fixpoint insert_sorted (x : A) (l : list A) : list A :=
  match l with
  | [] => [x]
  | y :: l' => if lt y x then y :: insert_sorted x l' else x :: l
  end.

Fixpoint sorted (l : list A) : list A :=
  match l with
  | [] => []
  | x :: l' => insert_sorted x (sorted l')
  end.
End StableSort.

Definition Qltb (x y : Q) : bool := negb (Qle_bool y x).
Definition Qeqb (x y : Q) : bool := Qeq_bool x y.

(** ** Data model *)

(** The page dictionary of the block source ([page.get_text("dict")]); a
    missing key is [None]. *)
Record Span : Type := {
  span_text : option string;
  span_size : option Q;
  span_flags : option Z
}.

Record Line : Type := { line_spans : option (list Span) }.

Record Block : Type := {
  block_lines : option (list Line);
  block_bbox : option (Q * Q * Q * Q)
}.

Record Page : Type := {
  page_blocks : option (list Block);
  page_images : nat
}.

(** The dictionaries appended to [enriched]. *)
Record TextBlock : Type := {
  text : string;
  bbox : option (Q * Q * Q * Q);
  largest_font : Q;
  is_bold : bool
}.

(** The content dictionaries, by their ["type"]. *)
Inductive ContentItem : Type :=
| Paragraph (section : string) (sub_section : option string) (txt : string)
| Table (section : string) (sub_section : option string)
        (description : option string) (table_data : list (list string))
| Chart (section : string) (sub_section : option string) (description : string).

Definition item_section (i : ContentItem) : string :=
  match i with
  | Paragraph s _ _ | Table s _ _ _ | Chart s _ _ => s
  end.

Definition item_sub_section (i : ContentItem) : option string :=
  match i with
  | Paragraph _ s _ | Table _ s _ _ | Chart _ s _ => s
  end.

Definition item_text (i : ContentItem) : option string :=
  match i with
  | Paragraph _ _ t => Some t
  | _ => None
  end.

Definition item_description (i : ContentItem) : option string :=
  match i with
  | Paragraph _ _ _ => None
  | Table _ _ d _ => d
  | Chart _ _ d => Some d
  end.

Definition item_table_data (i : ContentItem) : option (list (list string)) :=
  match i with
  | Table _ _ _ t => Some t
  | _ => None
  end.

Definition is_paragraph (i : ContentItem) : bool :=
  match i with Paragraph _ _ _ => true | _ => false end.

(** [last_section if last_section else "Unknown"] *)
Definition section_or_unknown (last_section : option string) : string :=
  match last_section with
  | Some s => if PyStr.is_empty s then "Unknown" else s
  | None => "Unknown"
  end.

(** ** Heading classifier: [extract_text_and_headings] *)

(** The three parallel lists filled by the loops over lines and spans. *)
Definition SpanAcc : Type := (list string * list Q * list Z)%type.

Definition collect_span (acc : SpanAcc) (s : Span) : result SpanAcc :=
  let '(text_parts, font_sizes, font_flags) := acc in
  t <- subscript "text" (span_text s) ;;
  z <- subscript "size" (span_size s) ;;
  f <- subscript "flags" (span_flags s) ;;
  Ok (text_parts ++ [t], font_sizes ++ [z], font_flags ++ [f]).

Definition collect_line (acc : SpanAcc) (l : Line) : result SpanAcc :=
  for_each collect_span (get_default (line_spans l) []) acc.

(** [max(font_sizes)]: the first of the largest elements. *)
Definition py_max (first : Q) (rest : list Q) : Q :=
  fold_left (fun m x => if Qltb m x then x else m) rest first.

Definition max_or_zero (font_sizes : list Q) : Q :=
  match font_sizes with
  | [] => 0%Q
  | z :: rest => py_max z rest
  end.

(** [any((f & 2) != 0 for f in font_flags)] *)
Definition any_bold (font_flags : list Z) : bool :=
  existsb (fun f => negb (Z.land f 2 =? 0)%Z) font_flags.

(** The body of the first loop: [None] is the [continue] of an empty text. *)
Definition enrich_block (b : Block) : result (option TextBlock) :=
  acc <- for_each collect_line (get_default (block_lines b) []) ([], [], []) ;;
  let '(text_parts, font_sizes, font_flags) := acc in
  let t := PyStr.strip (PyStr.join " " text_parts) in
  if PyStr.is_empty t then Ok None
  else Ok (Some {| text := t;
                   bbox := block_bbox b;
                   largest_font := max_or_zero font_sizes;
                   is_bold := any_bold font_flags |}).

Definition enrich_step (enriched : list TextBlock) (b : Block)
  : result (list TextBlock) :=
  e <- enrich_block b ;;
  match e with
  | Some tb => Ok (enriched ++ [tb])
  | None => Ok enriched
  end.

(** The sort key [(x["bbox"][1], x["bbox"][0])]; subscripting [None] is a
    [TypeError]. *)
Definition sort_key (b : TextBlock) : result (Q * Q) :=
  match bbox b with
  | Some (x0, y0, _, _) => Ok (y0, x0)
  | None => Raise TypeError
  end.

(** Tuple comparison [k1 < k2]. *)
Definition key_lt (k1 k2 : Q * Q) : bool :=
  if Qeqb (fst k1) (fst k2) then Qltb (snd k1) (snd k2)
  else Qltb (fst k1) (fst k2).

Definition keyed_step (keyed : list ((Q * Q) * TextBlock)) (b : TextBlock)
  : result (list ((Q * Q) * TextBlock)) :=
  k <- sort_key b ;; Ok (keyed ++ [(k, b)]).

(** [enriched.sort(key=...)]: all keys are computed first, then the blocks
    are sorted stably on them. *)
Definition sort_blocks (enriched : list TextBlock) : result (list TextBlock) :=
  keyed <- for_each keyed_step enriched [] ;;
  Ok (map snd (sorted (fun a b => key_lt (fst a) (fst b)) keyed)).

(** [lf >= 16 or (lf >= 14 and bold)] *)
Definition is_section_heading (b : TextBlock) : bool :=
  Qle_bool 16 (largest_font b) || (Qle_bool 14 (largest_font b) && is_bold b).

(** [(13 <= lf < 16 or (11.5 <= lf < 13 and bold))
     or (len(txt.split()) <= 4 and bold)] *)
Definition subsection_test (b : TextBlock) : bool :=
  (Qle_bool 13 (largest_font b) && Qltb (largest_font b) 16
   || (Qle_bool (23 # 2) (largest_font b) && Qltb (largest_font b) 13
       && is_bold b))
  || ((List.length (PyStr.split (text b)) <=? 4)%nat && is_bold b).

(** The heading state carried by the second loop, with the paragraphs
    emitted so far. *)
Record Classifier : Type := {
  paragraphs : list ContentItem;
  last_section : option string;
  last_subsection : option string
}.

(** The body of the second loop. *)
Definition classify_block (st : Classifier) (b : TextBlock) : Classifier :=
  if is_section_heading b then
    {| paragraphs := paragraphs st;
       last_section := Some (text b);
       last_subsection := None |}
  else if subsection_test b then
    {| paragraphs := paragraphs st;
       last_section := last_section st;
       last_subsection := Some (text b) |}
  else
    {| paragraphs :=
         paragraphs st ++
         [Paragraph (section_or_unknown (last_section st))
                    (last_subsection st) (text b)];
       last_section := last_section st;
       last_subsection := last_subsection st |}.

Definition classify_blocks (blocks : list TextBlock) (st : Classifier)
  : Classifier :=
  fold_left classify_block blocks st.

(** The first half of the function: the blocks with a text, in reading
    order. *)
Definition text_blocks (page : Page) : result (list TextBlock) :=
  enriched <- for_each enrich_step (get_default (page_blocks page) []) [] ;;
  sort_blocks enriched.

Definition extract_text_and_headings (page : Page)
  (section subsection : option string) : result Classifier :=
  blocks <- text_blocks page ;;
  Ok (classify_blocks blocks
        {| paragraphs := [];
           last_section := section;
           last_subsection := subsection |}).

(** ** Table cells: [sanitize_table] *)

(** A cell of an extracted grid: [None], or an object given by the text
    [str(cell)] returns for it (a [str] is its own text). *)
Inductive Cell : Type :=
| CNone
| CObj (str : string).

Definition Grid : Type := list (list Cell).

(** ["" if cell is None else str(cell).strip()] *)
Definition sanitize_cell (cell : Cell) : string :=
  match cell with
  | CNone => ""
  | CObj s => PyStr.strip s
  end.

Definition sanitize_table (table_rows : Grid) : list (list string) :=
  map (fun row => map sanitize_cell row) table_rows.

(** A table of [str] cells seen as a grid of objects. *)
Definition grid_of_strings (table : list (list string)) : Grid :=
  map (fun row => map CObj row) table.

(** ** Word-cluster table builder: [build_table_from_words] *)

(** A word dictionary of the positioned-word source. *)
Record Word : Type := {
  word_text : option string;
  word_x0 : option Q;
  word_top : option Q
}.

(** [round(x)]: to the nearest integer, a tie to the even one. *)
Definition py_round (x : Q) : Z :=
  let n := Qnum x in
  let d := Zpos (Qden x) in
  let f := (n / d)%Z in
  match (2 * (n mod d) ?= d)%Z with
  | Lt => f
  | Gt => (f + 1)%Z
  | Eq => if Z.even f then f else (f + 1)%Z
  end.

(** ** Float subtraction and division *)

Definition pow2 (k : Z) : Q := (2 ^ k)%Q.

(** For [0 < q], the exponent [e] with [2^e <= q < 2^(e+1)]. *)
Definition binade (q : Q) : Z :=
  let e := (Z.log2 (Qnum q) - Z.log2 (Zpos (Qden q)))%Z in
  if Qltb q (pow2 e) then (e - 1)%Z else e.

(** The spacing of the binary64 values around [q]: 53 bits of mantissa, and
    [2^-1074] in the subnormal range. *)
Definition ulp (q : Q) : Q :=
  pow2 (Z.max (binade (Qabs q) - 52) (-1074)).

(** The binary64 value nearest to [q], a tie to the even mantissa. *)
Definition round_float (q : Q) : Q :=
  (inject_Z (py_round (q / ulp q)) * ulp q)%Q.

(** [x - y] and [x / y] on floats. *)
Definition float_sub (x y : Q) : Q := round_float (x - y).
Definition float_div (x y : Q) : Q := round_float (x / y).

(** An [int] that meets a float in a division is converted to the nearest
    float first. *)
Definition int_to_float (z : Z) : Q := round_float (inject_Z z).

(** [round(w["top"] / y_tolerance) * y_tolerance]: a float division by the
    converted [int], [round] to an [int], and an exact [int] product. *)
Definition row_key (top : Q) (y_tolerance : Z) : result Z :=
  if (y_tolerance =? 0)%Z then Raise ZeroDivisionError
  else Ok (py_round (float_div top (int_to_float y_tolerance))
           * y_tolerance)%Z.

(** [rows = defaultdict(list)], in insertion order of its keys. *)
Definition Rows : Type := list (Z * list (Q * string)).

(** [rows[y].append(v)] *)
Fixpoint rows_append (rows : Rows) (y : Z) (v : Q * string) : Rows :=
  match rows with
  | [] => [(y, [v])]
  | (k, l) :: rest =>
      if (k =? y)%Z then (k, l ++ [v]) :: rest
      else (k, l) :: rows_append rest y v
  end.

(** [rows[y]] *)
Fixpoint rows_get (rows : Rows) (y : Z) : list (Q * string) :=
  match rows with
  | [] => []
  | (k, l) :: rest => if (k =? y)%Z then l else rows_get rest y
  end.

(** The body of the loop over [words]. *)
Definition cluster_word (y_tolerance : Z) (rows : Rows) (w : Word)
  : result Rows :=
  let t := PyStr.strip (get_default (word_text w) "") in
  if PyStr.is_empty t then Ok rows
  else
    top <- subscript "top" (word_top w) ;;
    y <- row_key top y_tolerance ;;
    x <- subscript "x0" (word_x0 w) ;;
    Ok (rows_append rows y (x, t)).

(** The body of the loop over [row_words]; the state is [(row, last_x)]. *)
Definition emit_word (col_gap : Q) (st : list string * option Q)
  (w : Q * string) : list string * option Q :=
  let '(row, last_x) := st in
  let '(x, txt) := w in
  let row' :=
    match last_x with
    | Some lx => if Qltb col_gap (float_sub x lx) then row ++ [""] else row
    | None => row
    end in
  (row' ++ [txt], Some x).

Definition build_row (col_gap : Q) (row_words : list (Q * string))
  : list string :=
  fst (fold_left (emit_word col_gap) row_words ([], None)).

Definition x0_lt (a b : Q * string) : bool := Qltb (fst a) (fst b).

Definition table_of_rows (col_gap : Q) (rows : Rows) : list (list string) :=
  map (fun y => build_row col_gap (sorted x0_lt (rows_get rows y)))
      (sorted Z.ltb (map fst rows)).

Definition build_table_from_words (words : list Word) (y_tolerance : Z)
  (col_gap : Q) : result (list (list string)) :=
  match words with
  | [] => Ok []
  | _ =>
      rows <- for_each (cluster_word y_tolerance) words [] ;;
      Ok (table_of_rows col_gap rows)
  end.

Definition default_y_tolerance : Z := 3.
Definition default_col_gap : Q := 20.

(** ** Table resolver: [extract_tables] *)

Inductive Flavor : Type := Lattice | Stream.

(** The calls the resolver makes, in the order it makes them. *)
Inductive Call : Type :=
| CamelotReadPdf (page_num : Z) (flavor : Flavor)
| PlumberExtractTables (page_num : Z)
| PlumberExtractWords (page_num : Z)
| BuildTableFromWords.

(** The external extractors on the document at [pdf_path], when every table
    they return can be read: each call raises or returns its tables as grids
    ([t.df.values.tolist()] for Camelot) or its words. *)
Record Extractors : Type := {
  camelot_read_pdf : Z -> Flavor -> result (list Grid);
  plumber_extract_tables : Z -> result (list Grid);
  plumber_extract_words : Z -> result (list Word)
}.

(** Computations that raise and log their calls; the log survives a raise. *)
Definition Eff (A : Type) : Type := list Call -> result A * list Call.

Definition eff_ret {A : Type} (a : A) : Eff A := fun log => (Ok a, log).

Definition eff_bind {A B : Type} (m : Eff A) (k : A -> Eff B) : Eff B :=
  fun log =>
    match m log with
    | (Ok a, log') => k a log'
    | (Raise e, log') => (Raise e, log')
    end.

Definition call {A : Type} (c : Call) (outcome : result A) : Eff A :=
  fun log => (outcome, log ++ [c]).

(** [try: body / except Exception: handler] *)
Definition try_except {A : Type} (body handler : Eff A) : Eff A :=
  fun log =>
    match body log with
    | (Ok a, log') => (Ok a, log')
    | (Raise _, log') => handler log'
    end.

Notation "x <~ m ;; k" := (eff_bind m (fun x => k))
  (at level 61, m at next level, right associativity).

(** How a [try] block of the resolver ends: [return results] or falling
    through to the next strategy with the [results] list as it stands. *)
Inductive Flow : Type :=
| Return (results : list ContentItem)
| Next (results : list ContentItem).

Definition is_nil {A : Type} (l : list A) : bool :=
  match l with [] => true | _ => false end.

(** The body of the loops over the tables of a structured extractor. *)
Definition append_table (section subsection : option string)
  (results : list ContentItem) (t : Grid) : list ContentItem :=
  let rows := sanitize_table t in
  if is_nil rows then results
  else results ++ [Table (section_or_unknown section) subsection None rows].

Definition return_if_any (results : list ContentItem) : Flow :=
  if is_nil results then Next results else Return results.

(** The resolver as written.  The loops over the tables of Camelot and of
    pdfplumber stand inside the [try] blocks, and the three blocks share the
    one [results] list; a table of an answer either gives its grid or raises
    when it is read ([t.df.values.tolist()], [sanitize_table]), and the
    handler then finds in [results] what the loop had appended. *)
Module Resolver.

Record Sources : Type := {
  camelot_tables : Z -> Flavor -> result (list (result Grid));
  plumber_tables : Z -> result (list (result Grid));
  plumber_words : Z -> result (list Word)
}.

(** The loop over the tables: it ends at the first table that raises, and
    [results] keeps what was appended before. *)
Fixpoint append_tables (section subsection : option string)
  (tables : list (result Grid)) (results : list ContentItem)
  : list ContentItem * option exn :=
  match tables with
  | [] => (results, None)
  | Ok t :: rest =>
      append_tables section subsection rest
                    (append_table section subsection results t)
  | Raise e :: _ => (results, Some e)
  end.

(** After the loop: [if results: return results] when it ended normally,
    [except Exception: pass] with the list as it stands when it raised. *)
Definition after_loop (outcome : list ContentItem * option exn) : Flow :=
  match outcome with
  | (results, None) => return_if_any results
  | (results, Some _) => Next results
  end.

Definition try_camelot (S : Sources) (page_num : Z)
  (section subsection : option string) (results : list ContentItem)
  : Eff Flow :=
  try_except
    (tables <~ call (CamelotReadPdf page_num Lattice)
                    (camelot_tables S page_num Lattice) ;;
     tables <~ (if (List.length tables =? 0)%nat
                then call (CamelotReadPdf page_num Stream)
                          (camelot_tables S page_num Stream)
                else eff_ret tables) ;;
     eff_ret (after_loop (append_tables section subsection tables results)))
    (eff_ret (Next results)).

Definition try_pdfplumber (S : Sources) (page_num : Z)
  (section subsection : option string) (results : list ContentItem)
  : Eff Flow :=
  try_except
    (ptables <~ call (PlumberExtractTables page_num)
                     (plumber_tables S page_num) ;;
     eff_ret (after_loop (append_tables section subsection ptables results)))
    (eff_ret (Next results)).

Definition try_words (S : Sources) (page_num : Z)
  (section subsection : option string) (results : list ContentItem)
  : Eff (list ContentItem) :=
  try_except
    (words <~ call (PlumberExtractWords page_num)
                   (plumber_words S page_num) ;;
     table <~ call BuildTableFromWords
                   (build_table_from_words words default_y_tolerance
                                           default_col_gap) ;;
     eff_ret
       (if is_nil table then results
        else results ++
             [Table (section_or_unknown section) subsection
                    (Some "Reconstructed from word positions")
                    (sanitize_table (grid_of_strings table))]))
    (eff_ret results).

Definition extract_tables (S : Sources) (page_num : Z)
  (section subsection : option string) : Eff (list ContentItem) :=
  f1 <~ try_camelot S page_num section subsection [] ;;
  match f1 with
  | Return results => eff_ret results
  | Next results =>
      f2 <~ try_pdfplumber S page_num section subsection results ;;
      match f2 with
      | Return results => eff_ret results
      | Next results => try_words S page_num section subsection results
      end
  end.

(** Answers whose tables all give their grid. *)
Definition all_read (tables : result (list Grid)) : result (list (result Grid)) :=
  match tables with
  | Ok l => Ok (map Ok l)
  | Raise e => Raise e
  end.

Definition complete (E : Extractors) : Sources :=
  {| camelot_tables := fun p f => all_read (camelot_read_pdf E p f);
     plumber_tables := fun p => all_read (plumber_extract_tables E p);
     plumber_words := plumber_extract_words E |}.

(** What the Camelot strategy has in hand after its one or two calls. *)
Definition camelot_answer (S : Sources) (page_num : Z)
  : result (list (result Grid)) :=
  match camelot_tables S page_num Lattice with
  | Ok [] => camelot_tables S page_num Stream
  | r => r
  end.

(** The tables a strategy leaves in [results] when it does not return:
    those appended before a table raised. *)
Definition left_behind (section subsection : option string)
  (answer : result (list (result Grid))) : list ContentItem :=
  match answer with
  | Ok tables =>
      match append_tables section subsection tables [] with
      | (results, Some _) => results
      | (_, None) => []
      end
  | Raise _ => []
  end.

(** The strategy ends with [return results]. *)
Definition returns (section subsection : option string)
  (results : list ContentItem) (answer : result (list (result Grid)))
  : bool :=
  match answer with
  | Ok tables =>
      match append_tables section subsection tables results with
      | (results', None) => negb (is_nil results')
      | (_, Some _) => false
      end
  | Raise _ => false
  end.

(** The [results] list after a strategy that started with [results]. *)
Definition carried (section subsection : option string)
  (results : list ContentItem) (answer : result (list (result Grid)))
  : list ContentItem :=
  match answer with
  | Ok tables => fst (append_tables section subsection tables results)
  | Raise _ => results
  end.

(** The word source alone, as extractors that find no table. *)
Definition words_alone (S : Sources) : Extractors :=
  {| camelot_read_pdf := fun _ _ => Ok [];
     plumber_extract_tables := fun _ => Ok [];
     plumber_extract_words := plumber_words S |}.

Definition camelot_calls (S : Sources) (page_num : Z) : list Call :=
  CamelotReadPdf page_num Lattice ::
  match camelot_tables S page_num Lattice with
  | Ok [] => [CamelotReadPdf page_num Stream]
  | _ => []
  end.

Definition without_camelot (S : Sources) : Sources :=
  {| camelot_tables := fun _ _ => Ok [];
     plumber_tables := plumber_tables S;
     plumber_words := plumber_words S |}.

Definition without_plumber_tables (S : Sources) : Sources :=
  {| camelot_tables := camelot_tables S;
     plumber_tables := fun _ => Ok [];
     plumber_words := plumber_words S |}.

Definition without_words (S : Sources) : Sources :=
  {| camelot_tables := camelot_tables S;
     plumber_tables := plumber_tables S;
     plumber_words := fun _ => Ok [] |}.

End Resolver.

(** The resolver on extractors whose tables all give their grid. *)
Definition extract_tables (E : Extractors) (page_num : Z)
  (section subsection : option string) : Eff (list ContentItem) :=
  Resolver.extract_tables (Resolver.complete E) page_num section subsection.

(** ** Chart detector: [extract_charts] *)

Definition extract_charts (page : Page) (section subsection : option string)
  : list ContentItem :=
  match page_images page with
  | O => [Chart (section_or_unknown section) subsection
                "Chart (vector or non-extractable)"]
  | n => repeat (Chart (section_or_unknown section) subsection
                       "Chart image detected") n
  end.

(** ** Page assembler: [parse_pdf] *)

Record PageOut : Type := {
  page_number : Z;
  content : list ContentItem
}.

(** The state of the loop over the pages. *)
Record Assembler : Type := {
  pages_output : list PageOut;
  doc_section : option string;
  doc_subsection : option string
}.

(** The result of a computation run from an empty call log. *)
Definition run {A : Type} (m : Eff A) : result A := fst (m []).

Definition assemble_page (E : Extractors) (st : Assembler)
  (numbered : Z * Page) : result Assembler :=
  let '(page_num, page) := numbered in
  c <- extract_text_and_headings page (doc_section st) (doc_subsection st) ;;
  tables <- run (extract_tables E page_num (last_section c)
                                (last_subsection c)) ;;
  let charts := extract_charts page (last_section c) (last_subsection c) in
  Ok {| pages_output :=
          pages_output st ++
          [{| page_number := page_num;
              content := paragraphs c ++ tables ++ charts |}];
        doc_section := last_section c;
        doc_subsection := last_subsection c |}.

(** [enumerate(doc, start)] *)
Fixpoint enumerate {A : Type} (l : list A) (start : Z) : list (Z * A) :=
  match l with
  | [] => []
  | x :: l' => (start, x) :: enumerate l' (start + 1)
  end.

Definition initial_assembler : Assembler :=
  {| pages_output := []; doc_section := None; doc_subsection := None |}.

Definition parse_pdf (E : Extractors) (doc : list Page)
  : result (list PageOut) :=
  st <- for_each (assemble_page E) (enumerate doc 1) initial_assembler ;;
  Ok (pages_output st).

(** ** Vocabulary of the statements *)

(** A block that is neither kind of heading: the third branch of the
    classifier loop. *)
Definition is_plain (b : TextBlock) : bool :=
  negb (is_section_heading b) && negb (subsection_test b).

(** A word the table builder skips. *)
Definition is_blank_word (w : Word) : bool :=
  PyStr.is_empty (PyStr.strip (get_default (word_text w) "")).

(** The cells of a row: each word's text in turn, preceded by one empty
    cell when the computed difference of its [x0] and the previous word's,
    [x - last_x] as a float, is above [col_gap]. *)
Fixpoint cells_after (col_gap last_x : Q) (row_words : list (Q * string))
  : list string :=
  match row_words with
  | [] => []
  | (x, txt) :: rest =>
      (if Qltb col_gap (float_sub x last_x) then [""] else [])
      ++ txt :: cells_after col_gap x rest
  end.

Definition row_cells (col_gap : Q) (row_words : list (Q * string))
  : list string :=
  match row_words with
  | [] => []
  | (x, txt) :: rest => txt :: cells_after col_gap x rest
  end.

(** The number of neighbours whose computed distance is above [col_gap]. *)
Fixpoint wide_gaps (col_gap last_x : Q) (row_words : list (Q * string)) : nat :=
  match row_words with
  | [] => O
  | (x, _) :: rest =>
      (if Qltb col_gap (float_sub x last_x) then 1 else 0)%nat
      + wide_gaps col_gap x rest
  end.

(** The word [w] contributes the pair [(x, txt)] to its row. *)
Definition word_entry (w : Word) (x : Q) (txt : string) : Prop :=
  word_x0 w = Some x /\ txt = PyStr.strip (get_default (word_text w) "")
  /\ txt <> "".

(** What the Camelot strategy has in hand after its one or two calls. *)
Definition camelot_outcome (E : Extractors) (page_num : Z)
  : result (list Grid) :=
  match camelot_read_pdf E page_num Lattice with
  | Ok [] => camelot_read_pdf E page_num Stream
  | r => r
  end.

(** The table items a structured strategy yields from an extractor's
    answer: none when it raised. *)
Definition structured_items (section subsection : option string)
  (outcome : result (list Grid)) : list ContentItem :=
  match outcome with
  | Ok tables => fold_left (append_table section subsection) tables []
  | Raise _ => []
  end.

(** An extractor set whose Camelot, pdfplumber-table or word source is
    replaced by one that finds nothing. *)
Definition without_camelot (E : Extractors) : Extractors :=
  {| camelot_read_pdf := fun _ _ => Ok [];
     plumber_extract_tables := plumber_extract_tables E;
     plumber_extract_words := plumber_extract_words E |}.

Definition without_plumber_tables (E : Extractors) : Extractors :=
  {| camelot_read_pdf := camelot_read_pdf E;
     plumber_extract_tables := fun _ => Ok [];
     plumber_extract_words := plumber_extract_words E |}.

Definition without_words (E : Extractors) : Extractors :=
  {| camelot_read_pdf := camelot_read_pdf E;
     plumber_extract_tables := plumber_extract_tables E;
     plumber_extract_words := fun _ => Ok [] |}.

Definition raises {A : Type} (r : result A) : Prop :=
  exists e, r = Raise e.

(** The calls of the Camelot strategy: stream mode is tried exactly when
    lattice mode returned no table. *)
Definition camelot_calls (E : Extractors) (page_num : Z) : list Call :=
  CamelotReadPdf page_num Lattice ::
  match camelot_read_pdf E page_num Lattice with
  | Ok [] => [CamelotReadPdf page_num Stream]
  | _ => []
  end.

(** The calls of the word-clustering strategy: the builder runs when the
    word source answered. *)
Definition word_calls (E : Extractors) (page_num : Z) : list Call :=
  PlumberExtractWords page_num ::
  match plumber_extract_words E page_num with
  | Ok _ => [BuildTableFromWords]
  | Raise _ => []
  end.

(** The table the word-clustering strategy reconstructs: none when the word
    source or the builder raised. *)
Definition word_table (E : Extractors) (page_num : Z) : list (list string) :=
  match plumber_extract_words E page_num with
  | Ok words =>
      match build_table_from_words words default_y_tolerance default_col_gap with
      | Ok table => table
      | Raise _ => []
      end
  | Raise _ => []
  end.

Definition word_items (E : Extractors) (page_num : Z)
  (section subsection : option string) : list ContentItem :=
  if is_nil (word_table E page_num) then []
  else [Table (section_or_unknown section) subsection
              (Some "Reconstructed from word positions")
              (sanitize_table (grid_of_strings (word_table E page_num)))].


(** The sanitised value [out] of the source cell [cell]. *)
Definition sanitized_from (cell : Cell) (out : string) : Prop :=
  (cell = CNone -> out = "")
  /\ (forall s, cell = CObj s -> out = PyStr.strip s)
  /\ PyStr.is_trimmed out = true.


(** The pair [(x, txt)] is that of a word of [words] whose top has the row
    key [y]. *)
Definition word_in_row (words : list Word) (y_tolerance y : Z)
  (entry : Q * string) : Prop :=
  exists w top,
    In w words /\ word_entry w (fst entry) (snd entry)
    /\ word_top w = Some top /\ row_key top y_tolerance = Ok y.

(** The number of wide gaps in a row. *)
Definition row_gaps (col_gap : Q) (row_words : list (Q * string)) : nat :=
  match row_words with
  | [] => O
  | (x, _) :: rest => wide_gaps col_gap x rest
  end.

Definition not_empty (s : string) : bool := negb (PyStr.is_empty s).

(** Two tops less than [y_tolerance] apart, by a margin of half the last
    place of each of the two quotients. *)
Definition tops_close (y_tolerance : Z) (t1 t2 : Q) : Prop :=
  (2 * (t1 - t2)
   < int_to_float y_tolerance
     * (2 - ulp (t1 / int_to_float y_tolerance)
          - ulp (t2 / int_to_float y_tolerance)))%Q
  /\ (2 * (t2 - t1)
      < int_to_float y_tolerance
        * (2 - ulp (t1 / int_to_float y_tolerance)
             - ulp (t2 / int_to_float y_tolerance)))%Q.

(** Two texts in one row of a table, and in two rows of which the second
    comes right after the first. *)
Definition in_one_row (table : list (list string)) (s1 s2 : string) : Prop :=
  exists row, In row table /\ In s1 row /\ In s2 row.

Definition in_rows_after (table : list (list string)) (s1 s2 : string)
  : Prop :=
  exists pre row1 row2 post,
    table = pre ++ row1 :: row2 :: post /\ In s1 row1 /\ In s2 row2.

(** ** Sample inputs *)

Module Sample.

Definition span_of (t : string) (size : Q) (flags : Z) : Span :=
  {| span_text := Some t; span_size := Some size; span_flags := Some flags |}.

(** A one-span block whose bounding box starts at [(x, y)]. *)
Definition block_at (t : string) (size : Q) (flags : Z) (x y : Q) : Block :=
  {| block_lines := Some [ {| line_spans := Some [span_of t size flags] |} ];
     block_bbox := Some (x, y, x + 100, y + 12)%Q |}.

(** The same block without its ["bbox"] key. *)
Definition block_without_bbox (t : string) (size : Q) (flags : Z) : Block :=
  {| block_lines := Some [ {| line_spans := Some [span_of t size flags] |} ];
     block_bbox := None |}.

Definition page_of (blocks : list Block) : Page :=
  {| page_blocks := Some blocks; page_images := 0 |}.

Definition word_at (t : string) (x top : Q) : Word :=
  {| word_text := Some t; word_x0 := Some x; word_top := Some top |}.

Definition text_block (t : string) (size : Q) (bold : bool) : TextBlock :=
  {| text := t; bbox := Some (0, 0, 100, 12)%Q;
     largest_font := size; is_bold := bold |}.

Definition title : TextBlock := text_block "Intro" 18 false.
Definition body : TextBlock := text_block "Hello world." 11 false.
Definition subtitle : TextBlock := text_block "Scope" 11 true.
Definition bold_body : TextBlock :=
  text_block "A second paragraph of body text." 10 true.

Definition start (section subsection : option string) : Classifier :=
  {| paragraphs := []; last_section := section;
     last_subsection := subsection |}.

(** A heading and a body-size block with the same text. *)
Definition repeated_title_page : Page :=
  page_of [block_at "Intro" 18 0 0 0; block_at "Intro" 11 0 0 20].

Definition missing_bbox_page : Page :=
  page_of [block_without_bbox "Hello world." 11 0].

(** A block whose span has no ["size"] key. *)
Definition missing_size_page : Page :=
  page_of [ {| block_lines :=
                 Some [ {| line_spans :=
                             Some [ {| span_text := Some "Hello world.";
                                       span_size := None;
                                       span_flags := Some 0%Z |} ] |} ];
               block_bbox := Some (0, 0, 100, 12)%Q |} ].




(** Every structured source raises; the words give one row. *)
Definition words_only : Extractors :=
  {| camelot_read_pdf := fun _ _ => Raise ExternalError;
     plumber_extract_tables := fun _ => Raise ExternalError;
     plumber_extract_words :=
       fun _ => Ok [word_at "Total" 0 99; word_at "42" 60 100] |}.

(** Every source raises. *)
Definition all_raise : Extractors :=
  {| camelot_read_pdf := fun _ _ => Raise ExternalError;
     plumber_extract_tables := fun _ => Raise ExternalError;
     plumber_extract_words := fun _ => Raise ExternalError |}.

(** Two words whose tops are 2.25 apart. *)
Definition close_words : list Word :=
  [word_at "a" 0 0; word_at "b" 10 (9 # 4)].

(** Three words of one row at x0 = 0, 10 and 50. *)
Definition gap_words : list Word :=
  [word_at "a" 0 0; word_at "b" 10 0; word_at "c" 50 0].

(** Two words of one row at the floats nearest to 0.1 and 20.1: their
    exact distance is above 20, the computed one is 20. *)
Definition float_gap_words : list Word :=
  [word_at "a" (3602879701896397 # 36028797018963968) 0;
   word_at "b" (2828823515942093 # 140737488355328) 0].

(** Words around a blank one, on two lines. *)
Definition mixed_words : list Word :=
  [word_at "Total" 0 99; word_at "  " 30 99; word_at "42" 60 100;
   word_at "Tax" 0 112].

(** Lattice mode gives two tables, the second of which raises when it is
    read; pdfplumber gives one table. *)
Definition second_table_raises : Resolver.Sources :=
  {| Resolver.camelot_tables :=
       fun _ flavor =>
         match flavor with
         | Lattice => Ok [Ok [[CObj "a"]]; Raise ExternalError]
         | Stream => Ok []
         end;
     Resolver.plumber_tables := fun _ => Ok [Ok [[CObj "b"]]];
     Resolver.plumber_words := fun _ => Ok [] |}.

(** The same, with a pdfplumber that raises and two words on the page. *)
Definition second_table_raises_words : Resolver.Sources :=
  {| Resolver.camelot_tables :=
       fun _ flavor =>
         match flavor with
         | Lattice => Ok [Ok [[CObj "a"]]; Raise ExternalError]
         | Stream => Ok []
         end;
     Resolver.plumber_tables := fun _ => Raise ExternalError;
     Resolver.plumber_words :=
       fun _ => Ok [word_at "Total" 0 99; word_at "42" 60 100] |}.

Definition every_call_raises : Resolver.Sources :=
  {| Resolver.camelot_tables := fun _ _ => Raise ExternalError;
     Resolver.plumber_tables := fun _ => Raise ExternalError;
     Resolver.plumber_words := fun _ => Raise ExternalError |}.

End Sample.

(** ** Further vocabulary *)

Definition is_table (i : ContentItem) : bool :=
  match i with Table _ _ _ _ => true | _ => false end.

Definition is_chart (i : ContentItem) : bool :=
  match i with Chart _ _ _ => true | _ => false end.

(** Either kind of heading. *)
Definition is_heading (b : TextBlock) : bool :=
  is_section_heading b || subsection_test b.

(** The section label after [blocks]: the text of the last section heading
    among them, else the label before them. *)
Definition final_section (blocks : list TextBlock) (before : option string)
  : option string :=
  match find is_section_heading (rev blocks) with
  | Some b => Some (text b)
  | None => before
  end.

(** The sub-section label after [blocks]: decided by the last heading among
    them, cleared by a section heading and set by a sub-section heading. *)
Definition final_subsection (blocks : list TextBlock) (before : option string)
  : option string :=
  match find is_heading (rev blocks) with
  | Some b => if is_section_heading b then None else Some (text b)
  | None => before
  end.

(** Block [a] may stand before block [b] in reading order: higher on the
    page, or level with it and not to its right. *)
Definition reading_before (a b : TextBlock) : Prop :=
  match bbox a, bbox b with
  | Some (xa, ya, _, _), Some (xb, yb, _, _) =>
      (ya < yb)%Q \/ ((ya == yb)%Q /\ (xa <= xb)%Q)
  | _, _ => False
  end.

(** The text a kept word contributes. *)
Definition word_cell (w : Word) : string :=
  PyStr.strip (get_default (word_text w) "").


Definition has_text_blocks (page : Page) : Prop :=
  exists blocks, text_blocks page = Ok blocks.

Module More.

Definition heading_last_page : Page :=
  {| page_blocks :=
       Some [Sample.block_at "Body text of the first page." 11 0 0 0;
             Sample.block_at "Results" 18 0 0 700];
     page_images := 2 |}.

Definition two_pages : list Page :=
  [ Sample.page_of [Sample.block_at "Intro" 18 0 0 0;
                    Sample.block_at "Hello world." 11 0 0 20];
    Sample.page_of [Sample.block_at "Second page body." 11 0 0 0] ].

Definition shuffled_page : Page :=
  Sample.page_of [Sample.block_at "right" 11 0 200 50;
                  Sample.block_at "bottom" 11 0 0 300;
                  Sample.block_at "left" 11 0 10 50;
                  Sample.block_at "top" 11 0 40 0].






End More.

(** A span with its three keys, and a block whose spans all have them and
    that has a bounding box. *)
Definition complete_span (s : Span) : Prop :=
  span_text s <> None /\ span_size s <> None /\ span_flags s <> None.

Definition well_formed_block (b : Block) : Prop :=
  block_bbox b <> None
  /\ Forall (fun l => Forall complete_span (get_default (line_spans l) []))
            (get_default (block_lines b) []).

(** The paragraphs of an output page. *)
Definition page_paragraphs (po : PageOut) : list ContentItem :=
  filter is_paragraph (content po).

(** The spans of a block, line after line. *)
Definition block_spans (b : Block) : list Span :=
  flat_map (fun l => get_default (line_spans l) [])
           (get_default (block_lines b) []).

Definition no_empty_label (s : option string) : Prop := s <> Some "".


(** * Properties *)

(** ** The error monad and its loops *)

Lemma bind_ok {A B : Type} (m : result A) (k : A -> result B) (b : B) :
  bind m k = Ok b -> exists a, m = Ok a /\ k a = Ok b.
Proof.
  destruct m as [a | e]; simpl; intros H; [eauto | discriminate].
Qed.

Lemma for_each_app {A S : Type} (step : S -> A -> result S) (l1 l2 : list A)
  (acc : S) :
  for_each step (l1 ++ l2) acc =
  bind (for_each step l1 acc) (for_each step l2).
Proof.
  revert acc; induction l1 as [| x l1 IH]; intros acc; simpl; [reflexivity |].
  destruct (step acc x); simpl; auto.
Qed.

(** An invariant of the accumulator is kept by a loop that ends normally. *)
Lemma for_each_invariant {A S : Type} (step : S -> A -> result S)
  (P : S -> Prop) (l : list A) :
  (forall acc x acc', In x l -> P acc -> step acc x = Ok acc' -> P acc') ->
  forall acc r, P acc -> for_each step l acc = Ok r -> P r.
Proof.
  induction l as [| x l IH]; intros Hstep acc r HP Hrun; simpl in Hrun.
  - injection Hrun as <-; exact HP.
  - apply bind_ok in Hrun as (acc' & Hx & Hrest).
    apply (IH (fun a y a' Hy => Hstep a y a' (or_intror Hy)) acc' r); auto.
    apply (Hstep acc x acc'); simpl; auto.
Qed.

(** ** Strings *)

Module PyStrFacts.
Import PyStr.

Lemma lstrip_head (s : string) (c : ascii) (r : string) :
  lstrip s = String c r -> is_space c = false.
Proof.
  induction s as [| a s IH]; simpl; [discriminate |].
  destruct (is_space a) eqn:Ha; [exact IH |].
  intros H; injection H as <- _; exact Ha.
Qed.

Lemma rstrip_head (c : ascii) (s : string) :
  is_space c = false -> exists r, rstrip (String c s) = String c r.
Proof.
  intros Hc; simpl. destruct (rstrip s); [rewrite Hc |]; eauto.
Qed.

Lemma rstrip_last (s : string) (c : ascii) (r : string) :
  rstrip s = String c r -> is_space (last_char c r) = false.
Proof.
  revert c r; induction s as [| a s IH]; intros c r; simpl; [discriminate |].
  destruct (rstrip s) as [| b t] eqn:Hs.
  - destruct (is_space a) eqn:Ha; [discriminate |].
    intros H; injection H as <- <-; exact Ha.
  - intros H; injection H as <- <-; simpl. apply IH; reflexivity.
Qed.

(** [strip] leaves no whitespace at either end. *)
Lemma strip_trimmed (s : string) : is_trimmed (strip s) = true.
Proof.
  unfold strip. destruct (lstrip s) as [| c t] eqn:Hl; [reflexivity |].
  pose proof (lstrip_head _ _ _ Hl) as Hc.
  destruct (rstrip_head c t Hc) as [r Hr]. rewrite Hr; simpl.
  rewrite Hc, (rstrip_last _ _ _ Hr); reflexivity.
Qed.

Lemma is_empty_true (s : string) : is_empty s = true <-> s = "".
Proof. destruct s; simpl; split; congruence. Qed.

Lemma is_empty_false (s : string) : is_empty s = false <-> s <> "".
Proof. destruct s; simpl; split; congruence. Qed.

End PyStrFacts.

(** ** Rational comparisons *)

Lemma Qltb_lt (x y : Q) : Qltb x y = true <-> (x < y)%Q.
Proof.
  unfold Qltb. rewrite negb_true_iff, <- not_true_iff_false, Qle_bool_iff.
  split; [apply Qnot_le_lt | apply Qlt_not_le].
Qed.

Lemma Qltb_ge (x y : Q) : Qltb x y = false <-> (y <= x)%Q.
Proof.
  unfold Qltb. rewrite negb_false_iff. apply Qle_bool_iff.
Qed.

(** ** The heading classifier *)

Lemma section_heading_iff (b : TextBlock) :
  is_section_heading b = true <->
  (16 <= largest_font b)%Q \/ ((14 <= largest_font b)%Q /\ is_bold b = true).
Proof.
  unfold is_section_heading.
  rewrite orb_true_iff, andb_true_iff, !Qle_bool_iff. reflexivity.
Qed.

Lemma subsection_test_iff (b : TextBlock) :
  subsection_test b = true <->
  ((13 <= largest_font b)%Q /\ (largest_font b < 16)%Q)
  \/ ((23 # 2 <= largest_font b)%Q /\ (largest_font b < 13)%Q
      /\ is_bold b = true)
  \/ ((List.length (PyStr.split (text b)) <= 4)%nat /\ is_bold b = true).
Proof.
  unfold subsection_test.
  rewrite !orb_true_iff, !andb_true_iff, !Qle_bool_iff, !Qltb_lt,
    Nat.leb_le.
  tauto.
Qed.

Lemma classify_blocks_app (l1 l2 : list TextBlock) (st : Classifier) :
  classify_blocks (l1 ++ l2) st = classify_blocks l2 (classify_blocks l1 st).
Proof. apply fold_left_app. Qed.

(** What one block adds to the paragraphs. *)
Lemma classify_block_paragraphs (st : Classifier) (b : TextBlock) :
  paragraphs (classify_block st b) =
  paragraphs st ++
  (if is_plain b
   then [Paragraph (section_or_unknown (last_section st))
                   (last_subsection st) (text b)]
   else []).
Proof.
  unfold classify_block, is_plain.
  destruct (is_section_heading b), (subsection_test b); simpl;
    rewrite ?app_nil_r; reflexivity.
Qed.

(** The texts of the paragraphs are those of the plain blocks, in order. *)
Lemma classify_blocks_texts (l : list TextBlock) (st : Classifier) :
  map item_text (paragraphs (classify_blocks l st)) =
  map item_text (paragraphs st)
  ++ map (fun b => Some (text b)) (filter is_plain l).
Proof.
  revert st; induction l as [| b l IH]; intros st; simpl.
  - rewrite app_nil_r; reflexivity.
  - unfold classify_blocks in *; simpl. rewrite IH, classify_block_paragraphs.
    destruct (is_plain b); simpl.
    + rewrite map_app, <- app_assoc; reflexivity.
    + rewrite app_nil_r; reflexivity.
Qed.

Lemma not_self_extended {A : Type} (l : list A) (x : A) : l ++ [x] <> l.
Proof.
  intros H. apply (f_equal (@List.length A)) in H.
  rewrite length_app in H; simpl in H; lia.
Qed.

(** The effect of a section heading is that of no other block. *)
Lemma section_effect_iff (st : Classifier) (b : TextBlock) :
  classify_block st b =
  {| paragraphs := paragraphs st;
     last_section := Some (text b);
     last_subsection := None |}
  <-> is_section_heading b = true.
Proof.
  unfold classify_block.
  destruct (is_section_heading b); [tauto |].
  destruct (subsection_test b); split; try discriminate; intros H.
  apply (f_equal paragraphs) in H; simpl in H.
  now apply not_self_extended in H.
Qed.

Lemma subsection_effect_iff (st : Classifier) (b : TextBlock) :
  classify_block st b =
  {| paragraphs := paragraphs st;
     last_section := last_section st;
     last_subsection := Some (text b) |}
  <-> is_section_heading b = false /\ subsection_test b = true.
Proof.
  unfold classify_block.
  destruct (is_section_heading b).
  - split; [| intros [? _]; discriminate].
    intros H; apply (f_equal last_subsection) in H; simpl in H; discriminate.
  - destruct (subsection_test b); [tauto |].
    split; [| intros [_ ?]; discriminate].
    intros H; apply (f_equal paragraphs) in H; simpl in H.
    now apply not_self_extended in H.
Qed.

Lemma plain_keeps_state (blocks : list TextBlock) (st : Classifier) :
  Forall (fun b => is_plain b = true) blocks ->
  last_section (classify_blocks blocks st) = last_section st
  /\ last_subsection (classify_blocks blocks st) = last_subsection st.
Proof.
  intros H; revert st; induction H as [| b l Hb _ IH]; intros st;
    [now split |].
  unfold classify_blocks in *; simpl.
  destruct (IH (classify_block st b)) as [-> ->].
  unfold is_plain in Hb; apply andb_true_iff in Hb as [H1 H2].
  apply negb_true_iff in H1, H2.
  unfold classify_block; rewrite H1, H2; now split.
Qed.

Lemma no_section_heading_keeps_section (blocks : list TextBlock)
  (st : Classifier) :
  Forall (fun b => is_section_heading b = false) blocks ->
  last_section (classify_blocks blocks st) = last_section st.
Proof.
  intros H; revert st; induction H as [| b l Hb _ IH]; intros st;
    [reflexivity |].
  unfold classify_blocks in *; simpl. rewrite IH.
  unfold classify_block; rewrite Hb.
  destruct (subsection_test b); reflexivity.
Qed.

(** C1 (as amended). A block is handled as a section heading (the section
    becomes its text, the sub-section is cleared, nothing is emitted)
    exactly when its largest font is at least 16, or at least 14 with a
    bold span.  Such a block adds no paragraph: the texts emitted are those
    of the blocks around it, so a paragraph carries its text only when a
    plain block with the same text is on the page. *)
Theorem section_heading_consumed (b : TextBlock) :
  (forall st,
      classify_block st b =
      {| paragraphs := paragraphs st;
         last_section := Some (text b);
         last_subsection := None |}
      <-> (16 <= largest_font b)%Q
          \/ ((14 <= largest_font b)%Q /\ is_bold b = true))
  /\ ((16 <= largest_font b)%Q
      \/ ((14 <= largest_font b)%Q /\ is_bold b = true) ->
      forall st pre post,
        let mid := classify_blocks (pre ++ [b]) st in
        let out := classify_blocks (pre ++ b :: post) st in
        last_section mid = Some (text b)
        /\ last_subsection mid = None
        /\ paragraphs mid = paragraphs (classify_blocks pre st)
        /\ map item_text (paragraphs out) =
           map item_text (paragraphs st)
           ++ map (fun b' => Some (text b')) (filter is_plain (pre ++ post))
        /\ (Forall (fun i => item_text i <> Some (text b)) (paragraphs st) ->
            Forall (fun b' => is_plain b' = true -> text b' <> text b)
                   (pre ++ post) ->
            Forall (fun i => item_text i <> Some (text b)) (paragraphs out))).
Proof.
  split.
  - intros st. rewrite section_effect_iff. apply section_heading_iff.
  - intros Hb st pre post mid out. apply section_heading_iff in Hb.
    assert (Hmid : mid = {| paragraphs := paragraphs (classify_blocks pre st);
                            last_section := Some (text b);
                            last_subsection := None |}).
    { unfold mid. rewrite classify_blocks_app. unfold classify_blocks at 1.
      simpl. apply section_effect_iff, Hb. }
    assert (Hplain : is_plain b = false) by (unfold is_plain; now rewrite Hb).
    assert (Htexts : map item_text (paragraphs out) =
                     map item_text (paragraphs st)
                     ++ map (fun b' => Some (text b'))
                            (filter is_plain (pre ++ post))).
    { unfold out. rewrite classify_blocks_texts, !filter_app. simpl.
      rewrite Hplain. reflexivity. }
    rewrite Hmid; simpl. repeat split; auto.
    rewrite !Forall_forall. intros Hst Hother i Hi Htxt.
    apply (in_map item_text) in Hi. rewrite Htexts, Htxt in Hi.
    apply in_app_or in Hi as [Hi | Hi].
    + apply in_map_iff in Hi as (j & Hj & Hin). now apply (Hst j).
    + apply in_map_iff in Hi as (b' & Hb' & Hin).
      apply filter_In in Hin as [Hin Hp].
      apply (Hother b' Hin Hp). congruence.
Qed.

Lemma section_heading_consumed_witness :
  last_section (classify_blocks ([Sample.body] ++ [Sample.title])
                                (Sample.start None None)) = Some "Intro"
  /\ Forall (fun i => item_text i <> Some "Intro")
            (paragraphs (classify_blocks
                           ([Sample.body] ++ Sample.title :: [Sample.body])
                           (Sample.start None None))).
Proof.
  assert (H : (16 <= largest_font Sample.title)%Q
              \/ ((14 <= largest_font Sample.title)%Q
                  /\ is_bold Sample.title = true))
    by (left; vm_compute; discriminate).
  pose proof (proj2 (section_heading_consumed Sample.title) H
                (Sample.start None None) [Sample.body] [Sample.body])
    as (H1 & _ & _ & _ & H5).
  split; [exact H1 |]. apply H5.
  - constructor.
  - repeat constructor; intros _; vm_compute; discriminate.
Defined.

(** The page of C1's refutation: a title block of size 18 and a body block
    of size 11 carry the same text; the title is consumed as a section
    heading, yet a paragraph of the output carries its text. *)
Lemma repeated_title_emitted :
  text_blocks Sample.repeated_title_page
  = Ok [ {| text := "Intro"; bbox := Some (0, 0, 0 + 100, 0 + 12)%Q;
            largest_font := 18; is_bold := false |};
         {| text := "Intro"; bbox := Some (0, 20, 0 + 100, 20 + 12)%Q;
            largest_font := 11; is_bold := false |} ]
  /\ is_section_heading
       {| text := "Intro"; bbox := Some (0, 0, 0 + 100, 0 + 12)%Q;
          largest_font := 18; is_bold := false |} = true
  /\ extract_text_and_headings Sample.repeated_title_page None None
     = Ok {| paragraphs := [Paragraph "Intro" None "Intro"];
             last_section := Some "Intro";
             last_subsection := None |}
  /\ item_text (Paragraph "Intro" None "Intro") = Some "Intro".
Proof. repeat split. Qed.

Lemma classify_blocks_step (pre : list TextBlock) (b : TextBlock)
  (st : Classifier) :
  classify_blocks (pre ++ [b]) st = classify_block (classify_blocks pre st) b.
Proof. now rewrite classify_blocks_app. Qed.

Lemma classify_blocks_after (pre mid : list TextBlock) (b : TextBlock)
  (st : Classifier) :
  classify_blocks (pre ++ b :: mid) st
  = classify_blocks mid (classify_block (classify_blocks pre st) b).
Proof. now rewrite classify_blocks_app. Qed.

(** C2. The loop runs the blocks of any sequence one after the other, each
    on the labels the blocks before it left.  A block is handled as a
    sub-section heading (the sub-section becomes its text, the section
    stays, nothing is emitted) exactly when it is not a section heading and
    its largest font is in [13, 16), or in [11.5, 13) with a bold span, or
    it has at most four words and a bold span.  After a section heading
    anywhere in a sequence the section is its text until the next section
    heading and the sub-section is absent until the next heading; after a
    sub-section heading the sub-section is its text until the next heading;
    paragraph blocks change neither label; the labels a page ends with are
    those the next page starts with. *)
Theorem heading_state_persists :
  (forall st b,
      classify_block st b =
      {| paragraphs := paragraphs st;
         last_section := last_section st;
         last_subsection := Some (text b) |}
      <-> ~ ((16 <= largest_font b)%Q
             \/ ((14 <= largest_font b)%Q /\ is_bold b = true))
          /\ (((13 <= largest_font b)%Q /\ (largest_font b < 16)%Q)
              \/ ((23 # 2 <= largest_font b)%Q /\ (largest_font b < 13)%Q
                  /\ is_bold b = true)
              \/ ((List.length (PyStr.split (text b)) <= 4)%nat
                  /\ is_bold b = true)))
  /\ (forall st blocks,
        Forall (fun b => is_plain b = true) blocks ->
        last_section (classify_blocks blocks st) = last_section st
        /\ last_subsection (classify_blocks blocks st) = last_subsection st)
  /\ (forall st blocks,
        Forall (fun b => is_section_heading b = false) blocks ->
        last_section (classify_blocks blocks st) = last_section st)
  /\ (forall st b,
        is_section_heading b = true ->
        last_section (classify_block st b) = Some (text b)
        /\ last_subsection (classify_block st b) = None)
  /\ (forall page section subsection blocks c,
        text_blocks page = Ok blocks ->
        extract_text_and_headings page section subsection = Ok c ->
        (Forall (fun b => is_plain b = true) blocks ->
         last_section c = section /\ last_subsection c = subsection)
        /\ (Forall (fun b => is_section_heading b = false) blocks ->
            last_section c = section))
  /\ (forall E st page_num page st',
        assemble_page E st (page_num, page) = Ok st' ->
        exists c,
          extract_text_and_headings page (doc_section st) (doc_subsection st)
          = Ok c
          /\ doc_section st' = last_section c
          /\ doc_subsection st' = last_subsection c)
  /\ (forall st pre b,
        classify_blocks [] st = st
        /\ classify_blocks (pre ++ [b]) st
           = classify_block (classify_blocks pre st) b)
  /\ (forall st pre h mid,
        (16 <= largest_font h)%Q
        \/ ((14 <= largest_font h)%Q /\ is_bold h = true) ->
        (Forall (fun b => is_section_heading b = false) mid ->
         last_section (classify_blocks (pre ++ h :: mid) st)
         = Some (text h))
        /\ (Forall (fun b => is_plain b = true) mid ->
            last_subsection (classify_blocks (pre ++ h :: mid) st) = None))
  /\ (forall st pre s mid,
        ~ ((16 <= largest_font s)%Q
           \/ ((14 <= largest_font s)%Q /\ is_bold s = true)) ->
        ((13 <= largest_font s)%Q /\ (largest_font s < 16)%Q)
        \/ ((23 # 2 <= largest_font s)%Q /\ (largest_font s < 13)%Q
            /\ is_bold s = true)
        \/ ((List.length (PyStr.split (text s)) <= 4)%nat
            /\ is_bold s = true) ->
        Forall (fun b => is_plain b = true) mid ->
        last_subsection (classify_blocks (pre ++ s :: mid) st)
        = Some (text s)
        /\ last_section (classify_blocks (pre ++ s :: mid) st)
           = last_section (classify_blocks pre st))
  /\ (forall st pre mid,
        (Forall (fun b => is_plain b = true) mid ->
         last_section (classify_blocks (pre ++ mid) st)
         = last_section (classify_blocks pre st)
         /\ last_subsection (classify_blocks (pre ++ mid) st)
            = last_subsection (classify_blocks pre st))
        /\ (Forall (fun b => is_section_heading b = false) mid ->
            last_section (classify_blocks (pre ++ mid) st)
            = last_section (classify_blocks pre st)))
  /\ (forall page section subsection blocks,
        text_blocks page = Ok blocks ->
        extract_text_and_headings page section subsection
        = Ok (classify_blocks blocks
                {| paragraphs := []; last_section := section;
                   last_subsection := subsection |})).
Proof.
  repeat apply conj.
  - intros st b. rewrite subsection_effect_iff, <- section_heading_iff,
      <- subsection_test_iff, not_true_iff_false. reflexivity.
  - intros st blocks; apply plain_keeps_state.
  - intros st blocks; apply no_section_heading_keeps_section.
  - intros st b Hb. unfold classify_block; rewrite Hb; now split.
  - intros page section subsection blocks c Hblocks Hrun.
    unfold extract_text_and_headings in Hrun. rewrite Hblocks in Hrun.
    simpl in Hrun. injection Hrun as <-. split; intros H.
    + exact (plain_keeps_state blocks
               {| paragraphs := []; last_section := section;
                  last_subsection := subsection |} H).
    + exact (no_section_heading_keeps_section blocks
               {| paragraphs := []; last_section := section;
                  last_subsection := subsection |} H).
  - intros E st page_num page st' Hrun. unfold assemble_page in Hrun.
    apply bind_ok in Hrun as (c & Hc & Hrun).
    apply bind_ok in Hrun as (tables & _ & Hrun).
    injection Hrun as <-. exists c; auto.
  - intros st pre b. split; [reflexivity | apply classify_blocks_step].
  - intros st pre h mid Hh. apply section_heading_iff in Hh.
    rewrite classify_blocks_after. split; intros Hmid.
    + rewrite (no_section_heading_keeps_section mid _ Hmid).
      unfold classify_block. now rewrite Hh.
    + rewrite (proj2 (plain_keeps_state mid _ Hmid)).
      unfold classify_block. now rewrite Hh.
  - intros st pre s mid Hs Hsub Hmid.
    rewrite <- section_heading_iff, not_true_iff_false in Hs.
    apply subsection_test_iff in Hsub.
    rewrite classify_blocks_after.
    destruct (plain_keeps_state mid
                (classify_block (classify_blocks pre st) s) Hmid) as [-> ->].
    unfold classify_block. rewrite Hs, Hsub. now split.
  - intros st pre mid. rewrite classify_blocks_app. split; intros Hmid.
    + apply (plain_keeps_state mid _ Hmid).
    + apply (no_section_heading_keeps_section mid _ Hmid).
  - intros page section subsection blocks Hb.
    unfold extract_text_and_headings. now rewrite Hb.
Qed.

Lemma heading_state_persists_witness :
  (last_section (classify_blocks [Sample.body; Sample.bold_body]
                                 (Sample.start (Some "Intro") (Some "Scope")))
   = Some "Intro"
   /\ last_subsection (classify_blocks [Sample.body; Sample.bold_body]
                          (Sample.start (Some "Intro") (Some "Scope")))
      = Some "Scope")
  /\ last_section (classify_blocks [Sample.body; Sample.subtitle]
                      (Sample.start (Some "Intro") None))
     = Some "Intro"
  /\ (last_section (classify_block (Sample.start (Some "Old") (Some "Scope"))
                                   Sample.title)
      = Some "Intro"
      /\ last_subsection (classify_block
                            (Sample.start (Some "Old") (Some "Scope"))
                            Sample.title)
         = None)
  /\ last_section
       (classify_blocks
          ([Sample.subtitle; Sample.body] ++ Sample.title
           :: [Sample.body; Sample.subtitle; Sample.bold_body])
          (Sample.start (Some "Old") None))
     = Some "Intro"
  /\ last_subsection
       (classify_blocks
          ([Sample.subtitle; Sample.body] ++ Sample.title
           :: [Sample.body; Sample.bold_body])
          (Sample.start (Some "Old") None))
     = None
  /\ (last_subsection
        (classify_blocks
           ([Sample.title; Sample.body] ++ Sample.subtitle
            :: [Sample.body; Sample.bold_body])
           (Sample.start None None))
      = Some "Scope"
      /\ last_section
           (classify_blocks
              ([Sample.title; Sample.body] ++ Sample.subtitle
               :: [Sample.body; Sample.bold_body])
              (Sample.start None None))
         = last_section (classify_blocks [Sample.title; Sample.body]
                                         (Sample.start None None))).
Proof.
  destruct heading_state_persists
    as (_ & Hplain & Hsection & Hclear & _ & _ & _ & Hhead & Hsub & _).
  assert (Ht : (16 <= largest_font Sample.title)%Q
               \/ ((14 <= largest_font Sample.title)%Q
                   /\ is_bold Sample.title = true))
    by (left; vm_compute; discriminate).
  assert (Hn : ~ ((16 <= largest_font Sample.subtitle)%Q
                  \/ ((14 <= largest_font Sample.subtitle)%Q
                      /\ is_bold Sample.subtitle = true)))
    by (intros [H | [H _]]; vm_compute in H; now apply H).
  assert (Hs : ((13 <= largest_font Sample.subtitle)%Q
                /\ (largest_font Sample.subtitle < 16)%Q)
               \/ ((23 # 2 <= largest_font Sample.subtitle)%Q
                   /\ (largest_font Sample.subtitle < 13)%Q
                   /\ is_bold Sample.subtitle = true)
               \/ ((List.length (PyStr.split (text Sample.subtitle)) <= 4)%nat
                   /\ is_bold Sample.subtitle = true))
    by (right; right; split; [vm_compute; lia | reflexivity]).
  refine (conj (Hplain (Sample.start (Some "Intro") (Some "Scope"))
                       [Sample.body; Sample.bold_body] _)
            (conj (Hsection (Sample.start (Some "Intro") None)
                            [Sample.body; Sample.subtitle] _)
               (conj (Hclear (Sample.start (Some "Old") (Some "Scope"))
                             Sample.title _)
                  (conj (proj1 (Hhead (Sample.start (Some "Old") None)
                                  [Sample.subtitle; Sample.body] Sample.title
                                  [Sample.body; Sample.subtitle;
                                   Sample.bold_body] Ht) _)
                     (conj (proj2 (Hhead (Sample.start (Some "Old") None)
                                     [Sample.subtitle; Sample.body]
                                     Sample.title
                                     [Sample.body; Sample.bold_body] Ht) _)
                        (Hsub (Sample.start None None)
                              [Sample.title; Sample.body] Sample.subtitle
                              [Sample.body; Sample.bold_body] Hn Hs _))))));
    try reflexivity; repeat constructor.
Defined.

(** C7. A block that has a text but no bounding box stops the page with a
    [TypeError] raised by the sort key, and a span without a font size stops
    it with a [KeyError]; either stops the whole conversion, whatever the
    table extractors do.  The block is neither skipped nor emitted as a
    paragraph. *)
Theorem missing_bbox_raises (E : Extractors) :
  for_each enrich_step
           (get_default (page_blocks Sample.missing_bbox_page) []) []
  = Ok [ {| text := "Hello world."; bbox := None;
            largest_font := 11; is_bold := false |} ]
  /\ extract_text_and_headings Sample.missing_bbox_page None None
     = Raise TypeError
  /\ parse_pdf E [Sample.missing_bbox_page] = Raise TypeError
  /\ extract_text_and_headings Sample.missing_size_page None None
     = Raise (KeyError "size")
  /\ parse_pdf E [Sample.missing_size_page] = Raise (KeyError "size").
Proof. repeat split. Qed.

(** ** The table resolver, unfolded *)

Lemma is_nil_true {A : Type} (l : list A) : is_nil l = true <-> l = [].
Proof. destruct l; simpl; split; congruence. Qed.


(** The resolver with tables that can raise when read. *)

Lemma resolver_append_tables_app (section subsection : option string)
  (tables : list (result Grid)) (results : list ContentItem) :
  Resolver.append_tables section subsection tables results
  = (results ++ fst (Resolver.append_tables section subsection tables []),
     snd (Resolver.append_tables section subsection tables [])).
Proof.
  revert results. induction tables as [| [t | e] tables IH]; intros results.
  - simpl. now rewrite app_nil_r.
  - cbn [Resolver.append_tables]. rewrite IH.
    rewrite (IH (append_table section subsection [] t)).
    cbn [fst snd]. unfold append_table.
    destruct (is_nil (sanitize_table t)); cbn [app];
      rewrite <- ?app_assoc, ?app_nil_r; reflexivity.
  - simpl. now rewrite app_nil_r.
Qed.

Lemma resolver_append_all_read (section subsection : option string)
  (tables : list Grid) (results : list ContentItem) :
  Resolver.append_tables section subsection (map Ok tables) results
  = (fold_left (append_table section subsection) tables results, None).
Proof.
  revert results; induction tables as [| t tables IH]; intros results;
    simpl; [reflexivity | apply IH].
Qed.

Lemma resolver_after_loop (section subsection : option string)
  (tables : list (result Grid)) (results : list ContentItem) :
  Resolver.after_loop (Resolver.append_tables section subsection tables results)
  = if Resolver.returns section subsection results (Ok tables)
    then Return (Resolver.carried section subsection results (Ok tables))
    else Next (Resolver.carried section subsection results (Ok tables)).
Proof.
  unfold Resolver.after_loop, Resolver.returns, Resolver.carried, return_if_any.
  destruct (Resolver.append_tables section subsection tables results)
    as [r [e |]]; cbn [fst]; [reflexivity |].
  destruct (is_nil r); reflexivity.
Qed.

Lemma resolver_try_camelot_eq (S : Resolver.Sources) (page_num : Z)
  (section subsection : option string) (results : list ContentItem)
  (log : list Call) :
  Resolver.try_camelot S page_num section subsection results log
  = (Ok (if Resolver.returns section subsection results
                           (Resolver.camelot_answer S page_num)
         then Return (Resolver.carried section subsection results
                                     (Resolver.camelot_answer S page_num))
         else Next (Resolver.carried section subsection results
                                   (Resolver.camelot_answer S page_num))),
     log ++ Resolver.camelot_calls S page_num).
Proof.
  unfold Resolver.try_camelot, Resolver.camelot_answer, Resolver.camelot_calls,
    eff_bind, try_except, call, eff_ret.
  destruct (Resolver.camelot_tables S page_num Lattice) as [[| t ts] | e1].
  - cbn [List.length Nat.eqb].
    destruct (Resolver.camelot_tables S page_num Stream) as [tables | e2].
    + rewrite resolver_after_loop, <- app_assoc. reflexivity.
    + rewrite <- app_assoc. reflexivity.
  - cbn [List.length Nat.eqb]. rewrite resolver_after_loop. reflexivity.
  - reflexivity.
Qed.

Lemma resolver_try_pdfplumber_eq (S : Resolver.Sources) (page_num : Z)
  (section subsection : option string) (results : list ContentItem)
  (log : list Call) :
  Resolver.try_pdfplumber S page_num section subsection results log
  = (Ok (if Resolver.returns section subsection results
                           (Resolver.plumber_tables S page_num)
         then Return (Resolver.carried section subsection results
                                     (Resolver.plumber_tables S page_num))
         else Next (Resolver.carried section subsection results
                                   (Resolver.plumber_tables S page_num))),
     log ++ [PlumberExtractTables page_num]).
Proof.
  unfold Resolver.try_pdfplumber, eff_bind, try_except, call, eff_ret.
  destruct (Resolver.plumber_tables S page_num) as [ptables | e].
  - rewrite resolver_after_loop. reflexivity.
  - reflexivity.
Qed.

Lemma resolver_try_words_eq (S : Resolver.Sources) (page_num : Z)
  (section subsection : option string) (results : list ContentItem)
  (log : list Call) :
  Resolver.try_words S page_num section subsection results log
  = (Ok (results ++ word_items (Resolver.words_alone S) page_num
                               section subsection),
     log ++ word_calls (Resolver.words_alone S) page_num).
Proof.
  unfold Resolver.try_words, word_items, word_calls, word_table,
    eff_bind, try_except, call, eff_ret.
  cbn [Resolver.words_alone plumber_extract_words].
  destruct (Resolver.plumber_words S page_num) as [words | e].
  - destruct (build_table_from_words words default_y_tolerance
                                     default_col_gap) as [table | e].
    + destruct (is_nil table); rewrite <- app_assoc, ?app_nil_r; reflexivity.
    + cbn [is_nil]. rewrite <- app_assoc, app_nil_r. reflexivity.
  - cbn [is_nil]. rewrite app_nil_r. reflexivity.
Qed.

(** One run of the resolver on such sources. *)
Lemma resolver_extract_tables_eq (S : Resolver.Sources) (page_num : Z)
  (section subsection : option string) (log : list Call) :
  Resolver.extract_tables S page_num section subsection log =
  let c := Resolver.camelot_answer S page_num in
  let p := Resolver.plumber_tables S page_num in
  let r1 := Resolver.carried section subsection [] c in
  let r2 := Resolver.carried section subsection r1 p in
  if Resolver.returns section subsection [] c
  then (Ok r1, log ++ Resolver.camelot_calls S page_num)
  else if Resolver.returns section subsection r1 p
       then (Ok r2, log ++ Resolver.camelot_calls S page_num
                        ++ [PlumberExtractTables page_num])
       else (Ok (r2 ++ word_items (Resolver.words_alone S) page_num
                                  section subsection),
             log ++ Resolver.camelot_calls S page_num
                 ++ [PlumberExtractTables page_num]
                 ++ word_calls (Resolver.words_alone S) page_num).
Proof.
  cbv zeta. unfold Resolver.extract_tables, eff_bind.
  rewrite resolver_try_camelot_eq.
  destruct (Resolver.returns section subsection []
                           (Resolver.camelot_answer S page_num));
    [reflexivity |].
  rewrite resolver_try_pdfplumber_eq.
  destruct (Resolver.returns section subsection _
                           (Resolver.plumber_tables S page_num)).
  - unfold eff_ret. rewrite <- app_assoc. reflexivity.
  - rewrite resolver_try_words_eq. rewrite <- !app_assoc. reflexivity.
Qed.

Lemma resolver_run_extract_tables (S : Resolver.Sources) (page_num : Z)
  (section subsection : option string) :
  run (Resolver.extract_tables S page_num section subsection) =
  let c := Resolver.camelot_answer S page_num in
  let p := Resolver.plumber_tables S page_num in
  let r1 := Resolver.carried section subsection [] c in
  let r2 := Resolver.carried section subsection r1 p in
  if Resolver.returns section subsection [] c then Ok r1
  else if Resolver.returns section subsection r1 p then Ok r2
       else Ok (r2 ++ word_items (Resolver.words_alone S) page_num
                                 section subsection).
Proof.
  unfold run. rewrite resolver_extract_tables_eq. cbv zeta.
  destruct (Resolver.returns section subsection []
                           (Resolver.camelot_answer S page_num));
    [reflexivity |].
  destruct (Resolver.returns section subsection _
                           (Resolver.plumber_tables S page_num)); reflexivity.
Qed.

(** A strategy that does not return leaves in [results] what it appended
    before a table raised, after what it started with. *)
Lemma resolver_carried_left_behind (section subsection : option string)
  (results : list ContentItem) (answer : result (list (result Grid))) :
  Resolver.returns section subsection results answer = false ->
  Resolver.carried section subsection results answer
  = results ++ Resolver.left_behind section subsection answer.
Proof.
  unfold Resolver.returns, Resolver.carried, Resolver.left_behind.
  destruct answer as [tables | e]; [| now rewrite app_nil_r].
  rewrite resolver_append_tables_app.
  destruct (Resolver.append_tables section subsection tables [])
    as [x [e |]]; cbn [fst snd]; [reflexivity |].
  intros H. apply Bool.negb_false_iff, is_nil_true in H. rewrite H.
  destruct results; [| discriminate].
  destruct x; [reflexivity | discriminate].
Qed.

Lemma resolver_returns_left_behind (section subsection : option string)
  (results : list ContentItem) (answer : result (list (result Grid))) :
  Resolver.returns section subsection results answer = true ->
  Resolver.left_behind section subsection answer = [].
Proof.
  unfold Resolver.returns, Resolver.left_behind.
  destruct answer as [tables | e]; [| reflexivity].
  rewrite resolver_append_tables_app.
  destruct (Resolver.append_tables section subsection tables [])
    as [x [e |]]; cbn [fst snd]; [discriminate | reflexivity].
Qed.

Lemma resolver_carried_app (section subsection : option string)
  (results : list ContentItem) (answer : result (list (result Grid))) :
  Resolver.carried section subsection results answer
  = results ++ Resolver.carried section subsection [] answer.
Proof.
  unfold Resolver.carried. destruct answer as [tables | e];
    [| now rewrite app_nil_r].
  rewrite resolver_append_tables_app. reflexivity.
Qed.

Lemma resolver_all_read_returns (section subsection : option string)
  (outcome : result (list Grid)) :
  Resolver.returns section subsection [] (Resolver.all_read outcome)
  = negb (is_nil (structured_items section subsection outcome)).
Proof.
  destruct outcome as [tables | e]; [| reflexivity].
  unfold Resolver.returns, Resolver.all_read, structured_items.
  rewrite resolver_append_all_read. reflexivity.
Qed.

Lemma resolver_all_read_carried (section subsection : option string)
  (outcome : result (list Grid)) :
  Resolver.carried section subsection [] (Resolver.all_read outcome)
  = structured_items section subsection outcome.
Proof.
  destruct outcome as [tables | e]; [| reflexivity].
  unfold Resolver.carried, Resolver.all_read, structured_items.
  rewrite resolver_append_all_read. reflexivity.
Qed.

Lemma resolver_complete_answer (E : Extractors) (page_num : Z) :
  Resolver.camelot_answer (Resolver.complete E) page_num
  = Resolver.all_read (camelot_outcome E page_num).
Proof.
  unfold Resolver.camelot_answer, camelot_outcome, Resolver.complete.
  cbn [Resolver.camelot_tables].
  destruct (camelot_read_pdf E page_num Lattice) as [[| t ts] | e];
    reflexivity.
Qed.

Lemma resolver_complete_calls (E : Extractors) (page_num : Z) :
  Resolver.camelot_calls (Resolver.complete E) page_num
  = camelot_calls E page_num.
Proof.
  unfold Resolver.camelot_calls, camelot_calls, Resolver.complete.
  cbn [Resolver.camelot_tables].
  destruct (camelot_read_pdf E page_num Lattice) as [[| t ts] | e];
    reflexivity.
Qed.

(** On extractors whose tables all read, the shared list plays no part: one
    run gives the items of the first structured strategy that has any, else
    those of the word clustering; and the calls made. *)
Lemma extract_tables_eq (E : Extractors) (page_num : Z)
  (section subsection : option string) (log : list Call) :
  extract_tables E page_num section subsection log =
  let ci := structured_items section subsection (camelot_outcome E page_num) in
  let pi := structured_items section subsection
                             (plumber_extract_tables E page_num) in
  if negb (is_nil ci) then (Ok ci, log ++ camelot_calls E page_num)
  else if negb (is_nil pi)
       then (Ok pi, log ++ camelot_calls E page_num
                        ++ [PlumberExtractTables page_num])
       else (Ok (word_items E page_num section subsection),
             log ++ camelot_calls E page_num
                 ++ [PlumberExtractTables page_num]
                 ++ word_calls E page_num).
Proof.
  unfold extract_tables.
  rewrite resolver_extract_tables_eq. cbv zeta.
  rewrite resolver_complete_answer, resolver_complete_calls.
  rewrite resolver_all_read_returns, resolver_all_read_carried.
  destruct (is_nil (structured_items section subsection
                      (camelot_outcome E page_num))) eqn:Hc;
    cbn [negb]; [| reflexivity].
  apply is_nil_true in Hc. rewrite Hc.
  change (Resolver.plumber_tables (Resolver.complete E) page_num)
    with (Resolver.all_read (plumber_extract_tables E page_num)).
  rewrite resolver_all_read_returns, resolver_all_read_carried.
  destruct (is_nil (structured_items section subsection
                      (plumber_extract_tables E page_num))) eqn:Hp;
    cbn [negb]; [| reflexivity].
  apply is_nil_true in Hp. rewrite Hp. reflexivity.
Qed.

Lemma sanitize_table_is_nil (t : Grid) : is_nil (sanitize_table t) = is_nil t.
Proof. destruct t; reflexivity. Qed.

(** The loop over the tables of a structured extractor keeps, in order, the
    sanitised tables that have a row. *)
Lemma append_tables_eq (section subsection : option string)
  (tables : list Grid) (results : list ContentItem) :
  fold_left (append_table section subsection) tables results =
  results ++
  map (fun t => Table (section_or_unknown section) subsection None
                      (sanitize_table t))
      (filter (fun t => negb (is_nil t)) tables).
Proof.
  revert results; induction tables as [| t tables IH]; intros results; simpl.
  - now rewrite app_nil_r.
  - rewrite IH. unfold append_table. rewrite sanitize_table_is_nil.
    destruct (is_nil t); simpl; [reflexivity |].
    now rewrite <- app_assoc.
Qed.


Lemma structured_items_in (section subsection : option string)
  (outcome : result (list Grid)) (i : ContentItem) :
  In i (structured_items section subsection outcome) ->
  exists tables t,
    outcome = Ok tables /\ In t tables /\ t <> []
    /\ i = Table (section_or_unknown section) subsection None
                 (sanitize_table t).
Proof.
  destruct outcome as [tables | e]; simpl; [| tauto].
  rewrite append_tables_eq; simpl. intros H.
  apply in_map_iff in H as (t & <- & Ht).
  apply filter_In in Ht as [Hin Hne].
  exists tables, t. repeat split; auto.
  intros ->; discriminate.
Qed.

Lemma word_items_in (E : Extractors) (page_num : Z)
  (section subsection : option string) (i : ContentItem) :
  In i (word_items E page_num section subsection) ->
  word_table E page_num <> []
  /\ i = Table (section_or_unknown section) subsection
               (Some "Reconstructed from word positions")
               (sanitize_table (grid_of_strings (word_table E page_num))).
Proof.
  unfold word_items.
  destruct (word_table E page_num) eqn:Hw; simpl; [tauto |].
  intros [<- | []]. split; [discriminate | reflexivity].
Qed.






(** ** The resolver does not raise *)

Lemma structured_items_raise (section subsection : option string)
  (outcome : result (list Grid)) :
  raises outcome -> structured_items section subsection outcome = [].
Proof. intros [e ->]; reflexivity. Qed.

Lemma run_extract_tables (E : Extractors) (page_num : Z)
  (section subsection : option string) :
  run (extract_tables E page_num section subsection) =
  let ci := structured_items section subsection (camelot_outcome E page_num) in
  let pi := structured_items section subsection
                             (plumber_extract_tables E page_num) in
  if negb (is_nil ci) then Ok ci
  else if negb (is_nil pi) then Ok pi
       else Ok (word_items E page_num section subsection).
Proof.
  unfold run. rewrite extract_tables_eq. cbv zeta.
  destruct (negb (is_nil (structured_items section subsection
                            (camelot_outcome E page_num))));
    [reflexivity |].
  destruct (negb (is_nil (structured_items section subsection
                            (plumber_extract_tables E page_num))));
    reflexivity.
Qed.

(** ** Sanitised cells *)

Lemma sanitize_cell_spec (cell : Cell) :
  sanitized_from cell (sanitize_cell cell).
Proof.
  unfold sanitized_from.
  destruct cell as [| s]; simpl; repeat split; try congruence.
  apply PyStrFacts.strip_trimmed.
Qed.

Lemma sanitize_table_spec (t : Grid) :
  Forall2 (Forall2 sanitized_from) t (sanitize_table t).
Proof.
  induction t as [| row t IH]; simpl; constructor; [| exact IH].
  induction row as [| cell row IHr]; simpl; constructor;
    [apply sanitize_cell_spec | exact IHr].
Qed.


(** ** The section label of the emitted items *)






Lemma classify_blocks_paragraphs_prefix (pre post : list TextBlock)
  (st : Classifier) :
  exists rest,
    paragraphs (classify_blocks (pre ++ post) st)
    = paragraphs (classify_blocks pre st) ++ rest.
Proof.
  rewrite classify_blocks_app. generalize (classify_blocks pre st).
  induction post as [| b post IH]; intros c.
  - exists []; now rewrite app_nil_r.
  - unfold classify_blocks in *; simpl.
    destruct (IH (classify_block c b)) as [rest ->].
    rewrite classify_block_paragraphs, <- app_assoc. eauto.
Qed.




(** ** Rounding to the nearest integer *)

(** [round] moves its argument by at most one half. *)
Lemma py_round_near (q : Q) :
  (inject_Z (py_round q) - (1 # 2) <= q)%Q
  /\ (q <= inject_Z (py_round q) + (1 # 2))%Q.
Proof.
  destruct q as [n d]. unfold py_round, Qle. cbn [Qnum Qden].
  pose proof (Z.div_mod n (Zpos d) ltac:(lia)) as Hdm.
  pose proof (Z.mod_pos_bound n (Zpos d) ltac:(lia)) as Hb.
  set (f := (n / Zpos d)%Z) in *. set (r := (n mod Zpos d)%Z) in *.
  assert (Hc : forall z : Z,
             (2 * Zpos d * z - Zpos d <= 2 * n <= 2 * Zpos d * z + Zpos d)%Z ->
             (Qnum (inject_Z z - (1 # 2)) * Zpos d
              <= n * Zpos (Qden (inject_Z z - (1 # 2))))%Z
             /\ (n * Zpos (Qden (inject_Z z + (1 # 2)))
                 <= Qnum (inject_Z z + (1 # 2)) * Zpos d)%Z).
  { intros z Hz. simpl. lia. }
  destruct (Z.compare_spec (2 * r) (Zpos d)) as [He | Hl | Hg].
  - destruct (Z.even f); apply Hc; nia.
  - apply Hc; nia.
  - apply Hc; nia.
Qed.

(** Half-way between two integers, [round] takes the even one. *)
Lemma py_round_tie (q : Q) :
  (2 * q == 2 * inject_Z (py_round q) + 1)%Q
  \/ (2 * q == 2 * inject_Z (py_round q) - 1)%Q ->
  Z.even (py_round q) = true.
Proof.
  destruct q as [n d]. unfold py_round, Qeq. cbn [Qnum Qden].
  pose proof (Z.div_mod n (Zpos d) ltac:(lia)) as Hdm.
  pose proof (Z.mod_pos_bound n (Zpos d) ltac:(lia)) as Hb.
  set (f := (n / Zpos d)%Z) in *. set (r := (n mod Zpos d)%Z) in *.
  assert (Hc : forall z : Z,
             (Qnum (2 * (n # d)) * Zpos (Qden (2 * inject_Z z + 1))
              = Qnum (2 * inject_Z z + 1) * Zpos (Qden (2 * (n # d))))%Z
             \/ (Qnum (2 * (n # d)) * Zpos (Qden (2 * inject_Z z - 1))
                 = Qnum (2 * inject_Z z - 1) * Zpos (Qden (2 * (n # d))))%Z ->
             (2 * n = (2 * z + 1) * Zpos d \/ 2 * n = (2 * z - 1) * Zpos d)%Z).
  { intros z. simpl. lia. }
  destruct (Z.compare_spec (2 * r) (Zpos d)) as [He | Hl | Hg].
  - destruct (Z.even f) eqn:Hf; intros H; [exact Hf |].
    rewrite Z.even_add, Hf. reflexivity.
  - intros H. apply Hc in H. exfalso. nia.
  - intros H. apply Hc in H. exfalso. nia.
Qed.

Lemma py_round_mono (a b : Q) :
  (a <= b)%Q -> (py_round a <= py_round b)%Z.
Proof.
  intros Hab.
  destruct (py_round_near a) as [Ha1 Ha2], (py_round_near b) as [Hb1 Hb2].
  destruct (Z_le_gt_dec (py_round a) (py_round b)) as [H | H]; [exact H |].
  exfalso.
  assert (Hz : (inject_Z (py_round b) + 1 <= inject_Z (py_round a))%Q).
  { rewrite <- (inject_Z_plus _ 1). rewrite <- Zle_Qle. lia. }
  assert (Hta : (2 * a == 2 * inject_Z (py_round a) - 1)%Q) by lra.
  assert (Htb : (2 * b == 2 * inject_Z (py_round b) + 1)%Q) by lra.
  assert (Hle : (inject_Z (py_round a) <= inject_Z (py_round b + 1))%Q)
    by (rewrite inject_Z_plus; change (inject_Z 1) with 1%Q; lra).
  rewrite <- Zle_Qle in Hle.
  assert (Heq : py_round a = (py_round b + 1)%Z) by lia.
  pose proof (py_round_tie a (or_intror Hta)) as Ea.
  pose proof (py_round_tie b (or_introl Htb)) as Eb.
  rewrite Heq, Z.even_add, Eb in Ea. discriminate.
Qed.

Lemma py_round_int (q : Q) (z : Z) :
  (q == inject_Z z)%Q -> py_round q = z.
Proof.
  intros H. destruct (py_round_near q) as [H1 H2].
  assert (Ha : (inject_Z (py_round q) < inject_Z (z + 1))%Q)
    by (rewrite inject_Z_plus; change (inject_Z 1) with 1%Q; lra).
  assert (Hb : (inject_Z (z + -1) < inject_Z (py_round q))%Q)
    by (rewrite inject_Z_plus; change (inject_Z (-1)) with (-1)%Q; lra).
  rewrite <- Zlt_Qlt in Ha, Hb. lia.
Qed.

Lemma inject_Z_pos (z : Z) : (0 < z)%Z -> (0 < inject_Z z)%Q.
Proof. intros H. change 0%Q with (inject_Z 0). now rewrite <- Zlt_Qlt. Qed.

(** ** Rounding to a float *)

Lemma pow2_pos (k : Z) : (0 < pow2 k)%Q.
Proof. apply Qpower_0_lt. reflexivity. Qed.

Lemma pow2_add (a b : Z) : (pow2 (a + b) == pow2 a * pow2 b)%Q.
Proof. apply Qpower_plus. discriminate. Qed.

Lemma pow2_nat (k : Z) : (0 <= k)%Z -> (pow2 k == inject_Z (2 ^ k))%Q.
Proof. intros H. unfold pow2. now rewrite Zpower_Qpower. Qed.

Lemma pow2_le (a b : Z) : (a <= b)%Z -> (pow2 a <= pow2 b)%Q.
Proof. intros H. apply Qpower_le_compat_l; [exact H | discriminate]. Qed.

Lemma pow2_lt_inv (a b : Z) : (pow2 a < pow2 b)%Q -> (a < b)%Z.
Proof. intros H. apply (Qpower_lt_compat_l_inv 2); [exact H | reflexivity]. Qed.

Lemma ulp_pos (q : Q) : (0 < ulp q)%Q.
Proof. apply pow2_pos. Qed.

(** Rounding to a multiple of [u]. *)
Lemma round_to_near (u q : Q) :
  (0 < u)%Q ->
  (2 * (inject_Z (py_round (q / u)) * u - q) <= u)%Q
  /\ (2 * (q - inject_Z (py_round (q / u)) * u) <= u)%Q.
Proof.
  intros Hu. destruct (py_round_near (q / u)) as [H1 H2].
  assert (Hq : (q == q / u * u)%Q)
    by (field; intros E; rewrite E in Hu; discriminate).
  apply (Qmult_le_compat_r _ _ u) in H1, H2; try (now apply Qlt_le_weak).
  rewrite <- Hq in H1, H2. split; lra.
Qed.

Lemma round_to_mono (u a b : Q) :
  (0 < u)%Q -> (a <= b)%Q ->
  (inject_Z (py_round (a / u)) * u <= inject_Z (py_round (b / u)) * u)%Q.
Proof.
  intros Hu Hab. apply Qmult_le_compat_r; [| now apply Qlt_le_weak].
  rewrite <- Zle_Qle. apply py_round_mono.
  apply Qmult_le_compat_r; [exact Hab |].
  apply Qlt_le_weak, Qinv_lt_0_compat, Hu.
Qed.

Lemma round_to_point (u q : Q) (m : Z) :
  (0 < u)%Q ->
  ((q <= inject_Z m * u)%Q ->
   (inject_Z (py_round (q / u)) * u <= inject_Z m * u)%Q)
  /\ ((inject_Z m * u <= q)%Q ->
      (inject_Z m * u <= inject_Z (py_round (q / u)) * u)%Q).
Proof.
  intros Hu.
  assert (Hm : py_round (inject_Z m * u / u) = m)
    by (apply py_round_int; field; intros E; rewrite E in Hu; discriminate).
  split; intros H.
  - rewrite <- Hm. now apply round_to_mono.
  - rewrite <- Hm. now apply round_to_mono.
Qed.

(** A float is at most half a unit in the last place away from what it
    rounds. *)
Lemma round_float_near (q : Q) :
  (2 * (round_float q - q) <= ulp q)%Q
  /\ (2 * (q - round_float q) <= ulp q)%Q.
Proof. apply round_to_near, ulp_pos. Qed.

(** [binade] finds the power of two just below a positive number. *)
Lemma binade_spec (q : Q) :
  (0 < q)%Q ->
  (pow2 (binade q) <= q)%Q /\ (q < pow2 (binade q + 1))%Q.
Proof.
  intros Hq. destruct q as [n d].
  assert (Hn : (0 < n)%Z) by (unfold Qlt in Hq; simpl in Hq; lia).
  unfold binade. cbn [Qnum Qden].
  set (ln := Z.log2 n). set (ld := Z.log2 (Zpos d)).
  destruct (Z.log2_spec n Hn) as [Hn1 Hn2]. fold ln in Hn1, Hn2.
  destruct (Z.log2_spec (Zpos d) ltac:(lia)) as [Hd1 Hd2]. fold ld in Hd1, Hd2.
  assert (Hln : (0 <= ln)%Z) by apply Z.log2_nonneg.
  assert (Hld : (0 <= ld)%Z) by apply Z.log2_nonneg.
  set (q := n # d) in *.
  assert (Hqd : (q * inject_Z (Zpos d) == inject_Z n)%Q)
    by (unfold q, Qeq; simpl; lia).
  pose proof (pow2_pos ld) as Hpd. pose proof (pow2_pos (ln - ld)) as Hpe.
  assert (Hsplit : (pow2 ln == pow2 (ln - ld) * pow2 ld)%Q)
    by (rewrite <- pow2_add; now replace (ln - ld + ld)%Z with ln by lia).
  assert (N1 : (pow2 ln <= inject_Z n)%Q)
    by (rewrite pow2_nat by lia; now rewrite <- Zle_Qle).
  assert (N2 : (inject_Z n < 2 * pow2 ln)%Q).
  { rewrite pow2_nat by lia. change 2%Q with (inject_Z 2).
    rewrite <- inject_Z_mult, <- Zlt_Qlt.
    replace (2 * 2 ^ ln)%Z with (2 ^ Z.succ ln)%Z
      by (rewrite Z.pow_succ_r; lia). exact Hn2. }
  assert (D1 : (pow2 ld <= inject_Z (Zpos d))%Q)
    by (rewrite pow2_nat by lia; now rewrite <- Zle_Qle).
  assert (D2 : (inject_Z (Zpos d) < 2 * pow2 ld)%Q).
  { rewrite pow2_nat by lia. change 2%Q with (inject_Z 2).
    rewrite <- inject_Z_mult, <- Zlt_Qlt.
    replace (2 * 2 ^ ld)%Z with (2 ^ Z.succ ld)%Z
      by (rewrite Z.pow_succ_r; lia). exact Hd2. }
  assert (Hup : (pow2 (ln - ld + 1) == 2 * pow2 (ln - ld))%Q)
    by (rewrite pow2_add; unfold pow2 at 2; simpl; ring).
  assert (Hdn : (2 * pow2 (ln - ld - 1) == pow2 (ln - ld))%Q).
  { replace (ln - ld)%Z with ((ln - ld - 1) + 1)%Z at 2 by lia.
    rewrite pow2_add. unfold pow2 at 3. simpl. ring. }
  set (P := pow2 (ln - ld)) in *. set (PD := pow2 ld) in *.
  set (PL := pow2 ln) in *. set (D := inject_Z (Zpos d)) in *.
  set (N := inject_Z n) in *.
  destruct (Qltb q P) eqn:Hlt.
  - apply Qltb_lt in Hlt.
    replace (ln - ld - 1 + 1)%Z with (ln - ld)%Z by lia.
    fold P. split; [| exact Hlt].
    set (P' := pow2 (ln - ld - 1)) in *.
    assert (H : (P' * (2 * PD) <= q * (2 * PD))%Q) by nra.
    apply Qmult_le_r in H; [exact H | lra].
  - apply Qltb_ge in Hlt. split; [exact Hlt |]. rewrite Hup.
    assert (H : (q * PD < 2 * P * PD)%Q) by nra.
    apply Qmult_lt_r in H; [exact H | exact Hpd].
Qed.

Lemma binade_mono (a b : Q) :
  (0 < a)%Q -> (a <= b)%Q -> (binade a <= binade b)%Z.
Proof.
  intros Ha Hab.
  destruct (binade_spec a Ha) as [A1 _].
  destruct (binade_spec b ltac:(lra)) as [_ B2].
  assert (H : (binade a < binade b + 1)%Z) by (apply pow2_lt_inv; lra).
  lia.
Qed.

(** The exponent of the last place of the floats around [q]. *)
Lemma ulp_exp (q : Q) :
  ulp q = pow2 (Z.max (binade (Qabs q) - 52) (-1074)).
Proof. reflexivity. Qed.

Lemma pow2_shift (x k : Z) :
  (0 <= k)%Z -> (pow2 (x + k) == inject_Z (2 ^ k) * pow2 x)%Q.
Proof.
  intros Hk. rewrite pow2_add, (pow2_nat k Hk). ring.
Qed.

Lemma Qabs_of_pos (q : Q) : (0 < q)%Q -> Qabs q = q.
Proof.
  destruct q as [n d]. unfold Qlt; simpl. intros H.
  f_equal. lia.
Qed.

Lemma Qabs_of_neg (q : Q) : (q < 0)%Q -> Qabs q = (- q)%Q.
Proof.
  destruct q as [n d]. unfold Qlt; simpl. intros H.
  unfold Qopp; simpl. f_equal. lia.
Qed.

Lemma round_float_mono_pos (a b : Q) :
  (0 < a)%Q -> (a <= b)%Q -> (round_float a <= round_float b)%Q.
Proof.
  intros Ha Hab. assert (Hb : (0 < b)%Q) by lra.
  unfold round_float. rewrite !ulp_exp.
  rewrite (Qabs_of_pos a Ha), (Qabs_of_pos b Hb).
  pose proof (binade_mono a b Ha Hab) as He.
  destruct (binade_spec a Ha) as [_ A2].
  destruct (binade_spec b Hb) as [B1 _].
  set (ea := binade a) in *. set (eb := binade b) in *.
  set (xa := Z.max (ea - 52) (-1074)). set (xb := Z.max (eb - 52) (-1074)).
  destruct (Z.eq_dec xa xb) as [Heq | Hne].
  - rewrite Heq. apply round_to_mono; [apply pow2_pos | exact Hab].
  - assert (Hx : (xa < xb)%Z) by (unfold xa, xb in *; lia).
    assert (Hxb : xb = (eb - 52)%Z) by (unfold xa, xb in *; lia).
    assert (Hea : (ea + 1 <= eb)%Z) by (unfold xa, xb in *; lia).
    pose proof (pow2_le _ _ Hea) as Hsep.
    assert (Sa : (pow2 eb == inject_Z (2 ^ (eb - xa)) * pow2 xa)%Q)
      by (rewrite <- pow2_shift by lia; now replace (xa + (eb - xa))%Z
            with eb by lia).
    assert (Sb : (pow2 eb == inject_Z (2 ^ 52) * pow2 xb)%Q)
      by (rewrite <- pow2_shift by lia; now replace (xb + 52)%Z
            with eb by lia).
    apply Qle_trans with (pow2 eb).
    + rewrite Sa. apply round_to_point; [apply pow2_pos |].
      rewrite <- Sa. lra.
    + rewrite Sb. apply round_to_point; [apply pow2_pos |].
      rewrite <- Sb. lra.
Qed.

Lemma round_float_mono_neg (a b : Q) :
  (b < 0)%Q -> (a <= b)%Q -> (round_float a <= round_float b)%Q.
Proof.
  intros Hb Hab. assert (Ha : (a < 0)%Q) by lra.
  unfold round_float. rewrite !ulp_exp.
  rewrite (Qabs_of_neg a Ha), (Qabs_of_neg b Hb).
  assert (Hna : (0 < - a)%Q) by lra. assert (Hnb : (0 < - b)%Q) by lra.
  pose proof (binade_mono (- b) (- a) Hnb ltac:(lra)) as He.
  destruct (binade_spec (- a) Hna) as [A1 _].
  destruct (binade_spec (- b) Hnb) as [_ B2].
  set (ea := binade (- a)) in *. set (eb := binade (- b)) in *.
  set (xa := Z.max (ea - 52) (-1074)). set (xb := Z.max (eb - 52) (-1074)).
  destruct (Z.eq_dec xa xb) as [Heq | Hne].
  - rewrite Heq. apply round_to_mono; [apply pow2_pos | exact Hab].
  - assert (Hx : (xb < xa)%Z) by (unfold xa, xb in *; lia).
    assert (Hxa : xa = (ea - 52)%Z) by (unfold xa, xb in *; lia).
    assert (Heb : (eb + 1 <= ea)%Z) by (unfold xa, xb in *; lia).
    pose proof (pow2_le _ _ Heb) as Hsep.
    assert (Sa : (- pow2 ea == inject_Z (- 2 ^ 52) * pow2 xa)%Q).
    { replace ea with (xa + 52)%Z by lia.
      rewrite (pow2_shift xa 52), inject_Z_opp by lia. ring. }
    assert (Sb : (- pow2 ea == inject_Z (- 2 ^ (ea - xb)) * pow2 xb)%Q).
    { replace ea with (xb + (ea - xb))%Z at 1 by lia.
      rewrite (pow2_shift xb (ea - xb)), inject_Z_opp by lia. ring. }
    apply Qle_trans with (- pow2 ea)%Q.
    + rewrite Sa. apply round_to_point; [apply pow2_pos |].
      rewrite <- Sa. lra.
    + rewrite Sb. apply round_to_point; [apply pow2_pos |].
      rewrite <- Sb. lra.
Qed.

(** Rounding to a float keeps the order. *)
Lemma round_float_mono (a b : Q) :
  (a <= b)%Q -> (round_float a <= round_float b)%Q.
Proof.
  intros Hab.
  destruct (Qlt_le_dec 0 a) as [Ha | Ha];
    [now apply round_float_mono_pos |].
  destruct (Qlt_le_dec b 0) as [Hb | Hb];
    [now apply round_float_mono_neg |].
  apply Qle_trans with (inject_Z 0 * ulp a)%Q.
  - unfold round_float. apply round_to_point; [apply ulp_pos |].
    change (inject_Z 0) with 0%Q. lra.
  - apply Qle_trans with (inject_Z 0 * ulp b)%Q;
      [change (inject_Z 0) with 0%Q; lra |].
    unfold round_float. apply round_to_point; [apply ulp_pos |].
    change (inject_Z 0) with 0%Q. lra.
Qed.


(** The float nearest to something below [2^k] has its last place at
    [2^(k-53)] or below. *)
Lemma ulp_bound (q : Q) (k : Z) :
  (0 <= k)%Z -> (Qabs q < pow2 k)%Q -> (ulp q <= pow2 (k - 53))%Q.
Proof.
  intros Hk Hq. rewrite ulp_exp. apply pow2_le.
  destruct (Qlt_le_dec 0 (Qabs q)) as [Hpos | Hzero].
  - destruct (binade_spec _ Hpos) as [H1 _].
    assert (H : (binade (Qabs q) < k)%Z) by (apply pow2_lt_inv; lra).
    lia.
  - assert (Hz : Qabs q = (0 # Qden q)%Q).
    { destruct q as [n d]. unfold Qle in Hzero. simpl in *.
      f_equal. lia. }
    rewrite Hz. unfold binade. cbn [Qnum Qden].
    pose proof (Z.log2_nonneg (Zpos (Qden q))).
    set (e := (Z.log2 0 - Z.log2 (Zpos (Qden q)))%Z).
    assert (He : (e <= 0)%Z) by (unfold e; change (Z.log2 0) with 0%Z; lia).
    assert (Hlt : Qltb (0 # Qden q) (pow2 e) = true).
    { apply Qltb_lt. apply Qle_lt_trans with 0%Q; [| apply pow2_pos].
      unfold Qle; simpl; lia. }
    rewrite Hlt. lia.
Qed.

(** ** Row keys *)

Lemma round_float_one : (round_float 1 == 1)%Q.
Proof. vm_compute. reflexivity. Qed.

Lemma int_to_float_pos (z : Z) : (0 < z)%Z -> (0 < int_to_float z)%Q.
Proof.
  intros H. apply Qlt_le_trans with (round_float 1).
  - rewrite round_float_one. reflexivity.
  - apply round_float_mono. change 1%Q with (inject_Z 1).
    rewrite <- Zle_Qle. lia.
Qed.

(** The conversion is exact up to [2^53]. *)
Lemma int_to_float_exact (z : Z) :
  (0 < z <= 2 ^ 53)%Z -> (int_to_float z == inject_Z z)%Q.
Proof.
  intros [Hpos Hle]. unfold int_to_float, round_float.
  pose proof (inject_Z_pos z Hpos) as Hq.
  rewrite ulp_exp, (Qabs_of_pos _ Hq).
  destruct (binade_spec _ Hq) as [B1 B2].
  set (b := binade (inject_Z z)) in *.
  assert (H0 : (0 <= b)%Z).
  { assert (H : (0 < b + 1)%Z); [| lia].
    apply pow2_lt_inv. apply Qle_lt_trans with (inject_Z z); [| exact B2].
    change (pow2 0) with (inject_Z 1). rewrite <- Zle_Qle. lia. }
  assert (H53 : (b <= 53)%Z).
  { assert (H : (b < 54)%Z); [| lia].
    apply pow2_lt_inv. apply Qle_lt_trans with (inject_Z z); [exact B1 |].
    rewrite (pow2_nat 54) by lia. rewrite <- Zlt_Qlt. lia. }
  rewrite Z.max_l by lia.
  destruct (Z.eq_dec b 53) as [E | NE].
  - rewrite E in B1. rewrite (pow2_nat 53) in B1 by lia.
    rewrite <- Zle_Qle in B1.
    assert (Hz : z = (2 ^ 53)%Z) by lia.
    rewrite E, Hz. vm_compute. reflexivity.
  - set (j := (52 - b)%Z).
    replace (b - 52)%Z with (- j)%Z by (unfold j; lia).
    assert (Hj : (0 <= j)%Z) by (unfold j; lia).
    pose proof (pow2_pos (- j)) as Hu.
    assert (H1 : (pow2 (- j) * inject_Z (2 ^ j) == 1)%Q).
    { rewrite <- (pow2_nat j Hj), <- pow2_add.
      replace (- j + j)%Z with 0%Z by lia. reflexivity. }
    set (u := pow2 (- j)) in *. set (P := inject_Z (2 ^ j)) in *.
    assert (E : (inject_Z z / u == inject_Z (z * 2 ^ j))%Q).
    { rewrite inject_Z_mult. fold P.
      transitivity (inject_Z z / u * (u * P))%Q.
      - rewrite H1. ring.
      - field. intros E. rewrite E in Hu. discriminate. }
    rewrite (py_round_int _ _ E), inject_Z_mult. fold P.
    transitivity (inject_Z z * (u * P))%Q; [ring |].
    rewrite H1. ring.
Qed.

Lemma row_key_ok (top : Q) (y_tolerance : Z) :
  y_tolerance <> 0%Z ->
  row_key top y_tolerance
  = Ok (py_round (float_div top (int_to_float y_tolerance))
        * y_tolerance)%Z.
Proof.
  intros H. unfold row_key.
  destruct (Z.eqb_spec y_tolerance 0); [contradiction | reflexivity].
Qed.

Lemma quotient_mono (t1 t2 y : Q) :
  (0 < y)%Q -> (t1 <= t2)%Q -> (t1 / y <= t2 / y)%Q.
Proof.
  intros Hy H. apply Qmult_le_compat_r; [exact H |].
  apply Qlt_le_weak, Qinv_lt_0_compat, Hy.
Qed.

(** A lower top never gets a greater key. *)
Lemma row_key_mono (t1 t2 : Q) (y_tolerance k1 k2 : Z) :
  (0 < y_tolerance)%Z -> (t1 <= t2)%Q ->
  row_key t1 y_tolerance = Ok k1 -> row_key t2 y_tolerance = Ok k2 ->
  (k1 <= k2)%Z.
Proof.
  intros Hy H H1 H2. rewrite row_key_ok in H1, H2 by lia.
  injection H1 as <-. injection H2 as <-.
  apply Z.mul_le_mono_nonneg_r; [lia |].
  apply py_round_mono, round_float_mono, quotient_mono;
    [now apply int_to_float_pos | assumption].
Qed.

(** The rounded quotient is at most half a unit, and half a unit in the
    last place, away from the exact one. *)
Lemma rounded_quotient_near (q : Q) :
  (2 * (inject_Z (py_round (round_float q)) - q) <= 1 + ulp q)%Q
  /\ (2 * (q - inject_Z (py_round (round_float q))) <= 1 + ulp q)%Q.
Proof.
  destruct (py_round_near (round_float q)) as [H1 H2].
  destruct (round_float_near q) as [H3 H4]. split; lra.
Qed.

(** A top is at most half of [y_tolerance], and the rounding of the
    quotient, away from its key. *)
Lemma row_key_near (top : Q) (y_tolerance k : Z) :
  (0 < y_tolerance <= 2 ^ 53)%Z ->
  row_key top y_tolerance = Ok k ->
  (2 * (top - inject_Z k)
   <= inject_Z y_tolerance
      * (1 + ulp (top / int_to_float y_tolerance)))%Q
  /\ (2 * (inject_Z k - top)
      <= inject_Z y_tolerance
         * (1 + ulp (top / int_to_float y_tolerance)))%Q.
Proof.
  intros Hy Hk. rewrite row_key_ok in Hk by lia. injection Hk as <-.
  pose proof (inject_Z_pos _ (proj1 Hy)) as Hq.
  pose proof (int_to_float_exact _ Hy) as Hf.
  pose proof (int_to_float_pos _ (proj1 Hy)) as Hfp.
  unfold float_div.
  destruct (rounded_quotient_near (top / int_to_float y_tolerance))
    as [H1 H2].
  set (q := (top / int_to_float y_tolerance)%Q) in *.
  set (r := py_round (round_float q)) in *.
  assert (Ht : (top == q * int_to_float y_tolerance)%Q)
    by (unfold q; field; intros E; rewrite E in Hfp; discriminate).
  set (F := int_to_float y_tolerance) in *.
  apply (Qmult_le_compat_r _ _ F) in H1, H2;
    try (now apply Qlt_le_weak).
  rewrite inject_Z_mult. rewrite <- Hf. split; lra.
Qed.

(** Tops less than [y_tolerance] apart, short of the rounding of the two
    quotients, get the same key or neighbouring ones. *)
Lemma row_key_close (t1 t2 : Q) (y_tolerance k1 k2 : Z) :
  (0 < y_tolerance)%Z ->
  (2 * (t1 - t2)
   < int_to_float y_tolerance
     * (2 - ulp (t1 / int_to_float y_tolerance)
          - ulp (t2 / int_to_float y_tolerance)))%Q ->
  (2 * (t2 - t1)
   < int_to_float y_tolerance
     * (2 - ulp (t1 / int_to_float y_tolerance)
          - ulp (t2 / int_to_float y_tolerance)))%Q ->
  row_key t1 y_tolerance = Ok k1 ->
  row_key t2 y_tolerance = Ok k2 ->
  k1 = k2 \/ k1 = (k2 + y_tolerance)%Z \/ k2 = (k1 + y_tolerance)%Z.
Proof.
  intros Hy H12 H21 Hk1 Hk2.
  rewrite row_key_ok in Hk1, Hk2 by lia.
  injection Hk1 as <-. injection Hk2 as <-.
  pose proof (int_to_float_pos _ Hy) as Hq. unfold float_div.
  destruct (rounded_quotient_near (t1 / int_to_float y_tolerance))
    as [A1 A2].
  destruct (rounded_quotient_near (t2 / int_to_float y_tolerance))
    as [B1 B2].
  set (q1 := (t1 / int_to_float y_tolerance)%Q) in *.
  set (q2 := (t2 / int_to_float y_tolerance)%Q) in *.
  set (r1 := py_round (round_float q1)) in *.
  set (r2 := py_round (round_float q2)) in *.
  assert (E1 : (t1 == q1 * int_to_float y_tolerance)%Q)
    by (unfold q1; field; intros E; rewrite E in Hq; discriminate).
  assert (E2 : (t2 == q2 * int_to_float y_tolerance)%Q)
    by (unfold q2; field; intros E; rewrite E in Hq; discriminate).
  set (Y := int_to_float y_tolerance) in *.
  assert (C12 : (2 * (q1 - q2) < 2 - ulp q1 - ulp q2)%Q).
  { assert (H : (2 * (q1 - q2) * Y < (2 - ulp q1 - ulp q2) * Y)%Q)
      by (rewrite E1, E2 in H12; lra).
    apply Qmult_lt_r in H; [exact H | exact Hq]. }
  assert (C21 : (2 * (q2 - q1) < 2 - ulp q1 - ulp q2)%Q).
  { assert (H : (2 * (q2 - q1) * Y < (2 - ulp q1 - ulp q2) * Y)%Q)
      by (rewrite E1, E2 in H21; lra).
    apply Qmult_lt_r in H; [exact H | exact Hq]. }
  assert (Ha : (inject_Z r1 < inject_Z (r2 + 2))%Q)
    by (rewrite inject_Z_plus; change (inject_Z 2) with 2%Q; lra).
  assert (Hb : (inject_Z r2 < inject_Z (r1 + 2))%Q)
    by (rewrite inject_Z_plus; change (inject_Z 2) with 2%Q; lra).
  rewrite <- Zlt_Qlt in Ha, Hb.
  assert (Hr : r1 = r2 \/ r1 = (r2 + 1)%Z \/ r2 = (r1 + 1)%Z) by lia.
  destruct Hr as [-> | [-> | ->]]; [left | right; left | right; right]; lia.
Qed.

(** ** Stable insertion sort *)

Section SortFacts.
Context {A : Type} (lt : A -> A -> bool).

Lemma insert_sorted_perm (x : A) (l : list A) :
  Permutation (insert_sorted lt x l) (x :: l).
Proof.
  induction l as [| y l IH]; simpl; [reflexivity |].
  destruct (lt y x); [| reflexivity].
  rewrite IH. apply perm_swap.
Qed.

Lemma sorted_perm (l : list A) : Permutation (sorted lt l) l.
Proof.
  induction l as [| x l IH]; simpl; [reflexivity |].
  rewrite insert_sorted_perm. now constructor.
Qed.

Lemma sorted_in (l : list A) (x : A) : In x (sorted lt l) <-> In x l.
Proof.
  split; apply Permutation_in; [| symmetry]; apply sorted_perm.
Qed.

Lemma sorted_not_nil (l : list A) : l <> [] -> sorted lt l <> [].
Proof.
  intros Hl Hs. pose proof (sorted_perm l) as Hp. rewrite Hs in Hp.
  now apply Permutation_nil in Hp.
Qed.

Hypothesis lt_asym : forall a b, lt a b = true -> lt b a = false.
Hypothesis ge_trans :
  forall a b c, lt b a = false -> lt c b = false -> lt c a = false.

Lemma insert_sorted_sorted (x : A) (l : list A) :
  StronglySorted (fun a b => lt b a = false) l ->
  StronglySorted (fun a b => lt b a = false) (insert_sorted lt x l).
Proof.
  induction 1 as [| y l Hs IH Hy]; simpl; [repeat constructor |].
  destruct (lt y x) eqn:Hyx.
  - constructor; [exact IH |].
    apply Forall_forall. intros z Hz.
    apply (Permutation_in _ (insert_sorted_perm x l)) in Hz.
    destruct Hz as [<- | Hz]; [now apply lt_asym |].
    now rewrite Forall_forall in Hy; apply Hy.
  - constructor; [now constructor |].
    constructor; [exact Hyx |].
    rewrite Forall_forall in *. intros z Hz.
    apply (ge_trans x y z); [exact Hyx | now apply Hy].
Qed.

Lemma sorted_sorted (l : list A) :
  StronglySorted (fun a b => lt b a = false) (sorted lt l).
Proof.
  induction l as [| x l IH]; simpl; [constructor |].
  now apply insert_sorted_sorted.
Qed.

End SortFacts.

Lemma x0_sorted (l : list (Q * string)) :
  StronglySorted (fun a b => (fst a <= fst b)%Q) (sorted x0_lt l).
Proof.
  assert (H : StronglySorted (fun a b => x0_lt b a = false) (sorted x0_lt l)).
  { apply sorted_sorted.
    - intros a b H. apply Qltb_lt in H. apply Qltb_ge. now apply Qlt_le_weak.
    - intros a b c H1 H2. apply Qltb_ge in H1, H2. apply Qltb_ge.
      eapply Qle_trans; eauto. }
  induction H as [| a l' _ IH Ha]; constructor; [exact IH |].
  eapply Forall_impl; [| exact Ha].
  intros b Hb. apply Qltb_ge. exact Hb.
Qed.

(** ** The rows dictionary *)

Lemma rows_get_append (rows : Rows) (y y' : Z) (v : Q * string) :
  rows_get (rows_append rows y v) y'
  = if (y =? y')%Z then rows_get rows y ++ [v] else rows_get rows y'.
Proof.
  induction rows as [| [k l] rows IH]; simpl.
  - destruct (Z.eqb_spec y y'); reflexivity.
  - destruct (Z.eqb_spec k y) as [-> | Hk]; simpl.
    + destruct (Z.eqb_spec y y'); reflexivity.
    + destruct (Z.eqb_spec k y') as [-> | Hk'].
      * destruct (Z.eqb_spec y y'); [congruence | reflexivity].
      * exact IH.
Qed.

Lemma rows_append_keys (rows : Rows) (y k : Z) (v : Q * string) :
  In k (map fst (rows_append rows y v)) <-> k = y \/ In k (map fst rows).
Proof.
  induction rows as [| [k' l] rows IH]; simpl.
  - intuition congruence.
  - destruct (Z.eqb_spec k' y) as [-> | Hk]; simpl.
    + intuition congruence.
    + rewrite IH. intuition congruence.
Qed.

(** What a word that is kept adds to the rows. *)
Lemma cluster_word_kept (y_tolerance : Z) (rows rows' : Rows) (w : Word) :
  is_blank_word w = false ->
  cluster_word y_tolerance rows w = Ok rows' ->
  exists top y x,
    word_top w = Some top /\ row_key top y_tolerance = Ok y
    /\ word_entry w x (PyStr.strip (get_default (word_text w) ""))
    /\ rows' = rows_append rows y
                 (x, PyStr.strip (get_default (word_text w) "")).
Proof.
  unfold cluster_word, is_blank_word. intros Hb H. rewrite Hb in H.
  apply bind_ok in H as (top & Htop & H).
  apply bind_ok in H as (y & Hy & H).
  apply bind_ok in H as (x & Hx & H). injection H as <-.
  destruct (word_top w); [| discriminate]. injection Htop as ->.
  destruct (word_x0 w) eqn:Hx0; [| discriminate]. injection Hx as ->.
  exists top, y, x. repeat split; auto.
  now apply PyStrFacts.is_empty_false.
Qed.

Lemma cluster_word_blank (y_tolerance : Z) (rows : Rows) (w : Word) :
  is_blank_word w = true -> cluster_word y_tolerance rows w = Ok rows.
Proof.
  unfold cluster_word, is_blank_word. now intros ->.
Qed.

(** Every key of the dictionary has a non-empty list, filled from the words
    with that key. *)
Lemma cluster_rows_sound (words : list Word) (y_tolerance : Z) (rows : Rows) :
  for_each (cluster_word y_tolerance) words [] = Ok rows ->
  forall y, In y (map fst rows) ->
            rows_get rows y <> []
            /\ Forall (word_in_row words y_tolerance y) (rows_get rows y).
Proof.
  apply (for_each_invariant (cluster_word y_tolerance)
           (fun rows => forall y, In y (map fst rows) ->
                                  rows_get rows y <> []
                                  /\ Forall (word_in_row words y_tolerance y)
                                            (rows_get rows y)));
    [| simpl; tauto].
  intros acc w acc' Hw Hacc Hstep y Hy.
  destruct (is_blank_word w) eqn:Hb.
  - rewrite cluster_word_blank in Hstep by exact Hb.
    injection Hstep as <-. now apply Hacc.
  - apply cluster_word_kept in Hstep as (top & k & x & Htop & Hk & He & ->);
      [| exact Hb].
    rewrite rows_get_append. apply rows_append_keys in Hy.
    destruct (Z.eqb_spec k y) as [-> | Hne].
    + split; [now destruct (rows_get acc y) |].
      apply Forall_app; split.
      * destruct (in_dec Z.eq_dec y (map fst acc)) as [Hin | Hout];
          [now apply Hacc |].
        assert (Hnil : rows_get acc y = []).
        { clear -Hout. induction acc as [| [k l] acc IH]; simpl in *; auto.
          destruct (Z.eqb_spec k y); [tauto | apply IH; tauto]. }
        rewrite Hnil; constructor.
      * repeat constructor. exists w, top. auto.
    + destruct Hy as [-> | Hy]; [contradiction | now apply Hacc].
Qed.

(** Every word that is kept is in the list of its key. *)
Lemma cluster_rows_complete (y_tolerance : Z) (words : list Word)
  (rows0 rows : Rows) :
  for_each (cluster_word y_tolerance) words rows0 = Ok rows ->
  (forall y v, In v (rows_get rows0 y) ->
               In v (rows_get rows y) /\ In y (map fst rows))
  /\ (forall w, In w words -> is_blank_word w = false ->
        exists top y x,
          word_top w = Some top /\ row_key top y_tolerance = Ok y
          /\ word_x0 w = Some x
          /\ In (x, PyStr.strip (get_default (word_text w) ""))
                (rows_get rows y)
          /\ In y (map fst rows)).
Proof.
  revert rows0; induction words as [| w words IH]; intros rows0 H;
    simpl in H.
  - injection H as <-. split; [| intros w []].
    intros y v Hv. split; [exact Hv |].
    induction rows0 as [| [k l] rows0 IHr]; simpl in *; [tauto |].
    destruct (Z.eqb_spec k y); [auto | right; auto].
  - apply bind_ok in H as (rows1 & Hstep & Hrest).
    destruct (IH rows1 Hrest) as [Hmono Hall].
    destruct (is_blank_word w) eqn:Hb.
    + rewrite cluster_word_blank in Hstep by exact Hb.
      injection Hstep as <-. split; [exact Hmono |].
      intros w' [<- | Hw'] Hb'; [congruence | now apply Hall].
    + apply cluster_word_kept in Hstep
          as (top & k & x & Htop & Hk & (Hx & _) & ->); [| exact Hb].
      split.
      * intros y v Hv. apply Hmono. rewrite rows_get_append.
        destruct (Z.eqb_spec k y) as [-> | _];
          [apply in_or_app; left; exact Hv | exact Hv].
      * intros w' [<- | Hw'] Hb'; [| now apply Hall].
        assert (Hin : In (x, PyStr.strip (get_default (word_text w) ""))
                         (rows_get rows k) /\ In k (map fst rows)).
        { apply (Hmono k). rewrite rows_get_append, Z.eqb_refl.
          apply in_or_app; simpl; auto. }
        exists top, k, x. tauto.
Qed.

(** Blank words leave no trace in the loop. *)
Lemma cluster_skips_blank (y_tolerance : Z) (words : list Word) (rows : Rows) :
  for_each (cluster_word y_tolerance)
           (filter (fun w => negb (is_blank_word w)) words) rows
  = for_each (cluster_word y_tolerance) words rows.
Proof.
  revert rows; induction words as [| w words IH]; intros rows; simpl;
    [reflexivity |].
  destruct (is_blank_word w) eqn:Hb; simpl.
  - rewrite cluster_word_blank by exact Hb. simpl. apply IH.
  - destruct (cluster_word y_tolerance rows w); simpl; auto.
Qed.

Lemma cluster_all_blank (y_tolerance : Z) (words : list Word) (rows : Rows) :
  Forall (fun w => is_blank_word w = true) words ->
  for_each (cluster_word y_tolerance) words rows = Ok rows.
Proof.
  induction 1 as [| w words Hw _ IH]; simpl; [reflexivity |].
  rewrite cluster_word_blank by exact Hw. exact IH.
Qed.

(** ** The cells of a row *)

Lemma emit_words_from (col_gap : Q) (row_words : list (Q * string))
  (row : list string) (last_x : Q) :
  fst (fold_left (emit_word col_gap) row_words (row, Some last_x))
  = row ++ cells_after col_gap last_x row_words.
Proof.
  revert row last_x; induction row_words as [| [x txt] rest IH];
    intros row last_x; simpl.
  - now rewrite app_nil_r.
  - rewrite IH. destruct (Qltb col_gap (float_sub x last_x)); simpl;
      rewrite <- !app_assoc; reflexivity.
Qed.

(** The loop over a row yields the cells the design document describes. *)
Lemma build_row_cells (col_gap : Q) (row_words : list (Q * string)) :
  build_row col_gap row_words = row_cells col_gap row_words.
Proof.
  unfold build_row. destruct row_words as [| [x txt] rest]; simpl;
    [reflexivity |].
  apply emit_words_from.
Qed.

Lemma cells_after_words (col_gap last_x : Q) (row_words : list (Q * string)) :
  Forall (fun e => snd e <> "") row_words ->
  filter not_empty (cells_after col_gap last_x row_words)
  = map snd row_words
  /\ count_occ string_dec (cells_after col_gap last_x row_words) ""
     = wide_gaps col_gap last_x row_words
  /\ List.length (cells_after col_gap last_x row_words)
     = (List.length row_words + wide_gaps col_gap last_x row_words)%nat.
Proof.
  intros H; revert last_x; induction H as [| [x txt] rest Ht _ IH];
    intros last_x; simpl; [auto |].
  destruct (IH x) as (IH1 & IH2 & IH3). simpl in Ht.
  assert (Hne : not_empty txt = true)
    by (unfold not_empty; now destruct txt).
  destruct (Qltb col_gap (float_sub x last_x)); simpl; rewrite Hne, IH1, IH2, IH3;
    destruct (string_dec txt ""); try contradiction; repeat split; lia.
Qed.

Lemma row_cells_words (col_gap : Q) (row_words : list (Q * string)) :
  Forall (fun e => snd e <> "") row_words ->
  filter not_empty (row_cells col_gap row_words) = map snd row_words
  /\ count_occ string_dec (row_cells col_gap row_words) ""
     = row_gaps col_gap row_words
  /\ List.length (row_cells col_gap row_words)
     = (List.length row_words + row_gaps col_gap row_words)%nat.
Proof.
  destruct row_words as [| [x txt] rest]; simpl; [auto |].
  intros H. inversion H as [| ? ? Ht Hrest]; subst. simpl in Ht.
  destruct (cells_after_words col_gap x rest Hrest) as (H1 & H2 & H3).
  assert (Hne : not_empty txt = true)
    by (unfold not_empty; now destruct txt).
  rewrite Hne, H1, H2, H3.
  destruct (string_dec txt ""); try contradiction; repeat split; lia.
Qed.

Lemma cells_after_in (col_gap last_x : Q) (row_words : list (Q * string))
  (x : Q) (txt : string) :
  In (x, txt) row_words -> In txt (cells_after col_gap last_x row_words).
Proof.
  revert last_x; induction row_words as [| [x' t'] rest IH]; intros last_x;
    simpl; [tauto |].
  intros [H | H]; apply in_or_app; right; simpl.
  - injection H as _ <-; auto.
  - right; now apply IH.
Qed.

Lemma row_cells_in (col_gap : Q) (row_words : list (Q * string))
  (x : Q) (txt : string) :
  In (x, txt) row_words -> In txt (row_cells col_gap row_words).
Proof.
  destruct row_words as [| [x' t'] rest]; simpl; [tauto |].
  intros [H | H]; [injection H as _ <-; auto |].
  right. eapply cells_after_in; eauto.
Qed.

(** The rows of the table, one per key. *)
Lemma table_of_rows_in (col_gap : Q) (rows : Rows) (row : list string) :
  In row (table_of_rows col_gap rows) <->
  exists y, In y (map fst rows)
            /\ row = row_cells col_gap (sorted x0_lt (rows_get rows y)).
Proof.
  unfold table_of_rows. rewrite in_map_iff. split.
  - intros (y & <- & Hy). exists y. rewrite build_row_cells.
    split; [now apply sorted_in in Hy | reflexivity].
  - intros (y & Hy & ->). exists y. rewrite build_row_cells.
    split; [reflexivity | now apply sorted_in].
Qed.

Lemma build_table_ok (words : list Word) (y_tolerance : Z) (col_gap : Q)
  (table : list (list string)) :
  build_table_from_words words y_tolerance col_gap = Ok table ->
  exists rows,
    for_each (cluster_word y_tolerance) words [] = Ok rows
    /\ table = table_of_rows col_gap rows.
Proof.
  unfold build_table_from_words. destruct words as [| w words].
  - intros H; injection H as <-. exists []. split; reflexivity.
  - intros H. apply bind_ok in H as (rows & Hrows & H).
    injection H as <-. eauto.
Qed.

(** ** The word-cluster table builder *)

(** The rows of a built table, with the words behind them. *)
Lemma build_table_rows (words : list Word) (y_tolerance : Z) (col_gap : Q)
  (table : list (list string)) (row : list string) :
  build_table_from_words words y_tolerance col_gap = Ok table ->
  In row table ->
  exists y row_words,
    row_words <> []
    /\ Forall (word_in_row words y_tolerance y) row_words
    /\ StronglySorted (fun a b => (fst a <= fst b)%Q) row_words
    /\ row = row_cells col_gap row_words.
Proof.
  intros Hb Hrow. apply build_table_ok in Hb as (rows & Hrows & ->).
  apply table_of_rows_in in Hrow as (y & Hy & ->).
  destruct (cluster_rows_sound words y_tolerance rows Hrows y Hy)
    as [Hne Hall].
  exists y, (sorted x0_lt (rows_get rows y)). repeat split.
  - now apply sorted_not_nil.
  - eapply Permutation_Forall; [| exact Hall].
    symmetry; apply sorted_perm.
  - apply x0_sorted.
Qed.

Lemma word_in_row_text (words : list Word) (y_tolerance y : Z)
  (row_words : list (Q * string)) :
  Forall (word_in_row words y_tolerance y) row_words ->
  Forall (fun e => snd e <> "") row_words.
Proof.
  apply Forall_impl. intros e (w & top & _ & (_ & _ & Hne) & _). exact Hne.
Qed.

(** The words of C5's refutation: tops 0 and 2.25 are less than 3 apart,
    their keys are 0 and 3, and the table has one row for each. *)
Lemma close_tops_split_rows :
  ((9 # 4) - 0 < inject_Z 3)%Q
  /\ (0 - (9 # 4) < inject_Z 3)%Q
  /\ row_key 0 3 = Ok 0%Z
  /\ row_key (9 # 4) 3 = Ok 3%Z
  /\ build_table_from_words Sample.close_words default_y_tolerance
                            default_col_gap
     = Ok [["a"]; ["b"]].
Proof. repeat split. Qed.

(** The float test on a gap against the exact gap. *)
Lemma float_gap_exact (col_gap x last_x : Q) :
  (Qltb col_gap (float_sub x last_x) = true ->
   (round_float col_gap == col_gap)%Q ->
   (col_gap < x - last_x)%Q)
  /\ ((2 * col_gap + ulp (x - last_x) < 2 * (x - last_x))%Q ->
      Qltb col_gap (float_sub x last_x) = true).
Proof.
  unfold float_sub. split.
  - intros H Hc. apply Qltb_lt in H.
    destruct (Qlt_le_dec col_gap (x - last_x)) as [Hlt | Hle];
      [exact Hlt |].
    apply round_float_mono in Hle. lra.
  - intros H. apply Qltb_lt.
    destruct (round_float_near (x - last_x)) as [_ H2]. lra.
Qed.

(** C6 (as amended). Each row of the table lists the texts of its words in
    ascending [x0], with one empty cell before each word whose computed
    distance to the previous one, the float [x - last_x], is above
    [col_gap], and no other empty cell.  When [col_gap] is a float, a cell
    is inserted only where the exact distance is above [col_gap], and it is
    inserted wherever the exact distance is above [col_gap] by more than
    half the last place of the difference.  Three words at [x0] 0, 10 and
    50 with [col_gap] 20 give four cells, the three texts and one empty cell
    before the third; two words at the floats 0.1 and 20.1 give two cells,
    their exact distance being above 20 and the computed one 20. *)
Theorem row_sorted_with_gap_cells :
  (forall words y_tolerance col_gap table,
      build_table_from_words words y_tolerance col_gap = Ok table ->
      Forall
        (fun row =>
           exists y row_words,
             Forall (word_in_row words y_tolerance y) row_words
             /\ StronglySorted (fun a b => (fst a <= fst b)%Q) row_words
             /\ row = row_cells col_gap row_words
             /\ filter not_empty row = map snd row_words
             /\ count_occ string_dec row "" = row_gaps col_gap row_words
             /\ List.length row
                = (List.length row_words + row_gaps col_gap row_words)%nat)
        table)
  /\ (forall col_gap last_x x txt rest,
        cells_after col_gap last_x ((x, txt) :: rest)
        = (if Qltb col_gap (float_sub x last_x) then [""] else [])
          ++ txt :: cells_after col_gap x rest)
  /\ (forall col_gap x last_x,
        (Qltb col_gap (float_sub x last_x) = true ->
         (round_float col_gap == col_gap)%Q ->
         (col_gap < x - last_x)%Q)
        /\ ((2 * col_gap + ulp (x - last_x) < 2 * (x - last_x))%Q ->
            Qltb col_gap (float_sub x last_x) = true))
  /\ build_table_from_words Sample.gap_words default_y_tolerance
                            default_col_gap
     = Ok [["a"; "b"; ""; "c"]]
  /\ ((default_col_gap
       < (2828823515942093 # 140737488355328)
         - (3602879701896397 # 36028797018963968))%Q
      /\ build_table_from_words Sample.float_gap_words default_y_tolerance
                                default_col_gap
         = Ok [["a"; "b"]]).
Proof.
  split; [| split; [reflexivity |
            split; [apply float_gap_exact |
              split; [reflexivity | split; reflexivity]]]].
  intros words y_tolerance col_gap table Hb. apply Forall_forall.
  intros row Hrow.
  destruct (build_table_rows _ _ _ _ _ Hb Hrow)
    as (y & row_words & _ & Hall & Hsorted & ->).
  exists y, row_words.
  destruct (row_cells_words col_gap row_words (word_in_row_text _ _ _ _ Hall))
    as (H1 & H2 & H3).
  repeat split; auto.
Qed.

Lemma row_sorted_with_gap_cells_witness :
  Forall
    (fun row =>
       exists y row_words,
         Forall (word_in_row Sample.mixed_words 3 y) row_words
         /\ StronglySorted (fun a b => (fst a <= fst b)%Q) row_words
         /\ row = row_cells 20 row_words
         /\ filter not_empty row = map snd row_words
         /\ count_occ string_dec row "" = row_gaps 20 row_words
         /\ List.length row
            = (List.length row_words + row_gaps 20 row_words)%nat)
    [["Total"; ""; "42"]; ["Tax"]]
  /\ (20 < 50 - 10)%Q
  /\ Qltb 20 (float_sub 50 10) = true.
Proof.
  destruct row_sorted_with_gap_cells as (Hrows & _ & Hgap & _).
  destruct (Hgap 20 50 10) as [Hexact Hfloat].
  refine (conj (Hrows Sample.mixed_words 3%Z 20%Q _ eq_refl)
            (conj (Hexact eq_refl _) (Hfloat _))).
  - vm_compute. reflexivity.
  - reflexivity.
Defined.

(** The row of C6's example has four cells, not three. *)
Lemma three_words_four_cells :
  build_table_from_words Sample.gap_words default_y_tolerance default_col_gap
  = Ok [["a"; "b"; ""; "c"]]
  /\ List.length ["a"; "b"; ""; "c"] <> 3%nat.
Proof. split; [reflexivity | discriminate]. Qed.

(** C10. Words whose text is empty or whitespace are skipped before the
    rows are formed: the table is that of the other words, and it is empty
    when every word is blank.  Every row of a table starts with the stripped,
    non-empty text of an input word. *)
Theorem blank_words_dropped (words : list Word) (y_tolerance : Z)
  (col_gap : Q) :
  build_table_from_words words y_tolerance col_gap
  = build_table_from_words (filter (fun w => negb (is_blank_word w)) words)
                           y_tolerance col_gap
  /\ (Forall (fun w => is_blank_word w = true) words ->
      build_table_from_words words y_tolerance col_gap = Ok [])
  /\ (forall table,
        build_table_from_words words y_tolerance col_gap = Ok table ->
        Forall
          (fun row =>
             exists first rest w x,
               row = first :: rest
               /\ In w words /\ is_blank_word w = false
               /\ word_entry w x first)
          table).
Proof.
  repeat apply conj.
  - unfold build_table_from_words.
    rewrite <- (cluster_skips_blank y_tolerance words []).
    destruct words as [| w words]; [reflexivity |].
    destruct (filter _ (w :: words)); reflexivity.
  - intros H. unfold build_table_from_words.
    destruct words as [| w words]; [reflexivity |].
    now rewrite cluster_all_blank.
  - intros table Hb. apply Forall_forall. intros row Hrow.
    destruct (build_table_rows _ _ _ _ _ Hb Hrow)
      as (y & row_words & Hne & Hall & _ & ->).
    destruct row_words as [| [x txt] rest]; [congruence |].
    inversion Hall as [| ? ? (w & top & Hw & He & _) _]; subst.
    simpl in He. exists txt, (cells_after col_gap x rest), w, x.
    repeat split; auto; try apply He.
    destruct He as (_ & -> & Hne'). unfold is_blank_word.
    now apply PyStrFacts.is_empty_false.
Qed.

Lemma blank_words_dropped_witness :
  build_table_from_words
    [Sample.word_at "  " 0 0; Sample.word_at "" 10 40] 3 20 = Ok []
  /\ Forall
       (fun row =>
          exists first rest w x,
            row = first :: rest
            /\ In w Sample.mixed_words /\ is_blank_word w = false
            /\ word_entry w x first)
       [["Total"; ""; "42"]; ["Tax"]].
Proof.
  split.
  - apply (proj1 (proj2 (blank_words_dropped
                           [Sample.word_at "  " 0 0; Sample.word_at "" 10 40]
                           3 20))).
    repeat constructor.
  - apply (proj2 (proj2 (blank_words_dropped Sample.mixed_words 3 20))).
    reflexivity.
Defined.


(** * Further properties *)

(** ** The labels the classifier ends with *)

Lemma classify_blocks_snoc (l : list TextBlock) (b : TextBlock)
  (st : Classifier) :
  classify_blocks (l ++ [b]) st = classify_block (classify_blocks l st) b.
Proof. now rewrite classify_blocks_app. Qed.

Lemma classify_blocks_final (blocks : list TextBlock) (st : Classifier) :
  last_section (classify_blocks blocks st)
  = final_section blocks (last_section st)
  /\ last_subsection (classify_blocks blocks st)
     = final_subsection blocks (last_subsection st).
Proof.
  induction blocks as [| b blocks [IH1 IH2]] using rev_ind; [now split |].
  rewrite classify_blocks_snoc. unfold final_section, final_subsection in *.
  rewrite rev_app_distr; simpl. unfold classify_block, is_heading.
  destruct (is_section_heading b) eqn:Hs; simpl; rewrite ?Hs; [now split |].
  destruct (subsection_test b); simpl; rewrite ?Hs; auto.
Qed.

(** X1. After any run of blocks the section is the text of the last section
    heading among them (else what it was), and the sub-section is decided by
    the last heading of either rank: cleared by a section heading, set to
    its text by a sub-section heading (else what it was). *)
Theorem final_heading_state (blocks : list TextBlock) (st : Classifier) :
  last_section (classify_blocks blocks st)
  = final_section blocks (last_section st)
  /\ last_subsection (classify_blocks blocks st)
     = final_subsection blocks (last_subsection st).
Proof. apply classify_blocks_final. Qed.

(** X2. A plain block is emitted as a paragraph labelled by the headings that
    precede it in the list, whatever follows it. *)
Theorem paragraph_labels (st : Classifier) (pre post : list TextBlock)
  (p : TextBlock) :
  is_plain p = true ->
  exists after,
    paragraphs (classify_blocks (pre ++ p :: post) st)
    = paragraphs (classify_blocks pre st)
      ++ Paragraph (section_or_unknown (final_section pre (last_section st)))
                   (final_subsection pre (last_subsection st)) (text p)
         :: after.
Proof.
  intros Hp.
  destruct (classify_blocks_paragraphs_prefix (pre ++ [p]) post st)
    as [after Hafter].
  rewrite <- app_assoc in Hafter. simpl in Hafter.
  exists after. rewrite Hafter, classify_blocks_snoc.
  rewrite classify_block_paragraphs, Hp.
  destruct (classify_blocks_final pre st) as [-> ->].
  now rewrite <- app_assoc.
Qed.

Lemma paragraph_labels_witness :
  exists after,
    paragraphs (classify_blocks
                  ([Sample.title; Sample.subtitle] ++ Sample.body
                   :: [Sample.title])
                  (Sample.start None None))
    = paragraphs (classify_blocks [Sample.title; Sample.subtitle]
                                  (Sample.start None None))
      ++ Paragraph "Intro" (Some "Scope") "Hello world." :: after.
Proof.
  exact (paragraph_labels (Sample.start None None)
           [Sample.title; Sample.subtitle] [Sample.title] Sample.body
           eq_refl).
Defined.

(** ** The blocks of a page *)

Lemma enrich_block_some (b : Block) (tb : TextBlock) :
  enrich_block b = Ok (Some tb) ->
  text tb <> "" /\ PyStr.is_trimmed (text tb) = true
  /\ bbox tb = block_bbox b.
Proof.
  unfold enrich_block. intros H.
  apply bind_ok in H as ([[text_parts font_sizes] font_flags] & _ & H).
  destruct (PyStr.is_empty (PyStr.strip (PyStr.join " " text_parts))) eqn:He;
    [discriminate |].
  injection H as <-. simpl. repeat split.
  - now apply PyStrFacts.is_empty_false.
  - apply PyStrFacts.strip_trimmed.
Qed.

(** The enriched list holds, in order, what the blocks with a text give. *)
Lemma enrich_blocks_spec (blocks : list Block) (acc enriched : list TextBlock) :
  for_each enrich_step blocks acc = Ok enriched ->
  exists added,
    enriched = acc ++ added
    /\ Forall (fun tb => text tb <> "" /\ PyStr.is_trimmed (text tb) = true)
              added
    /\ Forall (fun tb => exists b, In b blocks /\ enrich_block b = Ok (Some tb))
              added.
Proof.
  revert acc; induction blocks as [| b blocks IH]; intros acc H; simpl in H.
  - injection H as <-. exists []. now rewrite app_nil_r.
  - apply bind_ok in H as (acc' & Hstep & Hrest).
    unfold enrich_step in Hstep.
    apply bind_ok in Hstep as (e & He & Hstep).
    destruct (IH acc' Hrest) as (added & -> & Ht & Hb).
    assert (Hb' : Forall (fun tb => exists b0, In b0 (b :: blocks)
                                                /\ enrich_block b0 = Ok (Some tb))
                         added).
    { eapply Forall_impl; [| exact Hb].
      intros tb (b0 & Hin & Hb0). exists b0; simpl; auto. }
    destruct e as [tb |]; injection Hstep as <-.
    + exists (tb :: added). rewrite <- app_assoc. simpl.
      destruct (enrich_block_some b tb He) as (H1 & H2 & _).
      repeat split; auto. constructor; auto. exists b; simpl; auto.
    + exists added. auto.
Qed.

Lemma keyed_blocks_spec (enriched : list TextBlock)
  (acc keyed : list ((Q * Q) * TextBlock)) :
  for_each keyed_step enriched acc = Ok keyed ->
  Forall (fun kb => sort_key (snd kb) = Ok (fst kb)) acc ->
  map snd keyed = map snd acc ++ enriched
  /\ Forall (fun kb => sort_key (snd kb) = Ok (fst kb)) keyed.
Proof.
  revert acc; induction enriched as [| b enriched IH]; intros acc H Hacc;
    simpl in H.
  - injection H as <-. now rewrite app_nil_r.
  - apply bind_ok in H as (acc' & Hstep & Hrest).
    unfold keyed_step in Hstep. apply bind_ok in Hstep as (k & Hk & Hstep).
    injection Hstep as <-.
    destruct (IH _ Hrest) as [Hmap Hall].
    + apply Forall_app; split; [exact Hacc | repeat constructor; exact Hk].
    + split; [| exact Hall].
      rewrite Hmap, map_app, <- app_assoc. reflexivity.
Qed.

Lemma keyed_blocks_total (enriched : list TextBlock)
  (acc : list ((Q * Q) * TextBlock)) :
  (Forall (fun b => bbox b <> None) enriched ->
   exists keyed, for_each keyed_step enriched acc = Ok keyed)
  /\ (Exists (fun b => bbox b = None) enriched ->
      for_each keyed_step enriched acc = Raise TypeError).
Proof.
  revert acc; induction enriched as [| b enriched IH]; intros acc; split;
    intros H; simpl.
  - eauto.
  - inversion H.
  - inversion H as [| ? ? Hb Hrest]; subst. unfold keyed_step, sort_key.
    destruct (bbox b) as [[[[x0 y0] x1] y1] |]; [| contradiction]. simpl.
    now apply IH.
  - unfold keyed_step, sort_key.
    destruct (bbox b) as [[[[x0 y0] x1] y1] |] eqn:Hb; [| reflexivity]. simpl.
    apply IH. inversion H as [? ? Hn | ? ? Hrest]; subst; [congruence | auto].
Qed.

Lemma key_lt_true (k1 k2 : Q * Q) :
  key_lt k1 k2 = true <->
  (fst k1 < fst k2)%Q \/ ((fst k1 == fst k2)%Q /\ (snd k1 < snd k2)%Q).
Proof.
  unfold key_lt, Qeqb.
  destruct (Qeq_bool (fst k1) (fst k2)) eqn:He.
  - apply Qeq_bool_iff in He. rewrite Qltb_lt. split; [auto |].
    intros [H | [_ H]]; [lra | exact H].
  - apply Qeq_bool_neq in He. rewrite Qltb_lt. split; [auto |].
    intros [H | [H _]]; [exact H | contradiction].
Qed.

Lemma key_lt_false (k1 k2 : Q * Q) :
  key_lt k2 k1 = false <->
  (fst k1 < fst k2)%Q \/ ((fst k1 == fst k2)%Q /\ (snd k1 <= snd k2)%Q).
Proof.
  unfold key_lt, Qeqb.
  destruct (Qeq_bool (fst k2) (fst k1)) eqn:He.
  - apply Qeq_bool_iff in He. rewrite Qltb_ge. split.
    + intros H. right. split; [now symmetry | exact H].
    + intros [H | [_ H]]; [lra | exact H].
  - apply Qeq_bool_neq in He. rewrite Qltb_ge. split.
    + intros H. left. apply Qle_lteq in H as [H | H]; [exact H |].
      symmetry in H. contradiction.
    + intros [H | [H _]]; [lra | symmetry in H; contradiction].
Qed.

Lemma keyed_sorted (keyed : list ((Q * Q) * TextBlock)) :
  StronglySorted (fun a b => key_lt (fst b) (fst a) = false)
                 (sorted (fun a b => key_lt (fst a) (fst b)) keyed).
Proof.
  apply (sorted_sorted (fun a b => key_lt (fst a) (fst b))).
  - intros a b H. apply key_lt_true in H. apply key_lt_false.
    destruct H as [H | [H1 H2]]; [left | right; split]; auto; lra.
  - intros a b c H1 H2. apply key_lt_false in H1, H2. apply key_lt_false.
    destruct H1 as [H1 | [H1 H1']], H2 as [H2 | [H2 H2']];
      try (left; lra). right; split; lra.
Qed.

Lemma reading_before_keys (a b : (Q * Q) * TextBlock) :
  sort_key (snd a) = Ok (fst a) -> sort_key (snd b) = Ok (fst b) ->
  key_lt (fst b) (fst a) = false -> reading_before (snd a) (snd b).
Proof.
  unfold sort_key, reading_before. intros Ha Hb H.
  apply key_lt_false in H.
  destruct (bbox (snd a)) as [[[[xa ya] ?] ?] |]; [| discriminate].
  destruct (bbox (snd b)) as [[[[xb yb] ?] ?] |]; [| discriminate].
  injection Ha as Ha. injection Hb as Hb. rewrite <- Ha, <- Hb in H.
  exact H.
Qed.

Lemma sorted_keys_reading (ks : list ((Q * Q) * TextBlock)) :
  StronglySorted (fun a b => key_lt (fst b) (fst a) = false) ks ->
  Forall (fun kb => sort_key (snd kb) = Ok (fst kb)) ks ->
  StronglySorted reading_before (map snd ks).
Proof.
  induction 1 as [| a l _ IH Ha]; intros Hall; simpl; constructor;
    inversion Hall as [| ? ? Hka Hl]; subst.
  - now apply IH.
  - rewrite Forall_map. rewrite Forall_forall in *.
    intros b Hb. apply reading_before_keys; auto.
Qed.

Lemma text_blocks_spec (page : Page) (blocks : list TextBlock) :
  text_blocks page = Ok blocks ->
  exists enriched,
    for_each enrich_step (get_default (page_blocks page) []) [] = Ok enriched
    /\ Permutation blocks enriched
    /\ StronglySorted reading_before blocks
    /\ Forall (fun b => text b <> "" /\ PyStr.is_trimmed (text b) = true)
              blocks.
Proof.
  unfold text_blocks, sort_blocks. intros H.
  apply bind_ok in H as (enriched & He & H).
  apply bind_ok in H as (keyed & Hk & H). injection H as <-.
  destruct (keyed_blocks_spec _ _ _ Hk (Forall_nil _)) as [Hmap Hkeys].
  simpl in Hmap.
  set (klt := fun a b : (Q * Q) * TextBlock => key_lt (fst a) (fst b)).
  assert (Hperm : Permutation (map snd (sorted klt keyed)) enriched).
  { rewrite <- Hmap. apply Permutation_map, sorted_perm. }
  exists enriched. repeat split; auto.
  - apply sorted_keys_reading; [apply keyed_sorted |].
    eapply Permutation_Forall; [| exact Hkeys].
    symmetry; apply sorted_perm.
  - destruct (enrich_blocks_spec _ _ _ He) as (added & -> & Ht & _).
    simpl in Hperm. eapply Permutation_Forall; [| exact Ht].
    now symmetry.
Qed.

(** X3. The blocks of a page are the blocks that have a text, each text
    stripped and not empty, rearranged into reading order: top edge first,
    then left edge. *)
Theorem text_blocks_reading_order (page : Page) (blocks : list TextBlock) :
  text_blocks page = Ok blocks ->
  exists enriched,
    for_each enrich_step (get_default (page_blocks page) []) [] = Ok enriched
    /\ Permutation blocks enriched
    /\ StronglySorted reading_before blocks
    /\ Forall (fun b => text b <> "" /\ PyStr.is_trimmed (text b) = true)
              blocks.
Proof. apply text_blocks_spec. Qed.

Lemma text_blocks_reading_order_witness :
  StronglySorted reading_before
    [ {| text := "top"; bbox := Some (40, 0, 40 + 100, 0 + 12)%Q;
         largest_font := 11; is_bold := false |};
      {| text := "left"; bbox := Some (10, 50, 10 + 100, 50 + 12)%Q;
         largest_font := 11; is_bold := false |};
      {| text := "right"; bbox := Some (200, 50, 200 + 100, 50 + 12)%Q;
         largest_font := 11; is_bold := false |};
      {| text := "bottom"; bbox := Some (0, 300, 0 + 100, 300 + 12)%Q;
         largest_font := 11; is_bold := false |} ].
Proof.
  destruct (text_blocks_reading_order More.shuffled_page _ eq_refl)
    as (_ & _ & _ & H & _).
  exact H.
Defined.

(** ** When a page has blocks *)

Lemma collect_spans_total (spans : list Span) (acc : SpanAcc) :
  Forall complete_span spans ->
  exists acc', for_each collect_span spans acc = Ok acc'.
Proof.
  intros H; revert acc; induction H as [| s spans (Ht & Hz & Hf) _ IH];
    intros acc; simpl; [eauto |].
  unfold collect_span. destruct acc as [[text_parts font_sizes] font_flags].
  destruct (span_text s); [| contradiction].
  destruct (span_size s); [| contradiction].
  destruct (span_flags s); [| contradiction]. simpl. apply IH.
Qed.

Lemma collect_lines_total (lines : list Line) (acc : SpanAcc) :
  Forall (fun l => Forall complete_span (get_default (line_spans l) [])) lines ->
  exists acc', for_each collect_line lines acc = Ok acc'.
Proof.
  intros H; revert acc; induction H as [| l lines Hl _ IH]; intros acc;
    simpl; [eauto |].
  unfold collect_line at 1.
  destruct (collect_spans_total _ acc Hl) as [acc' ->]. simpl. apply IH.
Qed.

Lemma enrich_blocks_total (blocks : list Block) (acc : list TextBlock) :
  Forall well_formed_block blocks ->
  Forall (fun tb => bbox tb <> None) acc ->
  exists enriched,
    for_each enrich_step blocks acc = Ok enriched
    /\ Forall (fun tb => bbox tb <> None) enriched.
Proof.
  intros H; revert acc; induction H as [| b blocks [Hbox Hlines] _ IH];
    intros acc Hacc; simpl; [eauto |].
  unfold enrich_step at 1, enrich_block.
  destruct (collect_lines_total _ ([], [], []) Hlines)
    as [[[text_parts font_sizes] font_flags] ->]. simpl.
  destruct (PyStr.is_empty (PyStr.strip (PyStr.join " " text_parts)));
    simpl; apply IH; auto.
  apply Forall_app; split; [exact Hacc | repeat constructor; exact Hbox].
Qed.

(** X4. A page has its blocks when every block has a bounding box and every
    span its text, size and flags; once the blocks are enriched, the sort
    succeeds exactly when each of them has a bounding box, and raises
    [TypeError] otherwise. *)
Theorem text_blocks_defined (page : Page) :
  (Forall well_formed_block (get_default (page_blocks page) []) ->
   has_text_blocks page)
  /\ (forall enriched,
        for_each enrich_step (get_default (page_blocks page) []) []
        = Ok enriched ->
        (Forall (fun tb => bbox tb <> None) enriched -> has_text_blocks page)
        /\ (Exists (fun tb => bbox tb = None) enriched ->
            text_blocks page = Raise TypeError)).
Proof.
  unfold has_text_blocks, text_blocks, sort_blocks. split.
  - intros H.
    destruct (enrich_blocks_total _ [] H (Forall_nil _)) as (enriched & -> & Hb).
    simpl. destruct (proj1 (keyed_blocks_total enriched []) Hb) as [keyed ->].
    simpl. eauto.
  - intros enriched ->. simpl. split; intros H.
    + destruct (proj1 (keyed_blocks_total enriched []) H) as [keyed ->].
      simpl. eauto.
    + now rewrite (proj2 (keyed_blocks_total enriched []) H).
Qed.

Lemma text_blocks_defined_witness :
  has_text_blocks More.shuffled_page
  /\ text_blocks Sample.missing_bbox_page = Raise TypeError.
Proof.
  split.
  - apply (proj1 (text_blocks_defined More.shuffled_page)).
    repeat constructor; discriminate.
  - apply (proj2 (text_blocks_defined Sample.missing_bbox_page)
             [ {| text := "Hello world."; bbox := None;
                  largest_font := 11; is_bold := false |} ] eq_refl).
    repeat constructor.
Defined.

(** ** The chart detector *)

Lemma extract_charts_spec (page : Page) (section subsection : option string) :
  List.length (extract_charts page section subsection)
  = Nat.max 1 (page_images page)
  /\ Forall (fun i =>
               is_chart i = true
               /\ item_section i = section_or_unknown section
               /\ item_sub_section i = subsection
               /\ item_table_data i = None
               /\ item_description i
                  = Some (if (page_images page =? 0)%nat
                          then "Chart (vector or non-extractable)"
                          else "Chart image detected"))
            (extract_charts page section subsection).
Proof.
  unfold extract_charts. destruct (page_images page) as [| n].
  - split; [reflexivity | repeat constructor].
  - split; [rewrite repeat_length; lia |].
    apply Forall_forall. intros i Hi. apply repeat_spec in Hi as ->.
    repeat split.
Qed.

(** X7. The detector never returns an empty list: one placeholder for a page
    without images, else one item per image; every item is a chart with the
    labels it was given. *)
Theorem extract_charts_count (page : Page) (section subsection : option string) :
  List.length (extract_charts page section subsection)
  = Nat.max 1 (page_images page)
  /\ Forall (fun i =>
               is_chart i = true
               /\ item_section i = section_or_unknown section
               /\ item_sub_section i = subsection
               /\ item_table_data i = None
               /\ item_description i
                  = Some (if (page_images page =? 0)%nat
                          then "Chart (vector or non-extractable)"
                          else "Chart image detected"))
            (extract_charts page section subsection).
Proof. apply extract_charts_spec. Qed.

(** ** The page assembler *)

Lemma extract_tables_kinds (E : Extractors) (page_num : Z)
  (section subsection : option string) (results : list ContentItem) :
  run (extract_tables E page_num section subsection) = Ok results ->
  Forall (fun i => is_table i = true
                   /\ item_section i = section_or_unknown section
                   /\ item_sub_section i = subsection) results.
Proof.
  rewrite run_extract_tables. cbv zeta. intros H. apply Forall_forall.
  intros i Hi.
  destruct (negb (is_nil (structured_items section subsection
                            (camelot_outcome E page_num))));
    [| destruct (negb (is_nil (structured_items section subsection
                                 (plumber_extract_tables E page_num))))];
    injection H as <-.
  - now apply structured_items_in in Hi as (? & ? & _ & _ & _ & ->).
  - now apply structured_items_in in Hi as (? & ? & _ & _ & _ & ->).
  - now apply word_items_in in Hi as (_ & ->).
Qed.

Lemma extract_tables_returns (E : Extractors) (page_num : Z)
  (section subsection : option string) :
  exists results,
    run (extract_tables E page_num section subsection) = Ok results.
Proof.
  rewrite run_extract_tables. cbv zeta.
  destruct (negb (is_nil (structured_items section subsection
                            (camelot_outcome E page_num)))); [eauto |].
  destruct (negb (is_nil (structured_items section subsection
                            (plumber_extract_tables E page_num)))); eauto.
Qed.

Lemma classify_blocks_only_paragraphs (l : list TextBlock) (st : Classifier) :
  Forall (fun i => is_paragraph i = true) (paragraphs st) ->
  Forall (fun i => is_paragraph i = true) (paragraphs (classify_blocks l st)).
Proof.
  revert st; induction l as [| b l IH]; intros st Hst; [exact Hst |].
  unfold classify_blocks in *; simpl. apply IH.
  rewrite classify_block_paragraphs. apply Forall_app; split; [exact Hst |].
  destruct (is_plain b); repeat constructor.
Qed.

(** One turn of the loop over the pages, with its three parts. *)
Lemma assemble_page_parts (E : Extractors) (st st' : Assembler) (page_num : Z)
  (page : Page) :
  assemble_page E st (page_num, page) = Ok st' ->
  exists blocks tables,
    text_blocks page = Ok blocks
    /\ let c := classify_blocks blocks
                  {| paragraphs := [];
                     last_section := doc_section st;
                     last_subsection := doc_subsection st |} in
       extract_text_and_headings page (doc_section st) (doc_subsection st)
       = Ok c
       /\ run (extract_tables E page_num (last_section c) (last_subsection c))
          = Ok tables
       /\ st' = {| pages_output :=
                     pages_output st ++
                     [{| page_number := page_num;
                         content := paragraphs c ++ tables
                                    ++ extract_charts page (last_section c)
                                         (last_subsection c) |}];
                   doc_section := last_section c;
                   doc_subsection := last_subsection c |}.
Proof.
  unfold assemble_page, extract_text_and_headings. intros H.
  apply bind_ok in H as (c & Hc & H).
  apply bind_ok in Hc as (blocks & Hblocks & Hc). injection Hc as <-.
  apply bind_ok in H as (tables & Htables & H). injection H as <-.
  exists blocks, tables. rewrite Hblocks. cbv zeta. auto.
Qed.

Lemma assemble_page_total (E : Extractors) (st : Assembler) (page_num : Z)
  (page : Page) :
  has_text_blocks page ->
  exists st', assemble_page E st (page_num, page) = Ok st'.
Proof.
  intros [blocks Hb]. unfold assemble_page, extract_text_and_headings.
  rewrite Hb. simpl.
  destruct (extract_tables_returns E page_num
              (last_section (classify_blocks blocks
                 {| paragraphs := []; last_section := doc_section st;
                    last_subsection := doc_subsection st |}))
              (last_subsection (classify_blocks blocks
                 {| paragraphs := []; last_section := doc_section st;
                    last_subsection := doc_subsection st |})))
    as [tables ->].
  simpl. eauto.
Qed.

Lemma assemble_page_raise (E : Extractors) (st : Assembler) (page_num : Z)
  (page : Page) (e : exn) :
  text_blocks page = Raise e ->
  assemble_page E st (page_num, page) = Raise e.
Proof.
  intros Hb. unfold assemble_page, extract_text_and_headings.
  now rewrite Hb.
Qed.

Lemma enumerate_app {A : Type} (l1 l2 : list A) (start : Z) :
  enumerate (l1 ++ l2) start
  = enumerate l1 start ++ enumerate l2 (start + Z.of_nat (List.length l1)).
Proof.
  revert start; induction l1 as [| x l1 IH]; intros start; simpl.
  - now rewrite Z.add_0_r.
  - rewrite IH. do 3 f_equal. lia.
Qed.

Lemma assemble_pages_total (E : Extractors) (doc : list Page) (start : Z)
  (st : Assembler) :
  Forall has_text_blocks doc ->
  exists st', for_each (assemble_page E) (enumerate doc start) st = Ok st'.
Proof.
  intros H; revert start st; induction H as [| page doc Hp _ IH];
    intros start st; cbn [enumerate for_each]; [eauto |].
  destruct (assemble_page_total E st start page Hp) as [st1 ->].
  cbn [bind]. apply IH.
Qed.

(** X8. The conversion succeeds when every page has its blocks, whatever the
    table extractors do; otherwise it raises the error of the first page
    that has not, and returns no page at all. *)
Theorem parse_pdf_all_or_nothing (E : Extractors) (doc : list Page) :
  (Forall has_text_blocks doc -> exists out, parse_pdf E doc = Ok out)
  /\ (forall pre page post e,
        doc = pre ++ page :: post ->
        Forall has_text_blocks pre ->
        text_blocks page = Raise e ->
        parse_pdf E doc = Raise e).
Proof.
  unfold parse_pdf. split.
  - intros H.
    destruct (assemble_pages_total E doc 1 initial_assembler H) as [st ->].
    simpl. eauto.
  - intros pre page post e -> Hpre Hpage.
    rewrite enumerate_app, for_each_app.
    destruct (assemble_pages_total E pre 1 initial_assembler Hpre) as [st ->].
    cbn [bind enumerate for_each].
    now rewrite (assemble_page_raise E st _ page e Hpage).
Qed.

Lemma parse_pdf_all_or_nothing_witness :
  (exists out, parse_pdf Sample.all_raise More.two_pages = Ok out)
  /\ parse_pdf Sample.all_raise
               (More.two_pages ++ Sample.missing_size_page
                :: [More.shuffled_page])
     = Raise (KeyError "size").
Proof.
  split.
  - apply (proj1 (parse_pdf_all_or_nothing Sample.all_raise More.two_pages)).
    repeat constructor; eexists; reflexivity.
  - apply (proj2 (parse_pdf_all_or_nothing Sample.all_raise
                    (More.two_pages ++ Sample.missing_size_page
                     :: [More.shuffled_page]))
             More.two_pages Sample.missing_size_page [More.shuffled_page]
             (KeyError "size") eq_refl).
    + repeat constructor; eexists; reflexivity.
    + reflexivity.
Defined.

Lemma enumerate_numbers {A : Type} (l : list A) (start : Z) :
  map fst (enumerate l start)
  = map (fun i => (start + Z.of_nat i)%Z) (seq 0 (List.length l)).
Proof.
  revert start; induction l as [| x l IH]; intros start; simpl;
    [reflexivity |].
  rewrite Z.add_0_r, IH, <- seq_shift, map_map. f_equal.
  apply map_ext. intros i. lia.
Qed.

Lemma assemble_pages_numbers (E : Extractors) (doc : list Page) (start : Z)
  (st st' : Assembler) :
  for_each (assemble_page E) (enumerate doc start) st = Ok st' ->
  map page_number (pages_output st')
  = map page_number (pages_output st) ++ map fst (enumerate doc start).
Proof.
  revert start st; induction doc as [| page doc IH]; intros start st H;
    cbn [enumerate for_each] in H.
  - injection H as <-. simpl. now rewrite app_nil_r.
  - apply bind_ok in H as (st1 & Hstep & Hrest).
    rewrite (IH _ _ Hrest).
    apply assemble_page_parts in Hstep as (blocks & tables & _ & _ & _ & ->).
    simpl. rewrite map_app, <- app_assoc. reflexivity.
Qed.

(** X9. A converted document has one page per source page, numbered from 1 in
    source order. *)
Theorem parse_pdf_page_numbers (E : Extractors) (doc : list Page)
  (out : list PageOut) :
  parse_pdf E doc = Ok out ->
  map page_number out = map Z.of_nat (seq 1 (List.length doc))
  /\ List.length out = List.length doc.
Proof.
  unfold parse_pdf. intros H.
  apply bind_ok in H as (st & Hrun & H). injection H as <-.
  apply assemble_pages_numbers in Hrun. simpl in Hrun.
  assert (Hnum : map page_number (pages_output st)
                 = map Z.of_nat (seq 1 (List.length doc))).
  { rewrite Hrun, enumerate_numbers, <- seq_shift, map_map.
    apply map_ext. intros i. rewrite Nat2Z.inj_succ. lia. }
  split; [exact Hnum |].
  apply (f_equal (@List.length Z)) in Hnum.
  now rewrite !length_map, length_seq in Hnum.
Qed.

Lemma parse_pdf_page_numbers_witness :
  map page_number
      [ {| page_number := 1;
           content := [Paragraph "Intro" None "Hello world.";
                       Chart "Intro" None
                             "Chart (vector or non-extractable)"] |};
        {| page_number := 2;
           content := [Paragraph "Intro" None "Second page body.";
                       Chart "Intro" None
                             "Chart (vector or non-extractable)"] |} ]
  = map Z.of_nat (seq 1 (List.length More.two_pages)).
Proof.
  exact (proj1 (parse_pdf_page_numbers Sample.all_raise More.two_pages _
                  eq_refl)).
Defined.

(** X10. What a page adds to the output: its paragraphs, then its tables, then
    its charts, of which there is at least one.  The tables and charts carry
    the labels the classifier ends the page with, so a heading anywhere on
    the page labels them. *)
Theorem page_content_layout (E : Extractors) (st st' : Assembler)
  (page_num : Z) (page : Page) :
  assemble_page E st (page_num, page) = Ok st' ->
  exists c tables charts,
    extract_text_and_headings page (doc_section st) (doc_subsection st) = Ok c
    /\ pages_output st'
       = pages_output st
         ++ [{| page_number := page_num;
                content := paragraphs c ++ tables ++ charts |}]
    /\ Forall (fun i => is_paragraph i = true) (paragraphs c)
    /\ Forall (fun i => is_table i = true) tables
    /\ Forall (fun i => is_chart i = true) charts
    /\ charts <> []
    /\ Forall (fun i => item_section i = section_or_unknown (last_section c)
                        /\ item_sub_section i = last_subsection c)
              (tables ++ charts).
Proof.
  intros H.
  apply assemble_page_parts in H as (blocks & tables & _ & Hc & Ht & ->).
  cbv zeta in Hc, Ht.
  set (c := classify_blocks blocks
              {| paragraphs := []; last_section := doc_section st;
                 last_subsection := doc_subsection st |}) in *.
  exists c, tables,
    (extract_charts page (last_section c) (last_subsection c)).
  pose proof (extract_tables_kinds _ _ _ _ _ Ht) as Hk.
  pose proof (extract_charts_spec page (last_section c) (last_subsection c))
    as [Hlen Hch].
  repeat split; auto.
  - apply classify_blocks_only_paragraphs. constructor.
  - eapply Forall_impl; [| exact Hk]. simpl; tauto.
  - eapply Forall_impl; [| exact Hch]. simpl; tauto.
  - intros Hnil. rewrite Hnil in Hlen. cbn [List.length] in Hlen. lia.
  - apply Forall_app; split.
    + eapply Forall_impl; [| exact Hk]. simpl; tauto.
    + eapply Forall_impl; [| exact Hch]. simpl; tauto.
Qed.

Lemma page_content_layout_witness :
  exists c tables charts,
    extract_text_and_headings More.heading_last_page None None = Ok c
    /\ pages_output
         {| pages_output :=
              [{| page_number := 1;
                  content :=
                    [Paragraph "Unknown" None "Body text of the first page.";
                     Chart "Results" None "Chart image detected";
                     Chart "Results" None "Chart image detected"] |}];
            doc_section := Some "Results";
            doc_subsection := None |}
       = pages_output initial_assembler
         ++ [{| page_number := 1;
                content := paragraphs c ++ tables ++ charts |}]
    /\ Forall (fun i => is_paragraph i = true) (paragraphs c)
    /\ Forall (fun i => is_table i = true) tables
    /\ Forall (fun i => is_chart i = true) charts
    /\ charts <> []
    /\ Forall (fun i => item_section i = section_or_unknown (last_section c)
                        /\ item_sub_section i = last_subsection c)
              (tables ++ charts).
Proof.
  exact (page_content_layout Sample.all_raise initial_assembler _ 1
           More.heading_last_page eq_refl).
Defined.

(** ** Page boundaries and the paragraphs *)

Lemma classify_blocks_from (l : list TextBlock) (ps : list ContentItem)
  (s ss : option string) :
  classify_blocks l {| paragraphs := ps; last_section := s;
                       last_subsection := ss |}
  = let c := classify_blocks l {| paragraphs := []; last_section := s;
                                  last_subsection := ss |} in
    {| paragraphs := ps ++ paragraphs c;
       last_section := last_section c;
       last_subsection := last_subsection c |}.
Proof.
  cbv zeta. revert ps s ss; induction l as [| b l IH]; intros ps s ss.
  - simpl. now rewrite app_nil_r.
  - unfold classify_blocks in *; simpl. unfold classify_block at 2 4 6 8.
    simpl. destruct (is_section_heading b); [apply IH |].
    destruct (subsection_test b); [apply IH |].
    rewrite IH, (IH [_]). simpl. now rewrite <- app_assoc.
Qed.

Lemma filter_all {A : Type} (f : A -> bool) (l : list A) :
  Forall (fun x => f x = true) l -> filter f l = l.
Proof.
  induction 1 as [| x l Hx _ IH]; simpl; [reflexivity |].
  now rewrite Hx, IH.
Qed.

Lemma filter_none {A : Type} (f : A -> bool) (l : list A) :
  Forall (fun x => f x = false) l -> filter f l = [].
Proof.
  induction 1 as [| x l Hx _ IH]; simpl; [reflexivity |].
  now rewrite Hx.
Qed.

Lemma page_paragraphs_of (page_num : Z) (ps tables charts : list ContentItem) :
  Forall (fun i => is_paragraph i = true) ps ->
  Forall (fun i => is_table i = true) tables ->
  Forall (fun i => is_chart i = true) charts ->
  page_paragraphs {| page_number := page_num;
                     content := ps ++ tables ++ charts |} = ps.
Proof.
  intros Hps Hts Hcs. unfold page_paragraphs. simpl. rewrite !filter_app.
  rewrite (filter_all _ _ Hps), (filter_none is_paragraph tables),
    (filter_none is_paragraph charts), ?app_nil_r; auto.
  - eapply Forall_impl; [| exact Hcs]. intros i Hi; now destruct i.
  - eapply Forall_impl; [| exact Hts]. intros i Hi; now destruct i.
Qed.

Lemma assemble_pages_paragraphs (E : Extractors) (doc : list Page) (start : Z)
  (st st' : Assembler) :
  for_each (assemble_page E) (enumerate doc start) st = Ok st' ->
  exists per_page,
    Forall2 (fun page blocks => text_blocks page = Ok blocks) doc per_page
    /\ List.concat (map page_paragraphs (pages_output st'))
       = List.concat (map page_paragraphs (pages_output st))
         ++ paragraphs (classify_blocks (List.concat per_page)
                          {| paragraphs := [];
                             last_section := doc_section st;
                             last_subsection := doc_subsection st |}).
Proof.
  revert start st; induction doc as [| page doc IH]; intros start st H;
    cbn [enumerate for_each] in H.
  - injection H as <-. exists []. simpl. rewrite app_nil_r. auto.
  - apply bind_ok in H as (st1 & Hstep & Hrest).
    destruct (IH _ _ Hrest) as (per_page & Hall & Hp).
    apply assemble_page_parts in Hstep as (blocks & tables & Hb & _ & Ht & ->).
    cbv zeta in Ht. simpl in Hp.
    exists (blocks :: per_page). split; [now constructor |].
    rewrite Hp. simpl List.concat. rewrite classify_blocks_app.
    set (c1 := classify_blocks blocks
                 {| paragraphs := []; last_section := doc_section st;
                    last_subsection := doc_subsection st |}) in *.
    rewrite map_app, List.concat_app. simpl. rewrite app_nil_r.
    rewrite page_paragraphs_of.
    + rewrite <- app_assoc. f_equal. clearbody c1.
      destruct c1 as [ps1 s1 ss1]. simpl.
      now rewrite (classify_blocks_from (List.concat per_page) ps1).
    + apply classify_blocks_only_paragraphs. constructor.
    + eapply Forall_impl; [| exact (extract_tables_kinds _ _ _ _ _ Ht)].
      simpl; tauto.
    + eapply Forall_impl;
        [| apply (extract_charts_spec page (last_section c1)
                    (last_subsection c1))].
      simpl; tauto.
Qed.

(** X11. The paragraphs of a converted document, page after page, are those the
    classifier emits on the blocks of all pages put end to end: a page
    break changes no label. *)
Theorem parse_pdf_paragraphs (E : Extractors) (doc : list Page)
  (out : list PageOut) :
  parse_pdf E doc = Ok out ->
  exists per_page,
    Forall2 (fun page blocks => text_blocks page = Ok blocks) doc per_page
    /\ List.concat (map page_paragraphs out)
       = paragraphs (classify_blocks (List.concat per_page)
                       {| paragraphs := []; last_section := None;
                          last_subsection := None |}).
Proof.
  unfold parse_pdf. intros H.
  apply bind_ok in H as (st & Hrun & H). injection H as <-.
  exact (assemble_pages_paragraphs E doc 1 initial_assembler st Hrun).
Qed.

Lemma parse_pdf_paragraphs_witness :
  exists per_page,
    Forall2 (fun page blocks => text_blocks page = Ok blocks)
            More.two_pages per_page
    /\ List.concat (map page_paragraphs
                 [ {| page_number := 1;
                      content := [Paragraph "Intro" None "Hello world.";
                                  Chart "Intro" None
                                        "Chart (vector or non-extractable)"] |};
                   {| page_number := 2;
                      content := [Paragraph "Intro" None "Second page body.";
                                  Chart "Intro" None
                                        "Chart (vector or non-extractable)"] |} ])
       = paragraphs (classify_blocks (List.concat per_page)
                       {| paragraphs := []; last_section := None;
                          last_subsection := None |}).
Proof.
  exact (parse_pdf_paragraphs Sample.all_raise More.two_pages _ eq_refl).
Defined.

(** ** More on the word-cluster table builder *)

Lemma rows_append_nodup (rows : Rows) (y : Z) (v : Q * string) :
  NoDup (map fst rows) -> NoDup (map fst (rows_append rows y v)).
Proof.
  induction rows as [| [k l] rows IH]; simpl; intros H.
  - repeat constructor. simpl; tauto.
  - inversion H as [| ? ? Hk Hrest]; subst.
    destruct (Z.eqb_spec k y) as [-> | Hne]; simpl; [exact H |].
    constructor; [| now apply IH].
    rewrite rows_append_keys. intros [-> | Hin]; contradiction.
Qed.

Lemma rows_append_entries (rows : Rows) (y : Z) (v : Q * string) :
  Permutation (List.concat (map snd (rows_append rows y v)))
              (v :: List.concat (map snd rows)).
Proof.
  induction rows as [| [k l] rows IH]; simpl; [reflexivity |].
  destruct (Z.eqb_spec k y) as [-> | Hne]; simpl.
  - rewrite <- app_assoc. simpl. symmetry. apply Permutation_middle.
  - rewrite IH. symmetry. apply Permutation_middle.
Qed.

Lemma rows_get_keys (rows : Rows) :
  NoDup (map fst rows) -> map (rows_get rows) (map fst rows) = map snd rows.
Proof.
  induction rows as [| [k l] rows IH]; simpl; intros H; [reflexivity |].
  inversion H as [| ? ? Hk Hrest]; subst.
  rewrite Z.eqb_refl. f_equal. rewrite <- (IH Hrest).
  apply map_ext_in. intros y Hy.
  destruct (Z.eqb_spec k y) as [-> | _]; [contradiction | reflexivity].
Qed.

(** The dictionary after the loop: each key once, and the kept words'
    texts, each once, spread over the lists. *)
Lemma cluster_rows_exact (y_tolerance : Z) (words : list Word)
  (rows0 rows : Rows) :
  for_each (cluster_word y_tolerance) words rows0 = Ok rows ->
  NoDup (map fst rows0) ->
  NoDup (map fst rows)
  /\ Permutation
       (map snd (List.concat (map snd rows)))
       (map snd (List.concat (map snd rows0))
        ++ map word_cell (filter (fun w => negb (is_blank_word w)) words)).
Proof.
  revert rows0; induction words as [| w words IH]; intros rows0 H Hnd;
    simpl in H.
  - injection H as <-. simpl. now rewrite app_nil_r.
  - apply bind_ok in H as (rows1 & Hstep & Hrest). simpl.
    destruct (is_blank_word w) eqn:Hb; simpl.
    + rewrite cluster_word_blank in Hstep by exact Hb.
      injection Hstep as <-. now apply IH.
    + apply cluster_word_kept in Hstep as (top & k & x & _ & _ & _ & ->);
        [| exact Hb].
      destruct (IH _ Hrest (rows_append_nodup _ _ _ Hnd)) as [Hnd' Hp].
      split; [exact Hnd' |].
      rewrite Hp. fold (word_cell w).
      rewrite (Permutation_map snd (rows_append_entries rows0 k
                                      (x, word_cell w))).
      simpl. apply Permutation_middle.
Qed.

Lemma flat_map_perm {A B : Type} (f g : A -> list B) (l : list A) :
  (forall a, In a l -> Permutation (f a) (g a)) ->
  Permutation (flat_map f l) (flat_map g l).
Proof.
  induction l as [| a l IH]; intros H; simpl; [reflexivity |].
  apply Permutation_app; [apply H; simpl; auto |].
  apply IH. intros b Hb. apply H; simpl; auto.
Qed.

(** X12. No kept word is lost and none is repeated: the non-empty cells of the
    table are the stripped texts of the kept words, each as often as it
    occurs among them. *)
Theorem table_keeps_every_word (words : list Word) (y_tolerance : Z)
  (col_gap : Q) (table : list (list string)) :
  build_table_from_words words y_tolerance col_gap = Ok table ->
  Permutation (List.concat (map (filter not_empty) table))
              (map word_cell
                   (filter (fun w => negb (is_blank_word w)) words)).
Proof.
  intros Hb. apply build_table_ok in Hb as (rows & Hrows & ->).
  destruct (cluster_rows_exact y_tolerance words [] rows Hrows (NoDup_nil _))
    as [Hnd Hp].
  simpl in Hp. rewrite <- Hp. unfold table_of_rows.
  rewrite map_map, <- flat_map_concat_map.
  rewrite (flat_map_perm _
             (fun y => map snd (rows_get rows y))).
  - rewrite (Permutation_flat_map _ (sorted_perm Z.ltb (map fst rows))).
    rewrite flat_map_concat_map, <- (map_map (rows_get rows) (map snd)).
    rewrite (rows_get_keys rows Hnd), <- concat_map. reflexivity.
  - intros y Hy. apply sorted_in in Hy.
    destruct (cluster_rows_sound words y_tolerance rows Hrows y Hy)
      as [_ Hall].
    rewrite build_row_cells.
    destruct (row_cells_words col_gap (sorted x0_lt (rows_get rows y)))
      as (-> & _).
    + eapply word_in_row_text, Permutation_Forall; [| exact Hall].
      symmetry; apply sorted_perm.
    + apply Permutation_map, sorted_perm.
Qed.

Lemma table_keeps_every_word_witness :
  Permutation
    (List.concat (map (filter not_empty) [["Total"; ""; "42"]; ["Tax"]]))
    (map word_cell
         (filter (fun w => negb (is_blank_word w)) Sample.mixed_words)).
Proof.
  exact (table_keeps_every_word Sample.mixed_words 3 20 _ eq_refl).
Defined.

Lemma ascending_distinct (l : list Z) :
  StronglySorted (fun a b => (b <? a)%Z = false) l -> NoDup l ->
  StronglySorted Z.lt l.
Proof.
  induction 1 as [| a l _ IH Ha]; intros Hnd; constructor;
    inversion Hnd as [| ? ? Hout Hrest]; subst; [now apply IH |].
  rewrite Forall_forall in *. intros b Hb.
  specialize (Ha b Hb). apply Z.ltb_ge in Ha.
  assert (a <> b) by (intros ->; contradiction). lia.
Qed.

Lemma Forall2_map_in {A B : Type} (P : A -> B -> Prop) (f : A -> B)
  (l : list A) :
  (forall a, In a l -> P a (f a)) -> Forall2 P l (map f l).
Proof.
  induction l as [| a l IH]; intros H; simpl; constructor.
  - apply H; simpl; auto.
  - apply IH. intros b Hb. apply H; simpl; auto.
Qed.

(** X13. The rows come top to bottom, one per row key: the keys of the rows are
    strictly ascending, each row holds words of its key only, and every
    kept word's key has its row. *)
Theorem table_rows_ascending (words : list Word) (y_tolerance : Z)
  (col_gap : Q) (table : list (list string)) :
  build_table_from_words words y_tolerance col_gap = Ok table ->
  exists keys,
    StronglySorted Z.lt keys
    /\ Forall2 (fun y row =>
                  exists row_words,
                    row_words <> []
                    /\ Forall (word_in_row words y_tolerance y) row_words
                    /\ row = row_cells col_gap row_words)
               keys table
    /\ (forall w top y,
          In w words -> is_blank_word w = false ->
          word_top w = Some top -> row_key top y_tolerance = Ok y ->
          In y keys).
Proof.
  intros Hb. apply build_table_ok in Hb as (rows & Hrows & ->).
  destruct (cluster_rows_exact y_tolerance words [] rows Hrows (NoDup_nil _))
    as [Hnd _].
  exists (sorted Z.ltb (map fst rows)). repeat split.
  - apply ascending_distinct.
    + apply sorted_sorted.
      * intros a b H. apply Z.ltb_lt in H. apply Z.ltb_ge. lia.
      * intros a b c H1 H2. apply Z.ltb_ge in H1, H2. apply Z.ltb_ge. lia.
    + eapply Permutation_NoDup; [| exact Hnd].
      symmetry; apply sorted_perm.
  - apply Forall2_map_in. intros y Hy. apply sorted_in in Hy.
    destruct (cluster_rows_sound words y_tolerance rows Hrows y Hy)
      as [Hne Hall].
    exists (sorted x0_lt (rows_get rows y)). repeat split.
    + now apply sorted_not_nil.
    + eapply Permutation_Forall; [| exact Hall].
      symmetry; apply sorted_perm.
    + apply build_row_cells.
  - intros w top y Hw Hkept Htop Hy.
    destruct (cluster_rows_complete y_tolerance words [] rows Hrows)
      as [_ Hall].
    destruct (Hall w Hw Hkept) as (top' & y' & x & Ht' & Hy' & _ & _ & Hin).
    apply sorted_in. congruence.
Qed.

Lemma table_rows_ascending_witness :
  exists keys,
    StronglySorted Z.lt keys
    /\ Forall2 (fun y row =>
                  exists row_words,
                    row_words <> []
                    /\ Forall (word_in_row Sample.mixed_words 3 y) row_words
                    /\ row = row_cells 20 row_words)
               keys [["Total"; ""; "42"]; ["Tax"]]
    /\ (forall w top y,
          In w Sample.mixed_words -> is_blank_word w = false ->
          word_top w = Some top -> row_key top 3 = Ok y ->
          In y keys).
Proof.
  exact (table_rows_ascending Sample.mixed_words 3 20 _ eq_refl).
Defined.





(** ** Row keys and tops *)

(** X15. For a tolerance up to [2^53], a row key is a multiple of
    [y_tolerance] at most half of it away from the top it stands for, up to
    the rounding of the float quotient; so the tops of two words with one
    key differ by at most [y_tolerance] and the two roundings, which is
    [y_tolerance * (1 + 2^(j-53))] at most when both quotients are below
    [2^j]. *)
Theorem same_row_tops_close (t1 t2 : Q) (y_tolerance k : Z) :
  (0 < y_tolerance <= 2 ^ 53)%Z ->
  row_key t1 y_tolerance = Ok k ->
  row_key t2 y_tolerance = Ok k ->
  (exists n, k = (n * y_tolerance)%Z)
  /\ (2 * (t1 - inject_Z k)
      <= inject_Z y_tolerance
         * (1 + ulp (t1 / int_to_float y_tolerance)))%Q
  /\ (2 * (inject_Z k - t1)
      <= inject_Z y_tolerance
         * (1 + ulp (t1 / int_to_float y_tolerance)))%Q
  /\ (2 * (t1 - t2)
      <= inject_Z y_tolerance
         * (2 + ulp (t1 / int_to_float y_tolerance)
              + ulp (t2 / int_to_float y_tolerance)))%Q
  /\ (forall j,
        (0 <= j)%Z ->
        (Qabs (t1 / int_to_float y_tolerance) < pow2 j)%Q ->
        (Qabs (t2 / int_to_float y_tolerance) < pow2 j)%Q ->
        (t1 - t2 <= inject_Z y_tolerance * (1 + pow2 (j - 53)))%Q).
Proof.
  intros Hy H1 H2.
  destruct (row_key_near _ _ _ Hy H1) as [Ha Hb].
  destruct (row_key_near _ _ _ Hy H2) as [Hc Hd].
  pose proof (inject_Z_pos _ (proj1 Hy)) as Hq.
  repeat split; try lra.
  - rewrite row_key_ok in H1 by lia. injection H1 as <-. eauto.
  - intros j Hj B1 B2.
    pose proof (ulp_bound _ _ Hj B1) as U1.
    pose proof (ulp_bound _ _ Hj B2) as U2.
    set (u1 := ulp (t1 / int_to_float y_tolerance)) in *.
    set (u2 := ulp (t2 / int_to_float y_tolerance)) in *.
    set (Y := inject_Z y_tolerance) in *. set (p := pow2 (j - 53)) in *.
    assert (M1 : (Y * u1 <= Y * p)%Q)
      by (apply Qmult_le_l; assumption).
    assert (M2 : (Y * u2 <= Y * p)%Q)
      by (apply Qmult_le_l; assumption).
    lra.
Qed.

Lemma same_row_tops_close_witness :
  (exists n, 99%Z = (n * 3)%Z)
  /\ (2 * (99 - inject_Z 99)
      <= inject_Z 3 * (1 + ulp (99 / int_to_float 3)))%Q
  /\ (2 * (99 - 100)
      <= inject_Z 3 * (2 + ulp (99 / int_to_float 3)
                         + ulp (100 / int_to_float 3)))%Q
  /\ (99 - 100 <= inject_Z 3 * (1 + pow2 (6 - 53)))%Q.
Proof.
  assert (Hy : (0 < 3 <= 2 ^ 53)%Z) by (split; [reflexivity | discriminate]).
  destruct (same_row_tops_close 99 100 3 99 Hy eq_refl eq_refl)
    as (Hn & Ha & _ & Hd & Hj).
  refine (conj Hn (conj Ha (conj Hd (Hj 6%Z _ _ _)))).
  - discriminate.
  - reflexivity.
  - reflexivity.
Defined.

(** ** Sanitising twice *)

Lemma rstrip_keeps (s : string) (c : ascii) :
  PyStr.is_space (PyStr.last_char c s) = false ->
  PyStr.rstrip (String c s) = String c s.
Proof.
  revert c; induction s as [| c' s IH]; intros c H; simpl in *.
  - now rewrite H.
  - specialize (IH c' H). simpl in IH. now rewrite IH.
Qed.

(** A string without whitespace at either end is left as it is. *)
Lemma strip_trimmed_same (s : string) :
  PyStr.is_trimmed s = true -> PyStr.strip s = s.
Proof.
  destruct s as [| c s]; [reflexivity |]. unfold PyStr.is_trimmed.
  intros H. apply andb_true_iff in H as [H1 H2].
  apply negb_true_iff in H1, H2. unfold PyStr.strip.
  cbn [PyStr.lstrip]. rewrite H1. now apply rstrip_keeps.
Qed.

Lemma sanitize_cells_same (row : list string) :
  Forall (fun c => PyStr.is_trimmed c = true) row ->
  map sanitize_cell (map CObj row) = row.
Proof.
  induction 1 as [| c row Hc _ IH]; simpl; [reflexivity |].
  now rewrite (strip_trimmed_same c Hc), IH.
Qed.

Lemma sanitize_strings_same (table : list (list string)) :
  Forall (Forall (fun c => PyStr.is_trimmed c = true)) table ->
  sanitize_table (grid_of_strings table) = table.
Proof.
  induction 1 as [| row table Hrow _ IH]; simpl; [reflexivity |].
  unfold sanitize_table, grid_of_strings in *.
  now rewrite (sanitize_cells_same row Hrow), IH.
Qed.

Lemma sanitized_cells_trimmed (t : Grid) :
  Forall (Forall (fun c => PyStr.is_trimmed c = true)) (sanitize_table t).
Proof.
  pose proof (sanitize_table_spec t) as H.
  induction H as [| row out t outs Hrow _ IH]; constructor; [| exact IH].
  induction Hrow as [| cell c row out' Hc _ IHr]; constructor; [| exact IHr].
  apply Hc.
Qed.

(** X16. Sanitising keeps the shape of a grid (as many rows, each as long as it
    was) and, applied to its own result, changes nothing. *)
Theorem sanitize_table_idempotent (t : Grid) :
  map (@List.length string) (sanitize_table t) = map (@List.length Cell) t
  /\ sanitize_table (grid_of_strings (sanitize_table t)) = sanitize_table t.
Proof.
  split.
  - unfold sanitize_table. rewrite map_map. apply map_ext.
    intros row. apply length_map.
  - apply sanitize_strings_same, sanitized_cells_trimmed.
Qed.

Lemma cells_after_cell (col_gap last_x : Q) (row_words : list (Q * string))
  (c : string) :
  In c (cells_after col_gap last_x row_words) ->
  c = "" \/ exists x, In (x, c) row_words.
Proof.
  revert last_x; induction row_words as [| [x txt] rest IH]; intros last_x;
    simpl; [tauto |].
  intros H. apply in_app_or in H as [H | [<- | H]].
  - destruct (Qltb col_gap (float_sub x last_x)); [| destruct H].
    destruct H as [<- | []]. now left.
  - right; eauto.
  - destruct (IH x H) as [-> | [x' Hx']]; [now left | right; eauto].
Qed.

(** X17. The table built from words goes through the sanitiser unchanged: the
    table data of a reconstructed table is what the builder returned. *)
Theorem reconstructed_table_unchanged (words : list Word) (y_tolerance : Z)
  (col_gap : Q) (table : list (list string)) :
  build_table_from_words words y_tolerance col_gap = Ok table ->
  sanitize_table (grid_of_strings table) = table.
Proof.
  intros Hb. apply sanitize_strings_same. apply Forall_forall.
  intros row Hrow.
  destruct (build_table_rows _ _ _ _ _ Hb Hrow)
    as (y & row_words & _ & Hall & _ & ->).
  apply Forall_forall. intros c Hc.
  assert (Hcell : c = "" \/ exists x, In (x, c) row_words).
  { destruct row_words as [| [x txt] rest]; [destruct Hc |].
    destruct Hc as [<- | Hc]; [right; exists x; simpl; auto |].
    destruct (cells_after_cell _ _ _ _ Hc) as [-> | [x' Hx']];
      [now left | right; exists x'; simpl; auto]. }
  destruct Hcell as [-> | [x Hx]]; [reflexivity |].
  rewrite Forall_forall in Hall.
  destruct (Hall _ Hx) as (w & top & _ & (_ & Ht & _) & _). simpl in Ht.
  rewrite Ht. apply PyStrFacts.strip_trimmed.
Qed.

Lemma reconstructed_table_unchanged_witness :
  sanitize_table (grid_of_strings [["Total"; ""; "42"]; ["Tax"]])
  = [["Total"; ""; "42"]; ["Tax"]].
Proof.
  exact (reconstructed_table_unchanged Sample.mixed_words 3 20 _ eq_refl).
Defined.

(** ** The tables of a structured strategy *)



(** ** What a block is enriched with *)

Lemma collect_spans_spec (spans : list Span) (acc acc' : SpanAcc) :
  for_each collect_span spans acc = Ok acc' ->
  map Some (fst (fst acc')) = map Some (fst (fst acc)) ++ map span_text spans
  /\ map Some (snd (fst acc')) = map Some (snd (fst acc)) ++ map span_size spans
  /\ map Some (snd acc') = map Some (snd acc) ++ map span_flags spans.
Proof.
  revert acc; induction spans as [| s spans IH]; intros acc H; simpl in H.
  - injection H as <-. now rewrite !app_nil_r.
  - apply bind_ok in H as (acc1 & Hstep & Hrest).
    destruct (IH _ Hrest) as (H1 & H2 & H3). rewrite H1, H2, H3.
    unfold collect_span in Hstep. cbn [map].
    destruct acc as [[text_parts font_sizes] font_flags].
    destruct (span_text s) as [t |]; [| discriminate].
    destruct (span_size s) as [z |]; [| discriminate].
    destruct (span_flags s) as [f |]; [| discriminate].
    injection Hstep as <-. simpl.
    rewrite !map_app, <- !app_assoc. simpl. auto.
Qed.

Lemma collect_lines_spec (lines : list Line) (acc acc' : SpanAcc) :
  for_each collect_line lines acc = Ok acc' ->
  let spans := flat_map (fun l => get_default (line_spans l) []) lines in
  map Some (fst (fst acc')) = map Some (fst (fst acc)) ++ map span_text spans
  /\ map Some (snd (fst acc')) = map Some (snd (fst acc)) ++ map span_size spans
  /\ map Some (snd acc') = map Some (snd acc) ++ map span_flags spans.
Proof.
  cbv zeta. revert acc; induction lines as [| l lines IH]; intros acc H;
    simpl in H.
  - injection H as <-. simpl. now rewrite !app_nil_r.
  - apply bind_ok in H as (acc1 & Hstep & Hrest).
    destruct (IH _ Hrest) as (H1 & H2 & H3). rewrite H1, H2, H3.
    destruct (collect_spans_spec _ _ _ Hstep) as (G1 & G2 & G3).
    rewrite G1, G2, G3. simpl. rewrite !map_app, <- !app_assoc. auto.
Qed.

Lemma py_max_spec (first : Q) (rest : list Q) :
  In (py_max first rest) (first :: rest)
  /\ Forall (fun z => (z <= py_max first rest)%Q) (first :: rest).
Proof.
  unfold py_max. revert first; induction rest as [| z rest IH]; intros first.
  - simpl. split; [auto | repeat constructor; apply Qle_refl].
  - simpl. destruct (Qltb first z) eqn:Hlt.
    + destruct (IH z) as [Hin Hall]. split.
      * simpl in Hin |- *. tauto.
      * inversion Hall as [| ? ? Hz Hrest]; subst.
        constructor; [| now constructor].
        apply Qltb_lt in Hlt. eapply Qle_trans; [| exact Hz].
        now apply Qlt_le_weak.
    + destruct (IH first) as [Hin Hall]. split.
      * simpl in Hin |- *. tauto.
      * inversion Hall as [| ? ? Hf Hrest]; subst.
        constructor; [exact Hf |]. constructor; [| exact Hrest].
        apply Qltb_ge in Hlt. eapply Qle_trans; eauto.
Qed.

Lemma land_two (f : Z) :
  (Z.land f 2 =? 0)%Z = negb (Z.testbit f 1).
Proof.
  assert (H : Z.land f 2 = if Z.testbit f 1 then 2%Z else 0%Z).
  { apply Z.bits_inj'. intros n Hn. rewrite Z.land_spec.
    destruct (Z.eq_dec n 1) as [-> | Hne].
    - destruct (Z.testbit f 1); reflexivity.
    - assert (H2 : Z.testbit 2 n = false).
      { destruct (Z.eq_dec n 0) as [-> | H0]; [reflexivity |].
        apply Z.bits_above_log2; simpl; lia. }
      rewrite H2, andb_false_r.
      destruct (Z.testbit f 1); [now rewrite H2 | now rewrite Z.bits_0]. }
  rewrite H. destruct (Z.testbit f 1); reflexivity.
Qed.

(** X5. A block that is kept has the stripped, space-joined text of its spans,
    the bounding box of the source block, the greatest font size among its
    spans, and is bold exactly when some span has bit 1 of its flags set. *)
Theorem enriched_block_fields (b : Block) (tb : TextBlock) :
  enrich_block b = Ok (Some tb) ->
  exists texts,
    map Some texts = map span_text (block_spans b)
    /\ text tb = PyStr.strip (PyStr.join " " texts)
    /\ bbox tb = block_bbox b
    /\ In (Some (largest_font tb)) (map span_size (block_spans b))
    /\ (forall s z, In s (block_spans b) -> span_size s = Some z ->
                    (z <= largest_font tb)%Q)
    /\ (is_bold tb = true <->
        exists s f, In s (block_spans b) /\ span_flags s = Some f
                    /\ Z.testbit f 1 = true).
Proof.
  unfold enrich_block. intros H.
  apply bind_ok in H as ([[text_parts font_sizes] font_flags] & Hacc & H).
  destruct (collect_lines_spec _ _ _ Hacc) as (H1 & H2 & H3).
  simpl in H1, H2, H3. fold (block_spans b) in H1, H2, H3.
  destruct (PyStr.is_empty (PyStr.strip (PyStr.join " " text_parts))) eqn:He;
    [discriminate |].
  injection H as <-. cbn [text bbox largest_font is_bold].
  exists text_parts.
  split; [exact H1 |]. split; [reflexivity |]. split; [reflexivity |].
  split; [| split].
  - destruct font_sizes as [| z rest].
    + exfalso. destruct text_parts as [| t ts]; [discriminate He |].
      destruct (block_spans b); discriminate.
    + rewrite <- H2. apply in_map. cbn [max_or_zero].
      apply (py_max_spec z rest).
  - intros s z Hs Hz.
    assert (Hin : In (Some z) (map Some font_sizes))
      by (rewrite H2, <- Hz; now apply in_map).
    apply in_map_iff in Hin as (z' & Hz' & Hin). injection Hz' as ->.
    destruct font_sizes as [| z0 rest]; [destruct Hin |].
    pose proof (proj2 (py_max_spec z0 rest)) as Hall.
    rewrite Forall_forall in Hall. cbn [max_or_zero]. now apply Hall.
  - unfold any_bold. rewrite existsb_exists. split.
    + intros (f & Hf & Hbit). rewrite land_two, negb_involutive in Hbit.
      assert (Hin : In (Some f) (map span_flags (block_spans b)))
        by (rewrite <- H3; now apply in_map).
      apply in_map_iff in Hin as (s & Hs & Hin). eauto.
    + intros (s & f & Hs & Hf & Hbit).
      assert (Hin : In (Some f) (map Some font_flags))
        by (rewrite H3, <- Hf; now apply in_map).
      apply in_map_iff in Hin as (f' & Hf' & Hin). injection Hf' as ->.
      exists f. split; [exact Hin |].
      now rewrite land_two, negb_involutive.
Qed.

Lemma enriched_block_fields_witness :
  exists texts,
    map Some texts
    = map span_text (block_spans (Sample.block_at "Scope" 11 18 0 0))
    /\ "Scope" = PyStr.strip (PyStr.join " " texts)
    /\ Some (0, 0, 0 + 100, 0 + 12)%Q
       = block_bbox (Sample.block_at "Scope" 11 18 0 0)
    /\ In (Some 11%Q)
          (map span_size (block_spans (Sample.block_at "Scope" 11 18 0 0)))
    /\ (forall s z, In s (block_spans (Sample.block_at "Scope" 11 18 0 0)) ->
                    span_size s = Some z -> (z <= 11)%Q)
    /\ (true = true <->
        exists s f, In s (block_spans (Sample.block_at "Scope" 11 18 0 0))
                    /\ span_flags s = Some f /\ Z.testbit f 1 = true).
Proof.
  exact (enriched_block_fields (Sample.block_at "Scope" 11 18 0 0) _ eq_refl).
Defined.

(** ** The texts and labels a page yields *)

Lemma final_section_cases (blocks : list TextBlock) (before : option string) :
  final_section blocks before = before
  \/ exists b, In b blocks /\ final_section blocks before = Some (text b).
Proof.
  unfold final_section.
  destruct (find is_section_heading (rev blocks)) as [b |] eqn:Hf; [| now left].
  right. exists b. split; [| reflexivity].
  apply find_some in Hf as [Hin _]. now apply in_rev.
Qed.

Lemma final_subsection_cases (blocks : list TextBlock) (before : option string) :
  final_subsection blocks before = before
  \/ final_subsection blocks before = None
  \/ exists b, In b blocks /\ final_subsection blocks before = Some (text b).
Proof.
  unfold final_subsection.
  destruct (find is_heading (rev blocks)) as [b |] eqn:Hf; [| now left].
  right. destruct (is_section_heading b); [now left |].
  right. exists b. split; [| reflexivity].
  apply find_some in Hf as [Hin _]. now apply in_rev.
Qed.

(** X6. Every paragraph of a page has a text that is not empty and has no
    whitespace at either end, and a page never turns a section or
    sub-section label into the empty string. *)
Theorem page_texts_clean (page : Page) (section subsection : option string)
  (c : Classifier) :
  extract_text_and_headings page section subsection = Ok c ->
  Forall (fun i =>
            exists sec sub t,
              i = Paragraph sec sub t /\ t <> ""
              /\ PyStr.is_trimmed t = true)
         (paragraphs c)
  /\ (no_empty_label section -> no_empty_label (last_section c))
  /\ (no_empty_label subsection -> no_empty_label (last_subsection c)).
Proof.
  unfold extract_text_and_headings. intros H.
  apply bind_ok in H as (blocks & Hb & H). injection H as <-.
  destruct (text_blocks_spec page blocks Hb)
    as (_ & _ & _ & _ & Hclean).
  rewrite Forall_forall in Hclean.
  set (st := {| paragraphs := []; last_section := section;
                last_subsection := subsection |}).
  repeat apply conj.
  - apply Forall_forall. intros i Hi.
    pose proof (classify_blocks_only_paragraphs blocks st (Forall_nil _))
      as Hpar.
    rewrite Forall_forall in Hpar. specialize (Hpar i Hi).
    destruct i as [sec sub t | |]; try discriminate.
    exists sec, sub, t. split; [reflexivity |].
    apply (in_map item_text) in Hi.
    rewrite classify_blocks_texts in Hi. simpl in Hi.
    apply in_map_iff in Hi as (b & Hbt & Hin). injection Hbt as <-.
    apply filter_In in Hin as [Hin _]. now apply Hclean.
  - intros Hs. destruct (classify_blocks_final blocks st) as [-> _]. simpl.
    destruct (final_section_cases blocks section) as [-> | (b & Hin & ->)];
      [exact Hs |].
    intros E. injection E as E. now apply (Hclean b Hin).
  - intros Hs. destruct (classify_blocks_final blocks st) as [_ ->]. simpl.
    destruct (final_subsection_cases blocks subsection)
      as [-> | [-> | (b & Hin & ->)]]; [exact Hs | discriminate |].
    intros E. injection E as E. now apply (Hclean b Hin).
Qed.

Lemma page_texts_clean_witness :
  Forall (fun i =>
            exists sec sub t,
              i = Paragraph sec sub t /\ t <> ""
              /\ PyStr.is_trimmed t = true)
         [Paragraph "Intro" None "Intro"]
  /\ (no_empty_label None -> no_empty_label (Some "Intro"))
  /\ (no_empty_label None -> no_empty_label None).
Proof.
  exact (page_texts_clean Sample.repeated_title_page None None _ eq_refl).
Defined.

(** C4 (as amended). Whatever the extractors do, and whichever table raises
    while it is read, the resolver returns a list.  A raise of the Camelot
    call gives the result of a Camelot that finds nothing, and pdfplumber is
    called.  A raise of pdfplumber's table call gives the result of a
    pdfplumber that finds nothing when Camelot left nothing in the list, and
    the word source is called when Camelot did not return; when Camelot left
    tables in the list, the raise lets the word table be added to them,
    where a pdfplumber that finds nothing returns them alone.  A raise of the
    word source or of the table builder gives the result of a page without
    words.  A strategy that raises inside its loop over the tables does not
    return: the tables it had appended stay in the list, the next strategy
    is called, and the result starts with the tables Camelot left, followed
    by those pdfplumber left.  When every table reads, this is the resolver
    of the page assembler, and an error of page assembly is never one of
    the resolver. *)
Theorem resolver_never_raises (S : Resolver.Sources) (page_num : Z)
  (section subsection : option string) :
  (forall log, exists results calls,
      Resolver.extract_tables S page_num section subsection log
      = (Ok results, log ++ calls))
  /\ (raises (Resolver.camelot_answer S page_num) ->
      run (Resolver.extract_tables S page_num section subsection)
      = run (Resolver.extract_tables (Resolver.without_camelot S) page_num
                                   section subsection)
      /\ In (PlumberExtractTables page_num)
            (snd (Resolver.extract_tables S page_num section subsection [])))
  /\ (raises (Resolver.plumber_tables S page_num) ->
      (Resolver.left_behind section subsection
                          (Resolver.camelot_answer S page_num) = [] ->
       run (Resolver.extract_tables S page_num section subsection)
       = run (Resolver.extract_tables (Resolver.without_plumber_tables S)
                                    page_num section subsection))
      /\ (Resolver.returns section subsection []
                         (Resolver.camelot_answer S page_num) = false ->
          In (PlumberExtractWords page_num)
             (snd (Resolver.extract_tables S page_num section subsection []))))
  /\ (raises (Resolver.plumber_tables S page_num) ->
      Resolver.left_behind section subsection
                           (Resolver.camelot_answer S page_num) <> [] ->
      run (Resolver.extract_tables S page_num section subsection)
      = Ok (Resolver.left_behind section subsection
                                 (Resolver.camelot_answer S page_num)
            ++ word_items (Resolver.words_alone S) page_num
                          section subsection)
      /\ run (Resolver.extract_tables (Resolver.without_plumber_tables S)
                                      page_num section subsection)
         = Ok (Resolver.left_behind section subsection
                                    (Resolver.camelot_answer S page_num)))
  /\ (raises (Resolver.plumber_words S page_num)
      \/ (exists words,
             Resolver.plumber_words S page_num = Ok words
             /\ raises (build_table_from_words words default_y_tolerance
                                               default_col_gap)) ->
      run (Resolver.extract_tables S page_num section subsection)
      = run (Resolver.extract_tables (Resolver.without_words S) page_num
                                   section subsection))
  /\ (Resolver.returns section subsection []
                     (Resolver.camelot_answer S page_num) = false ->
      In (PlumberExtractTables page_num)
         (snd (Resolver.extract_tables S page_num section subsection []))
      /\ (exists later,
             run (Resolver.extract_tables S page_num section subsection)
             = Ok (Resolver.left_behind section subsection
                                      (Resolver.camelot_answer S page_num)
                   ++ later))
      /\ (Resolver.returns section subsection
                         (Resolver.left_behind section subsection
                            (Resolver.camelot_answer S page_num))
                         (Resolver.plumber_tables S page_num) = false ->
          In (PlumberExtractWords page_num)
             (snd (Resolver.extract_tables S page_num section subsection []))
          /\ run (Resolver.extract_tables S page_num section subsection)
             = Ok (Resolver.left_behind section subsection
                                      (Resolver.camelot_answer S page_num)
                   ++ Resolver.left_behind section subsection
                                         (Resolver.plumber_tables S page_num)
                   ++ word_items (Resolver.words_alone S) page_num
                                 section subsection)))
  /\ (forall E log,
        Resolver.extract_tables (Resolver.complete E) page_num
                              section subsection log
        = extract_tables E page_num section subsection log)
  /\ (forall E st page e,
        assemble_page E st (page_num, page) = Raise e ->
        extract_text_and_headings page (doc_section st) (doc_subsection st)
        = Raise e).
Proof.
  repeat apply conj.
  - intros log. rewrite resolver_extract_tables_eq. cbv zeta.
    destruct (Resolver.returns section subsection []
                             (Resolver.camelot_answer S page_num)); [eauto |].
    destruct (Resolver.returns section subsection _
                             (Resolver.plumber_tables S page_num)); eauto.
  - intros [e Hc]. split.
    + rewrite !resolver_run_extract_tables. cbv zeta. rewrite Hc.
      reflexivity.
    + rewrite resolver_extract_tables_eq. cbv zeta. rewrite Hc.
      cbn [Resolver.returns Resolver.carried].
      destruct (Resolver.returns section subsection []
                               (Resolver.plumber_tables S page_num));
        cbn [snd app]; apply in_or_app; right; simpl; auto.
  - intros [e Hp]. split.
    + intros Hl. rewrite !resolver_run_extract_tables. cbv zeta.
      change (Resolver.camelot_answer (Resolver.without_plumber_tables S)
                                    page_num)
        with (Resolver.camelot_answer S page_num).
      destruct (Resolver.returns section subsection []
                               (Resolver.camelot_answer S page_num)) eqn:Hr;
        [reflexivity |].
      rewrite (resolver_carried_left_behind _ _ _ _ Hr), Hl, Hp.
      reflexivity.
    + intros Hr. rewrite resolver_extract_tables_eq. cbv zeta.
      rewrite Hr, Hp. cbn [Resolver.returns snd app].
      apply in_or_app; right. right. unfold word_calls. simpl; auto.
  - intros [e Hp] Hl.
    assert (Hr : Resolver.returns section subsection []
                                  (Resolver.camelot_answer S page_num)
                 = false).
    { destruct (Resolver.returns section subsection []
                                 (Resolver.camelot_answer S page_num))
        eqn:Hr; [| reflexivity].
      apply resolver_returns_left_behind in Hr. contradiction. }
    rewrite !resolver_run_extract_tables. cbv zeta.
    change (Resolver.camelot_answer (Resolver.without_plumber_tables S)
                                    page_num)
      with (Resolver.camelot_answer S page_num).
    rewrite Hr, (resolver_carried_left_behind _ _ _ _ Hr), Hp.
    cbn [app Resolver.returns Resolver.carried].
    split; [reflexivity |].
    change (Resolver.plumber_tables (Resolver.without_plumber_tables S)
                                    page_num)
      with (@Ok (list (result Grid)) []).
    cbn [Resolver.returns Resolver.carried Resolver.append_tables fst].
    destruct (Resolver.left_behind section subsection
                                   (Resolver.camelot_answer S page_num));
      [contradiction | reflexivity].
  - intros Hw. rewrite !resolver_run_extract_tables. cbv zeta.
    change (Resolver.camelot_answer (Resolver.without_words S) page_num)
      with (Resolver.camelot_answer S page_num).
    change (Resolver.plumber_tables (Resolver.without_words S) page_num)
      with (Resolver.plumber_tables S page_num).
    replace (word_items (Resolver.words_alone (Resolver.without_words S))
                        page_num section subsection)
      with (word_items (Resolver.words_alone S) page_num section subsection);
      [reflexivity |].
    unfold word_items, word_table; simpl.
    destruct Hw as [[e ->] | (words & -> & [e ->])]; reflexivity.
  - intros H. repeat apply conj.
    + rewrite resolver_extract_tables_eq. cbv zeta. rewrite H.
      destruct (Resolver.returns section subsection _
                               (Resolver.plumber_tables S page_num));
        cbn [snd app]; apply in_or_app; right; simpl; auto.
    + rewrite resolver_run_extract_tables. cbv zeta. rewrite H.
      rewrite (resolver_carried_left_behind _ _ _ _ H). cbn [app].
      rewrite resolver_carried_app.
      destruct (Resolver.returns section subsection _
                               (Resolver.plumber_tables S page_num));
        [eauto | rewrite <- app_assoc; eauto].
    + intros Hp. split.
      * rewrite resolver_extract_tables_eq. cbv zeta. rewrite H.
        rewrite (resolver_carried_left_behind _ _ _ _ H). cbn [app].
        rewrite Hp. cbn [snd app].
        apply in_or_app; right. right. unfold word_calls. simpl; auto.
      * rewrite resolver_run_extract_tables. cbv zeta. rewrite H.
        rewrite (resolver_carried_left_behind _ _ _ _ H). cbn [app].
        rewrite Hp, (resolver_carried_left_behind _ _ _ _ Hp), <- app_assoc.
        reflexivity.
  - intros E log. reflexivity.
  - intros E st page e Hrun. unfold assemble_page in Hrun.
    destruct (extract_text_and_headings page (doc_section st)
                                        (doc_subsection st)) as [c | e'];
      simpl in Hrun; [| congruence].
    rewrite run_extract_tables in Hrun. cbv zeta in Hrun.
    destruct (negb (is_nil (structured_items (last_section c)
                              (last_subsection c)
                              (camelot_outcome E page_num))));
      [discriminate |].
    destruct (negb (is_nil (structured_items (last_section c)
                              (last_subsection c)
                              (plumber_extract_tables E page_num))));
      discriminate.
Qed.

Lemma resolver_never_raises_witness :
  (run (Resolver.extract_tables Sample.every_call_raises 1 None None)
   = run (Resolver.extract_tables
            (Resolver.without_camelot Sample.every_call_raises) 1 None None)
   /\ In (PlumberExtractTables 1)
         (snd (Resolver.extract_tables Sample.every_call_raises 1 None None [])))
  /\ run (Resolver.extract_tables Sample.every_call_raises 1 None None)
     = run (Resolver.extract_tables
              (Resolver.without_plumber_tables Sample.every_call_raises)
              1 None None)
  /\ run (Resolver.extract_tables Sample.every_call_raises 1 None None)
     = run (Resolver.extract_tables
              (Resolver.without_words Sample.every_call_raises) 1 None None)
  /\ (In (PlumberExtractWords 1)
         (snd (Resolver.extract_tables Sample.second_table_raises_words
                                     1 None None []))
      /\ run (Resolver.extract_tables Sample.second_table_raises_words
                                    1 None None)
         = Ok (Resolver.left_behind None None
                 (Resolver.camelot_answer Sample.second_table_raises_words 1)
               ++ Resolver.left_behind None None
                    (Resolver.plumber_tables Sample.second_table_raises_words 1)
               ++ word_items
                    (Resolver.words_alone Sample.second_table_raises_words)
                    1 None None))
  /\ (run (Resolver.extract_tables Sample.second_table_raises_words
                                    1 None None)
      = Ok (Resolver.left_behind None None
              (Resolver.camelot_answer Sample.second_table_raises_words 1)
            ++ word_items
                 (Resolver.words_alone Sample.second_table_raises_words)
                 1 None None)
      /\ run (Resolver.extract_tables
                (Resolver.without_plumber_tables
                   Sample.second_table_raises_words) 1 None None)
         = Ok (Resolver.left_behind None None
                 (Resolver.camelot_answer
                    Sample.second_table_raises_words 1)))
  /\ extract_text_and_headings Sample.missing_bbox_page None None
     = Raise TypeError.
Proof.
  destruct (resolver_never_raises Sample.every_call_raises 1 None None)
    as (_ & Hc & Hp & _ & Hw & _).
  destruct (resolver_never_raises Sample.second_table_raises_words
                                  1 None None)
    as (_ & _ & _ & Hadd & _ & Hk & _ & Hpage).
  assert (H4 : raises (Resolver.plumber_tables
                         Sample.second_table_raises_words 1))
    by (exists ExternalError; reflexivity).
  assert (H1 : raises (Resolver.camelot_answer Sample.every_call_raises 1))
    by (exists ExternalError; reflexivity).
  assert (H2 : raises (Resolver.plumber_tables Sample.every_call_raises 1))
    by (exists ExternalError; reflexivity).
  assert (H3 : raises (Resolver.plumber_words Sample.every_call_raises 1))
    by (exists ExternalError; reflexivity).
  refine (conj (Hc H1)
            (conj (proj1 (Hp H2) eq_refl)
               (conj (Hw (or_introl H3))
                  (conj (proj2 (proj2 (Hk eq_refl)) eq_refl)
                     (conj (Hadd H4 _) _))))).
  - discriminate.
  - apply (Hpage Sample.all_raise
               {| pages_output := []; doc_section := None;
                  doc_subsection := None |}
               Sample.missing_bbox_page TypeError).
    reflexivity.
Defined.

(** The tables of C4's refutation: lattice mode gives two tables and the
    second one raises while it is read.  The Camelot strategy ends in its
    handler, yet its first table is returned, in front of pdfplumber's; with
    a Camelot that adds no table the result is pdfplumber's table alone. *)
Lemma partial_tables_kept :
  snd (Resolver.append_tables None None
         [Ok [[CObj "a"]]; Raise ExternalError] [])
  = Some ExternalError
  /\ run (Resolver.extract_tables Sample.second_table_raises 1 None None)
     = Ok [Table "Unknown" None None [["a"]];
           Table "Unknown" None None [["b"]]]
  /\ run (Resolver.extract_tables
            (Resolver.without_camelot Sample.second_table_raises) 1 None None)
     = Ok [Table "Unknown" None None [["b"]]]
  /\ run (Resolver.extract_tables Sample.second_table_raises 1 None None)
     <> run (Resolver.extract_tables
               (Resolver.without_camelot Sample.second_table_raises)
               1 None None).
Proof.
  repeat apply conj; try reflexivity.
  vm_compute. discriminate.
Qed.

(** ** Row keys and the rows of the table *)

Lemma row_keys_ascending (rows : Rows) :
  NoDup (map fst rows) ->
  StronglySorted Z.lt (sorted Z.ltb (map fst rows)).
Proof.
  intros Hnd. apply ascending_distinct.
  - apply sorted_sorted.
    + intros a b H. apply Z.ltb_lt in H. apply Z.ltb_ge. lia.
    + intros a b c H1 H2. apply Z.ltb_ge in H1, H2. apply Z.ltb_ge. lia.
  - eapply Permutation_NoDup; [| exact Hnd].
    symmetry; apply sorted_perm.
Qed.

(** In an ascending list, two members with no member between them stand
    side by side. *)
Lemma ascending_adjacent (l : list Z) (a b : Z) :
  StronglySorted Z.lt l -> In a l -> In b l -> (a < b)%Z ->
  (forall c, In c l -> ~ (a < c < b)%Z) ->
  exists pre post, l = pre ++ a :: b :: post.
Proof.
  induction 1 as [| x l Hs IH Hx]; intros Ha Hb Hab Hnone; [destruct Ha |].
  rewrite Forall_forall in Hx.
  destruct Ha as [-> | Ha].
  - destruct Hb as [-> | Hb]; [lia |].
    destruct l as [| y l]; [destruct Hb |].
    exists [], l. simpl. f_equal. f_equal.
    assert (Hy : (a < y)%Z) by (apply Hx; simpl; auto).
    assert (Hn : ~ (a < y < b)%Z) by (apply Hnone; simpl; auto).
    destruct Hb as [-> | Hb]; [reflexivity |].
    inversion Hs as [| ? ? _ Hy']; subst.
    rewrite Forall_forall in Hy'. specialize (Hy' b Hb). lia.
  - destruct Hb as [-> | Hb].
    + specialize (Hx a Ha). lia.
    + destruct IH as (pre & post & ->); auto.
      * intros c Hc. apply Hnone. simpl; auto.
      * exists (x :: pre), post. reflexivity.
Qed.

(** Every key of the dictionary is a multiple of [y_tolerance]. *)
Lemma cluster_keys_multiples (words : list Word) (y_tolerance : Z)
  (rows : Rows) (y : Z) :
  for_each (cluster_word y_tolerance) words [] = Ok rows ->
  In y (map fst rows) ->
  exists m, y = (m * y_tolerance)%Z.
Proof.
  intros Hrows Hy.
  destruct (cluster_rows_sound words y_tolerance rows Hrows y Hy)
    as [Hne Hall].
  destruct (rows_get rows y) as [| e l]; [congruence |].
  inversion Hall as [| ? ? (w & top & _ & _ & _ & Hk) _]; subst.
  unfold row_key in Hk.
  destruct (y_tolerance =? 0)%Z; [discriminate |].
  injection Hk as <-. eauto.
Qed.

(** Kept words with one key share a row. *)
Lemma same_key_one_row (words : list Word) (y_tolerance : Z) (col_gap : Q)
  (table : list (list string)) (w1 w2 : Word) (t1 t2 : Q) (k : Z) :
  build_table_from_words words y_tolerance col_gap = Ok table ->
  In w1 words -> In w2 words ->
  is_blank_word w1 = false -> is_blank_word w2 = false ->
  word_top w1 = Some t1 -> word_top w2 = Some t2 ->
  row_key t1 y_tolerance = Ok k -> row_key t2 y_tolerance = Ok k ->
  in_one_row table (PyStr.strip (get_default (word_text w1) ""))
                   (PyStr.strip (get_default (word_text w2) "")).
Proof.
  intros Hb Hw1 Hw2 Hb1 Hb2 Ht1 Ht2 Hk1 Hk2.
  apply build_table_ok in Hb as (rows & Hrows & ->).
  destruct (cluster_rows_complete y_tolerance words [] rows Hrows)
    as [_ Hall].
  destruct (Hall w1 Hw1 Hb1) as (t1' & y1 & x1 & Ht1' & Hy1 & _ & Hin1 & Hkey).
  destruct (Hall w2 Hw2 Hb2) as (t2' & y2 & x2 & Ht2' & Hy2 & _ & Hin2 & _).
  assert (y1 = k) by congruence. assert (y2 = k) by congruence. subst y1 y2.
  exists (row_cells col_gap (sorted x0_lt (rows_get rows k))).
  repeat split.
  - apply table_of_rows_in. eauto.
  - eapply row_cells_in, sorted_in; eauto.
  - eapply row_cells_in, sorted_in; eauto.
Qed.

(** Kept words whose keys are [k] and [k + y_tolerance] are in two rows,
    the second right after the first. *)
Lemma next_key_rows_after (words : list Word) (y_tolerance : Z) (col_gap : Q)
  (table : list (list string)) (w1 w2 : Word) (t1 t2 : Q) (k : Z) :
  (0 < y_tolerance)%Z ->
  build_table_from_words words y_tolerance col_gap = Ok table ->
  In w1 words -> In w2 words ->
  is_blank_word w1 = false -> is_blank_word w2 = false ->
  word_top w1 = Some t1 -> word_top w2 = Some t2 ->
  row_key t1 y_tolerance = Ok k ->
  row_key t2 y_tolerance = Ok (k + y_tolerance)%Z ->
  in_rows_after table (PyStr.strip (get_default (word_text w1) ""))
                      (PyStr.strip (get_default (word_text w2) "")).
Proof.
  intros Hy Hb Hw1 Hw2 Hb1 Hb2 Ht1 Ht2 Hk1 Hk2.
  apply build_table_ok in Hb as (rows & Hrows & ->).
  destruct (cluster_rows_complete y_tolerance words [] rows Hrows)
    as [_ Hall].
  destruct (Hall w1 Hw1 Hb1) as (t1' & y1 & x1 & Ht1' & Hy1 & _ & Hin1 & Hkey1).
  destruct (Hall w2 Hw2 Hb2) as (t2' & y2 & x2 & Ht2' & Hy2 & _ & Hin2 & Hkey2).
  assert (y1 = k) by congruence.
  assert (y2 = (k + y_tolerance)%Z) by congruence. subst y1 y2.
  destruct (cluster_rows_exact y_tolerance words [] rows Hrows (NoDup_nil _))
    as [Hnd _].
  destruct (ascending_adjacent (sorted Z.ltb (map fst rows)) k
                               (k + y_tolerance)%Z)
    as (pre & post & HL).
  - now apply row_keys_ascending.
  - now apply sorted_in.
  - now apply sorted_in.
  - lia.
  - intros c Hc Hbetween. apply sorted_in in Hc.
    destruct (cluster_keys_multiples _ _ _ _ Hrows Hc) as [m ->].
    destruct (cluster_keys_multiples _ _ _ _ Hrows Hkey1) as [r Hr].
    subst k. destruct Hbetween as [A B].
    assert (r < m)%Z
      by (apply (Z.mul_lt_mono_pos_r y_tolerance); assumption).
    assert (m < r + 1)%Z
      by (apply (Z.mul_lt_mono_pos_r y_tolerance); [assumption | lia]).
    lia.
  - unfold in_rows_after, table_of_rows. rewrite HL, map_app. cbn [map].
    eexists _, _, _, _. split; [reflexivity |].
    rewrite !build_row_cells. split.
    + eapply row_cells_in, sorted_in; eauto.
    + eapply row_cells_in, sorted_in; eauto.
Qed.

(** C5 (as amended). The row key of a word is [round(top / y_tolerance)]
    rescaled by [y_tolerance], the quotient being the float one, and the
    conversion of [y_tolerance] to a float is exact up to [2^53].  The key
    never decreases when the top grows.  Two tops less than [y_tolerance]
    apart, by the margin of the rounding of the two quotients, get equal
    keys or keys that differ by exactly [y_tolerance].  Two kept words with
    equal keys end up in the same output row; with keys [k] and
    [k + y_tolerance] they end up in two rows, the second right after the
    first.  So two kept words whose tops are that close are in the same
    row or in two neighbouring rows. *)
Theorem equal_row_key_same_row (words : list Word) (y_tolerance : Z)
  (col_gap : Q) :
  (forall top, y_tolerance <> 0%Z ->
               row_key top y_tolerance
               = Ok (py_round (float_div top (int_to_float y_tolerance))
                     * y_tolerance)%Z)
  /\ ((0 < y_tolerance <= 2 ^ 53)%Z ->
      (int_to_float y_tolerance == inject_Z y_tolerance)%Q)
  /\ (forall t1 t2 k1 k2,
        (0 < y_tolerance)%Z -> (t1 <= t2)%Q ->
        row_key t1 y_tolerance = Ok k1 ->
        row_key t2 y_tolerance = Ok k2 ->
        (k1 <= k2)%Z)
  /\ (forall t1 t2 k1 k2,
        (0 < y_tolerance)%Z ->
        tops_close y_tolerance t1 t2 ->
        row_key t1 y_tolerance = Ok k1 ->
        row_key t2 y_tolerance = Ok k2 ->
        k1 = k2 \/ k1 = (k2 + y_tolerance)%Z \/ k2 = (k1 + y_tolerance)%Z)
  /\ (forall table w1 w2 t1 t2 k,
        build_table_from_words words y_tolerance col_gap = Ok table ->
        In w1 words -> In w2 words ->
        is_blank_word w1 = false -> is_blank_word w2 = false ->
        word_top w1 = Some t1 -> word_top w2 = Some t2 ->
        row_key t1 y_tolerance = Ok k -> row_key t2 y_tolerance = Ok k ->
        exists row,
          In row table
          /\ In (PyStr.strip (get_default (word_text w1) "")) row
          /\ In (PyStr.strip (get_default (word_text w2) "")) row)
  /\ (forall table w1 w2 t1 t2 k,
        (0 < y_tolerance)%Z ->
        build_table_from_words words y_tolerance col_gap = Ok table ->
        In w1 words -> In w2 words ->
        is_blank_word w1 = false -> is_blank_word w2 = false ->
        word_top w1 = Some t1 -> word_top w2 = Some t2 ->
        row_key t1 y_tolerance = Ok k ->
        row_key t2 y_tolerance = Ok (k + y_tolerance)%Z ->
        in_rows_after table (PyStr.strip (get_default (word_text w1) ""))
                            (PyStr.strip (get_default (word_text w2) "")))
  /\ (forall table w1 w2 t1 t2,
        (0 < y_tolerance)%Z ->
        build_table_from_words words y_tolerance col_gap = Ok table ->
        In w1 words -> In w2 words ->
        is_blank_word w1 = false -> is_blank_word w2 = false ->
        word_top w1 = Some t1 -> word_top w2 = Some t2 ->
        tops_close y_tolerance t1 t2 ->
        in_one_row table (PyStr.strip (get_default (word_text w1) ""))
                         (PyStr.strip (get_default (word_text w2) ""))
        \/ in_rows_after table (PyStr.strip (get_default (word_text w1) ""))
                               (PyStr.strip (get_default (word_text w2) ""))
        \/ in_rows_after table (PyStr.strip (get_default (word_text w2) ""))
                               (PyStr.strip (get_default (word_text w1) ""))).
Proof.
  repeat apply conj.
  - intros top H. now apply row_key_ok.
  - apply int_to_float_exact.
  - intros t1 t2 k1 k2. apply row_key_mono.
  - intros t1 t2 k1 k2 Hy [H12 H21]. now apply row_key_close.
  - intros table w1 w2 t1 t2 k. apply same_key_one_row.
  - intros table w1 w2 t1 t2 k. apply next_key_rows_after.
  - intros table w1 w2 t1 t2 Hy Hb Hw1 Hw2 Hb1 Hb2 Ht1 Ht2 [H12 H21].
    assert (Hrows := Hb).
    apply build_table_ok in Hrows as (rows & Hrows & _).
    destruct (cluster_rows_complete y_tolerance words [] rows Hrows)
      as [_ Hall].
    destruct (Hall w1 Hw1 Hb1) as (t1' & k1 & _ & Ht1' & Hk1 & _).
    destruct (Hall w2 Hw2 Hb2) as (t2' & k2 & _ & Ht2' & Hk2 & _).
    assert (t1' = t1) by congruence. assert (t2' = t2) by congruence.
    subst t1' t2'.
    destruct (row_key_close t1 t2 y_tolerance k1 k2 Hy H12 H21 Hk1 Hk2)
      as [E | [E | E]]; subst.
    + left. eapply same_key_one_row; eauto.
    + right; right. eapply (next_key_rows_after words); eauto.
    + right; left. eapply (next_key_rows_after words); eauto.
Qed.

Lemma equal_row_key_same_row_witness :
  row_key 100 3 = Ok (py_round (float_div 100 (int_to_float 3)) * 3)%Z
  /\ (int_to_float 3 == inject_Z 3)%Q
  /\ (0 <= 3)%Z
  /\ (0 = 3 \/ 0 = 3 + 3 \/ 3 = 0 + 3)%Z
  /\ (exists row,
         In row [["Total"; ""; "42"]; ["Tax"]]
         /\ In (PyStr.strip "Total") row /\ In (PyStr.strip "42") row)
  /\ in_rows_after [["a"]; ["b"]] (PyStr.strip "a") (PyStr.strip "b")
  /\ (in_one_row [["a"]; ["b"]] (PyStr.strip "b") (PyStr.strip "a")
      \/ in_rows_after [["a"]; ["b"]] (PyStr.strip "b") (PyStr.strip "a")
      \/ in_rows_after [["a"]; ["b"]] (PyStr.strip "a") (PyStr.strip "b")).
Proof.
  destruct (equal_row_key_same_row Sample.mixed_words 3 20)
    as (Hkey & Hconv & _ & _ & Hsame & _).
  destruct (equal_row_key_same_row Sample.close_words 3 20)
    as (_ & _ & Hmono & Hclose & _ & Hnext & Hrows).
  assert (Hpos : (0 < 3)%Z) by reflexivity.
  assert (Hnear : tops_close 3 0 (9 # 4)) by (split; reflexivity).
  assert (Hnear' : tops_close 3 (9 # 4) 0) by (split; reflexivity).
  refine (conj (Hkey 100 _)
            (conj (Hconv _)
               (conj (Hmono 0 (9 # 4) 0%Z 3%Z Hpos _ eq_refl eq_refl)
                  (conj (Hclose 0 (9 # 4) 0%Z 3%Z Hpos Hnear eq_refl eq_refl)
                     (conj _ (conj _ _)))))).
  - discriminate.
  - split; [reflexivity | discriminate].
  - discriminate.
  - apply (Hsame [["Total"; ""; "42"]; ["Tax"]]
                 (Sample.word_at "Total" 0 99) (Sample.word_at "42" 60 100)
                 99 100 99%Z); try reflexivity; simpl; auto.
  - apply (Hnext [["a"]; ["b"]]
                 (Sample.word_at "a" 0 0) (Sample.word_at "b" 10 (9 # 4))
                 0 (9 # 4) 0%Z); try reflexivity; simpl; auto.
  - apply (Hrows [["a"]; ["b"]]
                 (Sample.word_at "b" 10 (9 # 4)) (Sample.word_at "a" 0 0)
                 (9 # 4) 0); try reflexivity; try exact Hnear'; simpl; auto.
Defined.
